(** * Doha Magazine assistant: conversation pipeline and session store

    A shallow embedding of [app/services/storage.py],
    [app/services/retrieval.py], [app/services/embeddings.py],
    [app/services/chat.py], the feedback, history and statistics routes of
    [app/routers/chat.py] and the chunker of [index_dm_articles.py],
    followed by the properties of the feedback statistics, the session
    store, the context formatter, the orchestration function
    [generate_chat_response], the retry loops, the routes and the chunker.

    Conventions.
    - A Python [str] is a list of Unicode code points ([pystr]); [len],
      slicing, [in], [split], [strip] and [replace] act on code points.
      String literals are written as UTF-8 text and decoded by [u].
    - A Python [dict] with free-form keys (a stored message) is a
      [gmap string value]; the session container is a [gmap] from the
      document id to the document.
    - Every call that leaves the process (document store, embedding
      service, search index, chat completion, [re], clock, uuid, log file)
      is either an operation on the explicit [world] or a field of the
      [Services] interface; [float] arithmetic is the [PyFloat] interface.
    - An exception is represented by [str(e)], the only thing the code
      ever inspects.

    Assumptions on what lies outside the code.
    - The document store is reliable: [read_item] raises only when the
      document is absent, and a write that is reached succeeds.
    - A stored document has the shape the code writes: [messages], when
      present, is a list of dictionaries with scalar values; a search result
      has string fields or lacks them.
    - [app.models.Message] accepts a string id and text, a role among
      [user] and [assistant] and a feedback among [None], [up], [down],
      and rejects anything else.
    - [enumerate[Any](messages)] in [update_message_feedback] is
      [enumerate(messages)], and [list[Message](...)] in
      [get_conversation_history] is [list(...)], as they are from
      Python 3.9 on.
    - Reading an attribute that a pydantic model does not declare raises
      [AttributeError].
    - A loop that may not terminate ([chunk_text]) takes the number of
      iterations it is allowed; [None] means that they did not suffice. *)

From Stdlib Require Import ZArith NArith Ascii String QArith.
From stdpp Require Import gmap strings list.
Close Scope Q_scope.
Local Open Scope Z_scope.

(** ** Python strings *)

Definition pystr : Type := list N.

Fixpoint utf8_go (need : nat) (acc : N) (bs : list N) : pystr :=
  match bs with
  | [] => []
  | b :: bs' =>
    match need with
    | O => if (b <? 128)%N then b :: utf8_go 0 0%N bs'
           else if (b <? 224)%N then utf8_go 1 (N.land b 31) bs'
           else if (b <? 240)%N then utf8_go 2 (N.land b 15) bs'
           else utf8_go 3 (N.land b 7) bs'
    | S O => (acc * 64 + N.land b 63)%N :: utf8_go 0 0%N bs'
    | S n => utf8_go n (acc * 64 + N.land b 63)%N bs'
    end
  end.

(** [u "text"] is the Python string whose UTF-8 encoding is the literal. *)
Definition u (s : string) : pystr :=
  utf8_go 0 0%N (map N_of_ascii (list_ascii_of_string s)).

(** [str.isspace] on one code point: the characters [split] and [strip]
    treat as white space. *)
Definition isspace_char (c : N) : bool :=
  ((9 <=? c) && (c <=? 13) || (28 <=? c) && (c <=? 32)
   || (c =? 133) || (c =? 160) || (c =? 5760)
   || (8192 <=? c) && (c <=? 8202)
   || (c =? 8232) || (c =? 8233) || (c =? 8239) || (c =? 8287)
   || (c =? 12288))%N.

Definition pystr_eqb (a b : pystr) : bool := bool_decide (a = b).

Definition truthy (s : pystr) : bool :=
  match s with [] => false | _ => true end.

Fixpoint lstrip (s : pystr) : pystr :=
  match s with
  | c :: s' => if isspace_char c then lstrip s' else s
  | [] => []
  end.

Definition rstrip (s : pystr) : pystr := rev (lstrip (rev s)).

(** [s.strip()] *)
Definition strip (s : pystr) : pystr := rstrip (lstrip s).

(** [s.isspace()]: at least one character and all of them white space. *)
Definition isspace (s : pystr) : bool :=
  truthy s && forallb isspace_char s.

Fixpoint split_go (cur : pystr) (s : pystr) : list pystr :=
  match s with
  | [] => match cur with [] => [] | _ => [rev cur] end
  | c :: s' =>
    if isspace_char c
    then match cur with
         | [] => split_go [] s'
         | _ => rev cur :: split_go [] s'
         end
    else split_go (c :: cur) s'
  end.

(** [s.split()] with no separator: maximal runs of non-space characters. *)
Definition split (s : pystr) : list pystr := split_go [] s.

(** [sep.join(parts)] *)
Fixpoint join (sep : pystr) (parts : list pystr) : pystr :=
  match parts with
  | [] => []
  | [p] => p
  | p :: rest => p ++ sep ++ join sep rest
  end.

Fixpoint startswith (p s : pystr) : bool :=
  match p, s with
  | [], _ => true
  | _ :: _, [] => false
  | a :: p', b :: s' => (a =? b)%N && startswith p' s'
  end.

(** [sub in s] *)
Fixpoint contains (sub s : pystr) : bool :=
  startswith sub s ||
  match s with
  | [] => false
  | _ :: s' => contains sub s'
  end.

Fixpoint replace_go (old new : pystr) (skip : nat) (s : pystr) : pystr :=
  match s with
  | [] => []
  | c :: s' =>
    match skip with
    | S k => replace_go old new k s'
    | O => if startswith old s
           then new ++ replace_go old new (length old - 1) s'
           else c :: replace_go old new 0 s'
    end
  end.

(** [s.replace(old, new)]: leftmost non-overlapping occurrences. *)
Definition replace (old new s : pystr) : pystr :=
  match old with
  | [] => new ++ flat_map (fun c => c :: new) s
  | _ => replace_go old new 0 s
  end.

(** [l[-n:]] for an [int] n: the last [n] items when [n > 0], everything
    when [n = 0], and [l[|n|:]] when [n < 0]. *)
Definition slice_last {A} (n : Z) (l : list A) : list A :=
  if 0 <? n then drop (length l - Z.to_nat n) l
  else drop (Z.to_nat (- n)) l.

Definition digit_char (d : nat) : N := (48 + N.of_nat d)%N.

Fixpoint str_of_nat_go (fuel n : nat) (acc : pystr) : pystr :=
  match fuel with
  | O => acc
  | S fuel' =>
    let acc' := digit_char (n mod 10) :: acc in
    match (n / 10)%nat with
    | O => acc'
    | q => str_of_nat_go fuel' q acc'
    end
  end.

(** [str(n)] for a non-negative [int]. *)
Definition str_of_nat (n : nat) : pystr := str_of_nat_go (S n) n [].

(** The part of the Unicode character database the code consults:
    [str.lower] and [str.isalpha]. *)
Class Unicode := {
  lower : pystr -> pystr;
  isalpha : N -> bool
}.

(** The part of [float] arithmetic the code uses.  [int_truediv a b] is
    [a / b] on two [int]s, [fdiv_int x n] is [x / n] for a [float] and an
    [int], [fgt]/[flt] are [>] and [<]; [f_0_3], [f_0_5] are the literals
    [0.3] and [0.5]. *)
Class PyFloat := {
  float : Type;
  float_of_int : Z -> float;
  int_truediv : Z -> Z -> float;
  fadd : float -> float -> float;
  fdiv_int : float -> Z -> float;
  fgt : float -> float -> bool;
  flt : float -> float -> bool;
  float_truthy : float -> bool;
  f_0_3 : float;
  f_0_5 : float
}.

(** A fragment of the character database, enough to run examples:
    Basic Latin and the Arabic block. *)
Definition sample_lower_char (c : N) : N :=
  if ((65 <=? c) && (c <=? 90))%N then (c + 32)%N else c.

Definition sample_isalpha (c : N) : bool :=
  ((65 <=? c) && (c <=? 90) || (97 <=? c) && (c <=? 122)
   || (1568 <=? c) && (c <=? 1610) || (1646 <=? c) && (c <=? 1647)
   || (1649 <=? c) && (c <=? 1747) || (c =? 1749)
   || (1765 <=? c) && (c <=? 1766) || (1774 <=? c) && (c <=? 1775)
   || (1786 <=? c) && (c <=? 1788) || (c =? 1791))%N.

Definition sample_unicode : Unicode :=
  {| lower := map sample_lower_char; isalpha := sample_isalpha |}.

(** Exact rational arithmetic as an instance of [PyFloat] for examples. *)
Definition Q_truediv (a b : Z) : Q :=
  match b with
  | Zpos p => Qmake a p
  | Zneg p => Qmake (- a) p
  | Z0 => Qmake 0 1
  end.

Definition Q_lt (x y : Q) : bool := negb (Qle_bool y x).

Definition rational_float : PyFloat :=
  {| float := Q;
     float_of_int := inject_Z;
     int_truediv := Q_truediv;
     fadd := Qplus;
     fdiv_int := fun x n => Qmult x (Q_truediv 1 n);
     fgt := fun x y => Q_lt y x;
     flt := Q_lt;
     float_truthy := fun x => negb (Qeq_bool x (inject_Z 0));
     f_0_3 := Qmake 3 10;
     f_0_5 := Qmake 1 2 |}.

(** ** Data model *)

(** A JSON scalar as stored inside a message document. *)
Inductive value :=
| VNone
| VBool (b : bool)
| VInt (n : Z)
| VStr (s : pystr).

#[global] Instance value_eq_dec : EqDecision value.
Proof. solve_decision. Defined.

(** [v == s] for a Python [str] [s]. *)
Definition value_eq_str (v : value) (s : pystr) : bool :=
  match v with
  | VStr t => pystr_eqb t s
  | _ => false
  end.

Definition value_is_none (v : value) : bool :=
  match v with VNone => true | _ => false end.

(** One entry of a session's ["messages"] list: [{id, role, text, feedback?}]. *)
Abbreviation message := (gmap string value).

(** [msg.get(key)] and [msg.get(key, default)] *)
Definition msg_get (msg : message) (key : string) : value :=
  default VNone (msg !! key).

Definition msg_get_default (msg : message) (key : string) (d : value) : value :=
  default d (msg !! key).

(** [key in msg] *)
Definition msg_has (msg : message) (key : string) : bool :=
  bool_decide (is_Some (msg !! key)).

(** [app.models.Message] *)
Record Message := {
  msg_id : pystr;
  msg_role : pystr;
  msg_text : pystr;
  msg_feedback : option pystr
}.

(** [app.models.Source] *)
Record Source `{PyFloat} := {
  src_title : pystr;
  src_url : pystr;
  src_content : option pystr;
  src_score : option float
}.

(** A search result as a [dict]; a field is [None] when the key is absent. *)
Record search_doc `{PyFloat} := {
  d_id : option pystr;
  d_title : option pystr;
  d_url : option pystr;
  d_summary : option pystr;
  d_content : option pystr;
  d_score : option float
}.

(** The [feedback_statistics] object of a session document. *)
Record statistics `{PyFloat} := {
  stats_positive : Z;
  stats_negative : Z;
  stats_null : Z;
  stats_total_assistant_messages : Z;
  stats_positive_ratio : float;
  stats_negative_ratio : float;
  stats_overall_feedback : pystr;
  stats_last_updated : pystr
}.

(** A session document, [{id, session_id, messages, message_count,
    feedback_statistics}].  [id] and [session_id] are the key under which
    the container holds the document and are never rewritten; the other
    fields are [None] while the key is absent from the document. *)
Record session_doc `{PyFloat} := {
  doc_messages : option (list message);
  doc_message_count : option Z;
  doc_feedback_statistics : option statistics
}.

(** One message of a chat-completion request. *)
Record chat_message := {
  cm_role : pystr;
  cm_content : pystr
}.

(** The [metadata] argument of [log_unanswered_question]. *)
Record log_metadata `{PyFloat} := {
  lm_avg_score : float;
  lm_retrieval_count : Z;
  lm_enhanced_query : pystr;
  lm_has_sources : bool;
  lm_search_error : option pystr;
  lm_is_related : bool;
  lm_llm_says_cant_answer : bool
}.

(** What the process does to the outside, in program order. *)
Inductive event `{PyFloat} :=
| EvCreateItem (session_id : pystr)
| EvUpsertItem (session_id : pystr)
| EvEmbeddingsCreate (texts : list pystr)
| EvIndexSearch (query : pystr) (top_k : Z)
| EvSleep (attempt : nat)
| EvChatCompletion (messages : list chat_message)
| EvLogUnanswered (question session_id reason : pystr) (metadata : log_metadata).

(** The mutable surroundings of a request: the messages container of the
    storage service ([None] when Cosmos DB is not configured), a counter
    of the clock and uuid readings made so far, and the effects so far. *)
Record world `{PyFloat} := {
  container : option (gmap pystr session_doc);
  tick : nat;
  trace : list event
}.

(** The collaborators behind the process boundary.  A call that raises
    yields [inl (str e)]. *)
Class Services `{PyFloat} := {
  uuid4 : nat -> pystr;
  utcnow_isoformat : nat -> pystr;
  (** [client.embeddings.create(input=texts)], per attempt *)
  embeddings_create : list pystr -> nat -> pystr + list (list float);
  (** [client.search(search_text, vector_queries, top, select)] and the
      iteration over its results *)
  index_search : pystr -> list float -> Z -> pystr + list search_doc;
  (** [client.chat.completions.create(...)] followed by
      [response.choices[0].message.content], per attempt *)
  chat_completions_create : list chat_message -> nat -> pystr + pystr;
  (** [re.sub(pattern, repl, s, flags=re.IGNORECASE if ignorecase)] *)
  re_sub : pystr -> pystr -> bool -> pystr -> pystr;
  MAX_TOKENS_CONTEXT : Z;
  RETRIEVAL_TOP_K : Z
}.

(** Collaborators for examples: the embedding service and the index
    answer at once, the index holds one article, the model answers that it
    found nothing, and [re.sub] is the identity, which is what it does on
    a text in which no pattern matches. *)
Definition sample_article : @search_doc rational_float :=
  @Build_search_doc rational_float
    (Some (u "dm-1"))
    (Some (u "مجلة الدوحة"))
    (Some (u "https://www.dohamagazine.qa/1"))
    (Some (u "ملخص"))
    (Some (u "مقال عن الشعر العربي الحديث"))
    (Some (Qmake 9 10)).

Definition sample_services : @Services rational_float :=
  @Build_Services rational_float
    (fun n => u "uuid-" ++ str_of_nat n)
    (fun n => u "t" ++ str_of_nat n)
    (fun texts _ => inr (map (fun _ => [Qmake 1 1]) texts))
    (fun _ _ _ => inr [sample_article])
    (fun _ _ => inr (u "لا يوجد"))
    (fun _ _ _ s => s)
    1200 8.

(** The same collaborators with an embedding service that raises an
    exception whose [str] is empty, as [TimeoutError()] does. *)
Definition failing_search_services : @Services rational_float :=
  @Build_Services rational_float
    (fun n => u "uuid-" ++ str_of_nat n)
    (fun n => u "t" ++ str_of_nat n)
    (fun _ _ => inl [])
    (fun _ _ _ => inr [sample_article])
    (fun _ _ => inr (u "لا يوجد"))
    (fun _ _ _ s => s)
    1200 8.

(** A process whose store is available and empty. *)
Definition fresh_world : @world rational_float :=
  @Build_world rational_float (Some ∅) 0 [].

(** A process whose store is not configured. *)
Definition offline_world : @world rational_float :=
  @Build_world rational_float None 0 [].

(** A stored session of one turn whose answer was rated up, with its
    statistics, and the process that holds it. *)
Definition stored_messages : list message :=
  [ <["id" := VStr (u "m-1")]>
      (<["role" := VStr (u "user")]>
         (<["text" := VStr (u "من هو المتنبي")]> ∅));
    <["feedback" := VStr (u "up")]>
      (<["id" := VStr (u "m-2")]>
         (<["role" := VStr (u "assistant")]>
            (<["text" := VStr (u "شاعر عربي")]> ∅))) ].

(** A session whose first message was stored without an [id], as no
    [save_message] writes it, with statistics that count its one
    answer, which has no rating. *)
Definition unkeyed_messages : list message :=
  [ <["role" := VStr (u "user")]> (<["text" := VStr (u "من هو المتنبي")]> ∅);
    <["id" := VStr (u "m-2")]>
      (<["role" := VStr (u "assistant")]>
         (<["text" := VStr (u "شاعر عربي")]> ∅)) ].

Definition unkeyed_world : @world rational_float :=
  @Build_world rational_float
    (Some (<[u "s-1" :=
               @Build_session_doc rational_float
                 (Some unkeyed_messages) (Some 2)
                 (Some (@Build_statistics rational_float
                          0 0 0 1 (Qmake 0 1) (Qmake 0 1)
                          (u "neutral") (u "t0")))]> ∅))
    2 [].

Definition stored_world : @world rational_float :=
  @Build_world rational_float
    (Some (<[u "s-1" :=
               @Build_session_doc rational_float
                 (Some stored_messages) (Some 2)
                 (Some (@Build_statistics rational_float
                          1 0 0 1 (Qmake 1 1) (Qmake 0 1)
                          (u "positive") (u "t0")))]> ∅))
    2 [].

Section Model.
Context `{UC : Unicode} `{FL : PyFloat} `{SV : !Services}.

(** ** State passing *)

Definition M (A : Type) : Type := world -> A * world.

Definition ret {A} (a : A) : M A := fun w => (a, w).

Definition bind {A B} (m : M A) (k : A -> M B) : M B :=
  fun w => let (a, w') := m w in k a w'.

Notation "x <~ m ;; k" := (bind m (fun x => k))
  (at level 100, m at next level, right associativity).
Notation "m ;;; k" := (bind m (fun _ => k))
  (at level 100, right associativity).

Definition emit (e : event) : M unit :=
  fun w => (tt, {| container := container w; tick := tick w;
                   trace := trace w ++ [e] |}).

Definition next_tick : M nat :=
  fun w => (tick w, {| container := container w; tick := S (tick w);
                       trace := trace w |}).

(** [str(uuid.uuid4())] *)
Definition new_uuid : M pystr := n <~ next_tick ;; ret (uuid4 n).

(** [datetime.utcnow().isoformat()] *)
Definition utcnow : M pystr := n <~ next_tick ;; ret (utcnow_isoformat n).

Definition get_container : M (option (gmap pystr session_doc)) :=
  fun w => (container w, w).

(** [container.read_item(item=session_id, partition_key=session_id)];
    [None] stands for the not-found exception. *)
Definition read_item (session_id : pystr) : M (option session_doc) :=
  fun w => (container w ≫= (fun c => c !! session_id), w).

Definition write_item (session_id : pystr) (body : session_doc) : M unit :=
  fun w => (tt, {| container := (fun c => <[session_id := body]> c) <$> container w;
                   tick := tick w; trace := trace w |}).

(** [container.upsert_item(body)] for a body whose id is [session_id] *)
Definition upsert_item (session_id : pystr) (body : session_doc) : M unit :=
  write_item session_id body ;;; emit (EvUpsertItem session_id).

(** [container.create_item(body)], reached only after [read_item] failed *)
Definition create_item (session_id : pystr) (body : session_doc) : M unit :=
  write_item session_id body ;;; emit (EvCreateItem session_id).

(** ** Session and feedback store ([app/services/storage.py]) *)

Definition is_role (role : pystr) (s : string) : bool := pystr_eqb role (u s).

(** [StorageService.update_feedback_statistics]: the counting loop.  The
    accumulator is [(positive_count, negative_count, null_count,
    total_assistant_messages)]. *)
Definition update_count_step (acc : Z * Z * Z * Z) (msg : message)
  : Z * Z * Z * Z :=
  let '(positive_count, negative_count, null_count, total) := acc in
  if value_eq_str (msg_get msg "role") (u "assistant") then
    let total := total + 1 in
    let feedback := msg_get msg "feedback" in
    let has_feedback_field := msg_has msg "feedback" in
    if value_eq_str feedback (u "up") then
      (positive_count + 1, negative_count, null_count, total)
    else if value_eq_str feedback (u "down") then
      (positive_count, negative_count + 1, null_count, total)
    else if value_is_none feedback && has_feedback_field then
      (positive_count, negative_count, null_count + 1, total)
    else if negb has_feedback_field then
      (positive_count, negative_count, null_count, total)
    else
      (positive_count, negative_count, null_count + 1, total)
  else acc.

Definition update_count (messages : list message) : Z * Z * Z * Z :=
  fold_left update_count_step messages (0, 0, 0, 0).

Definition update_feedback_statistics (session_id : pystr)
  : M (option statistics) :=
  c <~ get_container ;;
  match c with
  | None => ret None
  | Some _ =>
    session_doc <~ read_item session_id ;;
    match session_doc with
    | None => ret None
    | Some session_doc =>
      let messages := default [] (doc_messages session_doc) in
      let '(positive_count, negative_count, null_count,
            total_assistant_messages) := update_count messages in
      let overall_feedback :=
        if 0 <? total_assistant_messages then
          let positive_ratio :=
            int_truediv positive_count total_assistant_messages in
          let negative_ratio :=
            int_truediv negative_count total_assistant_messages in
          if fgt positive_ratio negative_ratio && fgt positive_ratio f_0_3
          then u "positive"
          else if fgt negative_ratio positive_ratio
                  && fgt negative_ratio f_0_3
          then u "negative"
          else u "neutral"
        else u "no_feedback" in
      now <~ utcnow ;;
      let statistics :=
        {| stats_positive := positive_count;
           stats_negative := negative_count;
           stats_null := null_count;
           stats_total_assistant_messages := total_assistant_messages;
           stats_positive_ratio :=
             if 0 <? total_assistant_messages
             then int_truediv positive_count total_assistant_messages
             else float_of_int 0;
           stats_negative_ratio :=
             if 0 <? total_assistant_messages
             then int_truediv negative_count total_assistant_messages
             else float_of_int 0;
           stats_overall_feedback := overall_feedback;
           stats_last_updated := now |} in
      upsert_item session_id
        {| doc_messages := doc_messages session_doc;
           doc_message_count := doc_message_count session_doc;
           doc_feedback_statistics := Some statistics |} ;;;
      ret (Some statistics)
    end
  end.

(** [StorageService.recalculate_all_statistics]: the counting loop. *)
Definition recalculate_count_step (acc : Z * Z * Z * Z) (msg : message)
  : Z * Z * Z * Z :=
  let '(positive_count, negative_count, null_count, total) := acc in
  if value_eq_str (msg_get msg "role") (u "assistant") then
    let total := total + 1 in
    let feedback := msg_get msg "feedback" in
    if value_eq_str feedback (u "up") then
      (positive_count + 1, negative_count, null_count, total)
    else if value_eq_str feedback (u "down") then
      (positive_count, negative_count + 1, null_count, total)
    else if value_is_none feedback then
      if msg_has msg "feedback" then
        (positive_count, negative_count, null_count + 1, total)
      else
        (positive_count, negative_count, null_count, total)
    else
      (positive_count, negative_count, null_count + 1, total)
  else acc.

Definition recalculate_count (messages : list message) : Z * Z * Z * Z :=
  fold_left recalculate_count_step messages (0, 0, 0, 0).

Definition recalculate_all_statistics (session_id : pystr)
  : M (option statistics) :=
  c <~ get_container ;;
  match c with
  | None => ret None
  | Some _ =>
    session_doc <~ read_item session_id ;;
    match session_doc with
    | None => ret None
    | Some session_doc =>
      let messages := default [] (doc_messages session_doc) in
      let '(positive_count, negative_count, null_count,
            total_assistant_messages) := recalculate_count messages in
      let overall_feedback :=
        if 0 <? total_assistant_messages then
          let positive_ratio :=
            int_truediv positive_count total_assistant_messages in
          let negative_ratio :=
            int_truediv negative_count total_assistant_messages in
          if fgt positive_ratio negative_ratio && fgt positive_ratio f_0_3
          then u "positive"
          else if fgt negative_ratio positive_ratio
                  && fgt negative_ratio f_0_3
          then u "negative"
          else u "neutral"
        else u "no_feedback" in
      now <~ utcnow ;;
      let statistics :=
        {| stats_positive := positive_count;
           stats_negative := negative_count;
           stats_null := null_count;
           stats_total_assistant_messages := total_assistant_messages;
           stats_positive_ratio :=
             if 0 <? total_assistant_messages
             then int_truediv positive_count total_assistant_messages
             else float_of_int 0;
           stats_negative_ratio :=
             if 0 <? total_assistant_messages
             then int_truediv negative_count total_assistant_messages
             else float_of_int 0;
           stats_overall_feedback := overall_feedback;
           stats_last_updated := now |} in
      upsert_item session_id
        {| doc_messages := doc_messages session_doc;
           doc_message_count := doc_message_count session_doc;
           doc_feedback_statistics := Some statistics |} ;;;
      ret (Some statistics)
    end
  end.

(** [StorageService.force_update_statistics] *)
Definition force_update_statistics (session_id : pystr)
  : M (option statistics) :=
  update_feedback_statistics session_id.

(** [StorageService.get_feedback_statistics]; [None] is the empty dict. *)
Definition get_feedback_statistics (session_id : pystr)
  : M (option statistics) :=
  session_doc <~ read_item session_id ;;
  ret (session_doc ≫= doc_feedback_statistics).

(** [StorageService.save_message].  The empty string is the failure
    sentinel.  The store is taken to be reliable: [read_item] raises only
    when the document is absent and a write that is reached succeeds. *)
Definition save_message (session_id role text : pystr) : M pystr :=
  c <~ get_container ;;
  match c with
  | None => ret []
  | Some _ =>
    message_id <~ new_uuid ;;
    current_time <~ utcnow ;;
    let new_message : message :=
      <["id" := VStr message_id]>
        (<["role" := VStr role]> (<["text" := VStr text]> ∅)) in
    existing_session <~ read_item session_id ;;
    match existing_session with
    | Some existing_session =>
      let messages := default [] (doc_messages existing_session)
                      ++ [new_message] in
      upsert_item session_id
        {| doc_messages := Some messages;
           doc_message_count := Some (Z.of_nat (length messages));
           doc_feedback_statistics :=
             doc_feedback_statistics existing_session |} ;;;
      (if is_role role "assistant"
       then update_feedback_statistics session_id ;;; ret tt
       else ret tt) ;;;
      ret message_id
    | None =>
      create_item session_id
        {| doc_messages := Some [new_message];
           doc_message_count := Some 1;
           doc_feedback_statistics := None |} ;;;
      ret message_id
    end
  end.

Definition as_str (v : value) : option pystr :=
  match v with VStr s => Some s | _ => None end.

(** Construction of an [app.models.Message] from a stored message, as in
    the loop body of [get_session_messages]; [None] when a subscript
    raises [KeyError] or the model rejects a field. *)
Definition to_Message (msg : message) : option Message :=
  role_v ← msg !! "role";
  let feedback_value :=
    if value_eq_str role_v (u "assistant") then msg_get msg "feedback"
    else VNone in
  id_v ← msg !! "id";
  text_v ← msg !! "text";
  id ← as_str id_v;
  role ← as_str role_v;
  text ← as_str text_v;
  guard (is_role role "user" || is_role role "assistant" = true);;
  feedback ← match feedback_value with
              | VNone => Some None
              | VStr s => if pystr_eqb s (u "up") || pystr_eqb s (u "down")
                          then Some (Some s) else None
              | _ => None
              end;
  Some {| msg_id := id; msg_role := role; msg_text := text;
          msg_feedback := feedback |}.

(** [StorageService.get_session_messages]; every exception ends in the
    empty list. *)
Definition get_session_messages (session_id : pystr) (limit : Z)
  : M (list Message) :=
  c <~ get_container ;;
  match c with
  | None => ret []
  | Some _ =>
    session_doc <~ read_item session_id ;;
    match session_doc with
    | None => ret []
    | Some session_doc =>
      let messages := default [] (doc_messages session_doc) in
      ret (default [] (mapM to_Message (slice_last limit messages)))
    end
  end.

(** Outcome of the search loop of [update_message_feedback]. *)
Inductive feedback_scan :=
| ScanUpdated (messages : list message)   (* [updated = True; break] *)
| ScanRejected                            (* [return False] inside the loop *)
| ScanExhausted.                          (* loop ended, [updated = False] *)

Fixpoint scan_messages (message_id : pystr) (feedback : value)
    (messages : list message) : feedback_scan :=
  match messages with
  | [] => ScanExhausted
  | msg :: rest =>
    let msg_id := msg_get_default msg "id" (VStr (u "no-id")) in
    let msg_role := msg_get_default msg "role" (VStr (u "unknown")) in
    if value_eq_str msg_id message_id then
      if value_eq_str msg_role (u "assistant")
      then ScanUpdated (<["feedback" := feedback]> msg :: rest)
      else ScanRejected
    else
      match scan_messages message_id feedback rest with
      | ScanUpdated rest' => ScanUpdated (msg :: rest')
      | other => other
      end
  end.

(** The verification loop of [update_message_feedback], run on the
    document read back after the upsert.  It reads [msg["id"]] by
    subscript: a message without that key raises [KeyError], which the
    enclosing handler turns into [return False].  [true]: the loop ended,
    at the message found or at the end of the list, without raising. *)
Fixpoint verification_loop (message_id : pystr)
    (verify_messages : list message) : bool :=
  match verify_messages with
  | [] => true
  | msg :: rest =>
    match msg !! "id" with
    | Some msg_id =>
      if value_eq_str msg_id message_id then true
      else verification_loop message_id rest
    | None => false
    end
  end.

(** [StorageService.update_message_feedback].  An exception after the
    upsert (a failed read-back, a [KeyError] of the verification loop)
    is caught by the handler of the inner [try], which returns
    [False]. *)
Definition update_message_feedback (session_id message_id : pystr)
    (feedback : value) : M bool :=
  c <~ get_container ;;
  match c with
  | None => ret false
  | Some _ =>
    session_doc <~ read_item session_id ;;
    match session_doc with
    | None => ret false
    | Some session_doc =>
      let messages := default [] (doc_messages session_doc) in
      match scan_messages message_id feedback messages with
      | ScanUpdated messages' =>
        upsert_item session_id
          {| doc_messages := Some messages';
             doc_message_count := doc_message_count session_doc;
             doc_feedback_statistics :=
               doc_feedback_statistics session_doc |} ;;;
        verify_doc <~ read_item session_id ;;
        match verify_doc with
        | Some verify_doc =>
          let verify_messages := default [] (doc_messages verify_doc) in
          ret (verification_loop message_id verify_messages)
        | None => ret false
        end
      | ScanRejected => ret false
      | ScanExhausted => ret false
      end
    end
  end.

(** [StorageService.save_feedback]; the empty string signals failure. *)
Definition save_feedback (session_id message_id rating : pystr) : M pystr :=
  success <~ update_message_feedback session_id message_id (VStr rating) ;;
  if success
  then statistics <~ update_feedback_statistics session_id ;; ret message_id
  else ret [].

(** ** Embeddings ([app/services/embeddings.py]) *)

Definition nl : pystr := [10%N].
Definition dq : pystr := [34%N].

(** [str(e).lower()] names a rate-limit error. *)
Definition is_rate_limit_error (e : pystr) : bool :=
  let error_msg := lower e in
  contains (u "rate limit") error_msg
  || contains (u "too many requests") error_msg.

(** The retry loop of [generate_embeddings], with [remaining] iterations
    of [for attempt in range(max_retries)] still to run.  [None]: the loop
    ran out without returning. *)
Fixpoint generate_embeddings_loop (texts : list pystr) (max_retries : Z)
    (remaining attempt : nat) : M (option (pystr + list (list float))) :=
  match remaining with
  | O => ret None
  | S remaining' =>
    emit (EvEmbeddingsCreate texts) ;;;
    match embeddings_create texts attempt with
    | inr data => ret (Some (inr data))
    | inl e =>
      if is_rate_limit_error e then
        if Z.of_nat attempt <? max_retries - 1 then
          emit (EvSleep attempt) ;;;
          generate_embeddings_loop texts max_retries remaining' (S attempt)
        else
          ret (Some (inl (u "Rate limit exceeded. Please try again later. Original error: " ++ e)))
      else ret (Some (inl e))
    end
  end.

Definition generate_embeddings (texts : list pystr) (max_retries : Z)
  : M (option (pystr + list (list float))) :=
  match texts with
  | [] => ret (Some (inr []))
  | _ => generate_embeddings_loop texts max_retries (Z.to_nat max_retries) 0
  end.

(** [generate_embedding]: [generate_embeddings([text])[0]] *)
Definition generate_embedding (text : pystr) : M (pystr + list float) :=
  r <~ generate_embeddings [text] 3 ;;
  match r with
  | Some (inr (v :: _)) => ret (inr v)
  | Some (inr []) => ret (inl (u "list index out of range"))
  | Some (inl e) => ret (inl e)
  | None => ret (inl (u "'NoneType' object is not subscriptable"))
  end.

(** ** Retrieval ([app/services/retrieval.py]) *)

(** The loop body of [hybrid_search]: one result of the index becomes one
    entry of [docs], unless [min_score] filters it out. *)
Definition hybrid_search_doc (min_score : option float) (result : search_doc)
  : list search_doc :=
  let score := default (float_of_int 0) (d_score result) in
  let skip := match min_score with
              | Some m => float_truthy m && flt score m
              | None => false
              end in
  if skip then []
  else [ {| d_id := d_id result;
            d_title := Some (default [] (d_title result));
            d_url := Some (default [] (d_url result));
            d_summary := Some (default [] (d_summary result));
            d_content := Some (default [] (d_content result));
            d_score := Some score |} ].

(** [hybrid_search]: an exception of the embedding step escapes
    ([inl (str e)]); an exception of the index query is caught and gives
    the empty list. *)
Definition hybrid_search (query : pystr) (top_k : Z)
    (min_score : option float) : M (pystr + list search_doc) :=
  query_vector <~ generate_embedding query ;;
  match query_vector with
  | inl e => ret (inl e)
  | inr query_vector =>
    emit (EvIndexSearch query top_k) ;;;
    match index_search query query_vector top_k with
    | inr results => ret (inr (flat_map (hybrid_search_doc min_score) results))
    | inl e => ret (inr [])
    end
  end.

(** [doc.get("content", doc.get("summary", ""))] *)
Definition doc_content (doc : search_doc) : pystr :=
  match d_content doc with
  | Some c => c
  | None => default [] (d_summary doc)
  end.

(** [len(content.split())] *)
Definition chunk_words (doc : search_doc) : Z :=
  Z.of_nat (length (split (doc_content doc))).

(** [f"[{i}] {title}\n{content}\nSource: {url}\n"] *)
Definition context_part (i : nat) (doc : search_doc) : pystr :=
  u "[" ++ str_of_nat i ++ u "] " ++ default (u "Unknown") (d_title doc)
  ++ nl ++ doc_content doc ++ nl ++ u "Source: " ++ default [] (d_url doc)
  ++ nl.

(** The loop of [format_context_for_llm] from ordinal [i] on with
    [token_count] words already taken; the result is what the loop adds
    to [context_parts]. *)
Fixpoint format_context_loop (max_tokens : Z) (i : nat) (token_count : Z)
    (search_results : list search_doc) : list pystr :=
  match search_results with
  | [] => []
  | doc :: rest =>
    if max_tokens <? token_count + chunk_words doc then []
    else context_part i doc
         :: format_context_loop max_tokens (S i)
              (token_count + chunk_words doc) rest
  end.

Definition format_context_for_llm (search_results : list search_doc)
    (max_tokens : Z) : pystr :=
  match search_results with
  | [] => u "No relevant information found."
  | _ => join nl (format_context_loop max_tokens 1 0 search_results)
  end.

(** ** Chat service ([app/services/chat.py]) *)

(** [basic_patterns] of [is_basic_conversation] *)
Definition basic_patterns : list pystr :=
  [u "مرحبا"; u "أهلا"; u "السلام"; u "السلام عليكم"; u "مرحبا بك";
   u "مرحبا وسهلا"; u "أهلا وسهلا"; u "مرحبا بك"; u "أهلا بك";
   u "صباح الخير"; u "مساء الخير"; u "مساء النور"; u "كيف حالك";
   u "كيف أنت"; u "كيف الحال"; u "أخبارك"; u "كيفك"; u "كيف حالك";
   u "كيف أنت"; u "كيف الحال"; u "أخبارك إيه"; u "أخبارك كيف";
   u "أخبارك شلون"; u "ماذا تفعل"; u "ما عملك"; u "ما الذي تفعله";
   u "شو تعمل"; u "شو تسوي"; u "شو عم تعمل"; u "إيش تعمل"; u "إيش تسوي";
   u "إيش عم تعمل"; u "شكرا"; u "شكرا لك"; u "متشكر"; u "متشكرة";
   u "شكرا جزيلا"; u "شكرا كثير"; u "شكرا كتير"; u "الله يعطيك العافية";
   u "الله يبارك فيك"; u "من أنت"; u "ما اسمك"; u "من تكون"; u "شو اسمك";
   u "إيش اسمك"; u "شو انت"; u "من انت"; u "إيش انت"; u "شو هويتك";
   u "ماذا تعرف"; u "ماذا تفهم"; u "ما قدراتك"; u "شو تعرف"; u "إيش تعرف";
   u "شو تقدر"; u "إيش تقدر"; u "شو تعرف تعمل"; u "إيش تعرف تعمل"].

(** [article_patterns] of [is_general_article_question] *)
Definition article_patterns : list pystr :=
  [u "أحدث المقالات"; u "أحدث"; u "جديد"; u "حديث"; u "مؤخر"; u "مقالات";
   u "مقال"; u "مقالة"; u "مقالات جديدة"; u "ما هي"; u "ما هو";
   u "أخبرني عن"; u "أريد معرفة"; u "أحدث الأخبار"; u "أخبار";
   u "أخبار جديدة"; u "محتوى"; u "محتوى جديد"; u "محتوى حديث"].

(** [diacritics] of [normalize_query] *)
Definition diacritics : list pystr :=
  [u "َ"; u "ً"; u "ُ"; u "ٌ"; u "ِ"; u "ٍ"; u "ْ"; u "ّ"].

(** [reference_words] of [enhance_query_with_context] *)
Definition reference_words : list pystr :=
  [u "he"; u "she"; u "it"; u "they"; u "that"; u "this"; u "those"; u "هو";
   u "هي"; u "هذا"; u "هذه"; u "ذلك"; u "تلك"; u "نفس"; u "same"; u "also";
   u "too"; u "more"; u "other"].

(** [doha_terms] of [is_doha_magazine_related] *)
Definition doha_terms : list pystr :=
  [u "دوحة"; u "doha"; u "مجلة"; u "magazine"; u "مجلة الدوحة";
   u "doha magazine"; u "ثقافي"; u "cultural"; u "أدبي"; u "literary";
   u "ثقافة"; u "culture"; u "أدب"; u "literature"].

(** [article_terms] of [is_doha_magazine_related] *)
Definition article_terms : list pystr :=
  [u "مقالات"; u "articles"; u "مقال"; u "article"; u "أحدث"; u "latest";
   u "جديد"; u "new"; u "حديث"; u "recent"; u "مؤخر"; u "recently";
   u "محتوى"; u "content"; u "نشر"; u "published"; u "أخبار"; u "news";
   u "موضوع"; u "topic"; u "مواضيع"; u "topics"].

(** [cultural_terms] of [is_doha_magazine_related] *)
Definition cultural_terms : list pystr :=
  [u "شعر"; u "poetry"; u "شاعر"; u "poet"; u "رواية"; u "novel"; u "قصة";
   u "story"; u "فن"; u "art"; u "فنان"; u "artist"; u "كتاب"; u "book";
   u "كاتب"; u "writer"; u "نقد"; u "criticism"; u "ناقد"; u "critic";
   u "دراسة"; u "study"; u "بحث"; u "research"].

(** [basic_conversation] of [is_doha_magazine_related] *)
Definition basic_conversation : list pystr :=
  [u "مرحبا"; u "hello"; u "أهلا"; u "hi"; u "كيف حالك"; u "how are you";
   u "ماذا تفعل"; u "what do you do"; u "من أنت"; u "who are you"].

(** [unanswered_indicators] of [generate_chat_response] *)
Definition unanswered_indicators : list pystr :=
  [u "عذراً، لا أجد معلومات"; u "لا أستطيع الإجابة"; u "لا توجد معلومات";
   u "غير متوفر"; u "لا يوجد";
   u "عذراً، لا أجد معلومات كافية في محتوى مجلة الدوحة"].

(** The [variations] literal of [enhance_query_flexibility], in source
    order. *)
Definition variations_literal : list (pystr * list pystr) :=
  [(u "مقالات",
    [u "مقال"; u "مقالة"; u "مقالات"; u "مقالات جديدة"; u "مقالات حديثة"]);
   (u "أحدث",
    [u "جديد"; u "حديث"; u "مؤخر"; u "أحدث"; u "أخير"]);
   (u "أخبار",
    [u "أخبار"; u "أخبار جديدة"; u "أخبار حديثة"; u "أخبار مؤخر"]);
   (u "ما هي",
    [u "ما هو"; u "ما"; u "أخبرني عن"; u "أريد معرفة"; u "أريد أن أعرف"]);
   (u "كيف",
    [u "كيف"; u "كيفية"; u "كيف يمكن"; u "كيف أستطيع"]);
   (u "متى",
    [u "متى"; u "في أي وقت"; u "متى كان"; u "متى حدث"]);
   (u "أين",
    [u "أين"; u "في أي مكان"; u "أين يمكن"; u "أين أجد"]);
   (u "ثقافة",
    [u "ثقافة"; u "ثقافي"; u "ثقافية"; u "ثقافات"]);
   (u "أدب",
    [u "أدب"; u "أدبي"; u "أدبية"; u "أدباء"; u "كتاب"]);
   (u "شعر",
    [u "شعر"; u "شعري"; u "شعرية"; u "شعراء"; u "قصائد"]);
   (u "فن",
    [u "فن"; u "فني"; u "فنية"; u "فنانين"; u "فنون"]);
   (u "نقد",
    [u "نقد"; u "نقدي"; u "نقدية"; u "نقاد"; u "تحليل"]);
   (u "اليوم",
    [u "اليوم"; u "هذا اليوم"; u "اليوم الحالي"]);
   (u "هذا الأسبوع",
    [u "هذا الأسبوع"; u "الأسبوع الحالي"; u "خلال الأسبوع"]);
   (u "هذا الشهر",
    [u "هذا الشهر"; u "الشهر الحالي"; u "خلال الشهر"]);
   (u "هذا العام",
    [u "هذا العام"; u "العام الحالي"; u "خلال العام"])].

(** The [dialect_mappings] literal of [add_dialect_support], entry by
    entry in source order (keys repeat). *)
Definition dialect_mappings_literal : list (pystr * pystr) :=
  [(u "شو", u "ما"); (u "إيش", u "ما"); (u "إيه", u "ما");
   (u "شلون", u "كيف"); (u "كيفك", u "كيف حالك"); (u "وين", u "أين");
   (u "متى", u "متى"); (u "ليش", u "لماذا"); (u "هيك", u "هكذا");
   (u "هون", u "هنا"); (u "هناك", u "هناك"); (u "هيك", u "هكذا");
   (u "هون", u "هنا"); (u "هناك", u "هناك"); (u "كتير", u "كثير");
   (u "شوي", u "قليلاً"); (u "مش", u "ليس"); (u "مش كده", u "ليس هكذا");
   (u "عندك", u "لديك"); (u "عندي", u "لدي"); (u "عنده", u "لديه");
   (u "عندها", u "لديها"); (u "عندنا", u "لدينا"); (u "عندكم", u "لديكم");
   (u "عندهم", u "لديهم"); (u "وش", u "ما"); (u "إيش", u "ما");
   (u "شلون", u "كيف"); (u "وين", u "أين"); (u "متى", u "متى");
   (u "ليش", u "لماذا"); (u "هيك", u "هكذا"); (u "هون", u "هنا");
   (u "هناك", u "هناك"); (u "زين", u "جيد"); (u "حلو", u "جميل");
   (u "طيب", u "جيد"); (u "ماشي", u "ممتاز"); (u "عندك", u "لديك");
   (u "عندي", u "لدي"); (u "عنده", u "لديه"); (u "عندها", u "لديها");
   (u "عندنا", u "لدينا"); (u "عندكم", u "لديكم"); (u "عندهم", u "لديهم");
   (u "إيه", u "ما"); (u "إيش", u "ما"); (u "إزاي", u "كيف");
   (u "فين", u "أين"); (u "إمتى", u "متى"); (u "ليه", u "لماذا");
   (u "كده", u "هكذا"); (u "هنا", u "هنا"); (u "هناك", u "هناك");
   (u "عندك", u "لديك"); (u "عندي", u "لدي"); (u "عنده", u "لديه");
   (u "عندها", u "لديها"); (u "عندنا", u "لدينا"); (u "عندكم", u "لديكم");
   (u "عندهم", u "لديهم"); (u "اش", u "ما"); (u "كيفاش", u "كيف");
   (u "فين", u "أين"); (u "متى", u "متى"); (u "علاش", u "لماذا");
   (u "هكا", u "هكذا"); (u "هنا", u "هنا"); (u "هناك", u "هناك");
   (u "عندك", u "لديك"); (u "عندي", u "لدي"); (u "عنده", u "لديه");
   (u "عندها", u "لديها"); (u "عندنا", u "لدينا"); (u "عندكم", u "لديكم");
   (u "عندهم", u "لديهم"); (u "شو", u "ما"); (u "إيش", u "ما");
   (u "شلون", u "كيف"); (u "وين", u "أين"); (u "متى", u "متى");
   (u "ليش", u "لماذا"); (u "هيك", u "هكذا"); (u "هون", u "هنا");
   (u "هناك", u "هناك"); (u "عندك", u "لديك"); (u "عندي", u "لدي");
   (u "عنده", u "لديه"); (u "عندها", u "لديها"); (u "عندنا", u "لدينا");
   (u "عندكم", u "لديكم"); (u "عندهم", u "لديهم"); (u "كتير", u "كثير");
   (u "شوي", u "قليلاً"); (u "مش", u "ليس"); (u "مش كده", u "ليس هكذا");
   (u "زين", u "جيد"); (u "حلو", u "جميل"); (u "طيب", u "جيد");
   (u "ماشي", u "ممتاز"); (u "عندك", u "لديك"); (u "عندي", u "لدي");
   (u "عنده", u "لديه"); (u "عندها", u "لديها"); (u "عندنا", u "لدينا");
   (u "عندكم", u "لديكم"); (u "عندهم", u "لديهم")].

(** The [replacements] literal of [normalize_query]. *)
Definition replacements_literal : list (pystr * pystr) :=
  [(u "أ", u "ا"); (u "إ", u "ا"); (u "آ", u "ا"); (u "ة", u "ه");
   (u "ي", u "ى")].

(** the redirect answer for a message that is not in Arabic *)
Definition english_response : pystr :=
  u "أهلاً وسهلاً! أنا مساعد متخصص في محتوى مجلة الدوحة. أتحدث العربية فقط، يرجى الكتابة باللغة العربية للاستفادة من خدماتي بشكل أفضل. شكراً لك!".

(** the decline answer *)
Definition decline_message : pystr :=
  u "عذراً، أنا مساعد متخصص في محتوى مجلة الدوحة فقط. لا أستطيع الإجابة على أسئلة خارج نطاق المحتوى المتاح في المجلة.".

(** the answer after the last rate-limited attempt *)
Definition rate_limit_answer : pystr :=
  (u "عذراً، تم تجاوز الحد المسموح من الطلبات. يرجى المحاولة مرة أخرى بعد قليل." ++ nl ++ nl ++ u "Sorry, rate limit exceeded. Please try again in a few moments.").

(** the answer after any other generation error *)
Definition llm_error_answer : pystr :=
  (u "عذراً، حدث خطأ في معالجة طلبك. الرجاء المحاولة مرة أخرى." ++ nl ++ nl ++ u "Sorry, an error occurred while processing your request. Please try again.").

(** The text of [SYSTEM_PROMPT] in front of [{conversation_history}],
    line by line. *)
Definition SYSTEM_PROMPT_RULES : list pystr :=
  [u "أنت مساعد ذكي لمجلة الدوحة، مجلة ثقافية عربية متخصصة. لديك قدرة عالية على فهم السياق والحفاظ على استمرارية المحادثة.";
   [];
   u "قواعد صارمة:";
   u "1. احتفظ بسياق المحادثة السابقة - لا تطلب من المستخدم تكرار المعلومات";
   (u "2. إذا أشار المستخدم إلى شيء ذكره سابقاً (" ++ dq ++ u "نفس الكاتب" ++ dq ++ u "، " ++ dq ++ u "المقالة تلك" ++ dq ++ u "، " ++ dq ++ u "كما قلت" ++ dq ++ u ")، استخدم سجل المحادثة لفهم المقصود");
   u "3. أجب بناءً على المعلومات المتوفرة في السياق والوثائق المسترجعة فقط";
   (u "4. إذا لم تجد إجابة في محتوى مجلة الدوحة، قل بصراحة: " ++ dq ++ u "عذراً، لا أجد معلومات كافية في محتوى مجلة الدوحة للإجابة على هذا السؤال" ++ dq);
   u "5. أجب باللغة العربية فقط - لا تستخدم أي لغة أخرى";
   u "6. لا تذكر المصادر أو الروابط في إجابتك - أجب فقط بالمحتوى دون الإشارة إلى المصادر";
   u "7. إذا طرح المستخدم سؤالاً متابعاً، فهم العلاقة بالأسئلة السابقة";
   u "8. لا تجيب على أسئلة خارج نطاق محتوى مجلة الدوحة - ركز فقط على المقالات والمحتوى المتاح";
   u "9. إذا كتب المستخدم بالإنجليزية، أجب بالعربية واطلب منه الكتابة بالعربية";
   u "10. كن متخصصاً في الثقافة والأدب العربي فقط";
   (u "11. يمكنك الرد على التحيات البسيطة مثل " ++ dq ++ u "مرحبا" ++ dq ++ u "، " ++ dq ++ u "كيف حالك" ++ dq ++ u "، " ++ dq ++ u "ماذا تفعل" ++ dq ++ u " بطريقة ودية ومهنية");
   u "12. لا تستخدم أي ردود جاهزة - كل إجابة يجب أن تأتي من معرفتك ومحتوى مجلة الدوحة";
   u "13. عند الرد على التحيات، اربط إجابتك بمجلة الدوحة وثقافتها";
   u "14. إذا سأل عن قدراتك، اشرح أنك متخصص في محتوى مجلة الدوحة الثقافية والأدبية";
   u "15. كن ودياً ومهنياً في جميع ردودك مع الحفاظ على التخصص في مجلة الدوحة";
   [];
   u "قدرات الفهم المرن:";
   u "16. فهم الأسئلة حتى لو لم تكن مكتوبة بدقة - استخدم السياق لفهم المقصود";
   u "17. تعرف على المرادفات والكلمات المختلفة لنفس المعنى (مثل: مقالات = مقالات جديدة = محتوى حديث)";
   u "18. فهم الأسئلة المختصرة أو غير المكتملة - استخدم السياق لتفسيرها";
   u "19. تعرف على الأخطاء الإملائية البسيطة وفهم المقصود";
   u "20. فهم الأسئلة التي تستخدم كلمات مختلفة لنفس المعنى (مثل: جديد = حديث = مؤخر)";
   u "21. كن متسامحاً مع الاختلافات في الكتابة - ركز على المعنى وليس الكلمات الدقيقة";
   [];
   u "دعم اللهجات العربية:";
   u "22. فهم اللهجات العربية المختلفة (شامي، خليجي، مصري، مغربي، عراقي)";
   u "23. تعرف على الكلمات العامية وترجمتها للفصحى (مثل: شو = ما، إيش = ما، إيه = ما)";
   (u "24. فهم الأسئلة باللهجة المحلية والرد بالفصحى (مثل: " ++ dq ++ u "شو أحدث المقالات؟" ++ dq ++ u " = " ++ dq ++ u "ما هي أحدث المقالات؟" ++ dq ++ u ")");
   u "25. كن متسامحاً مع الاختلافات اللهجية - ركز على المعنى وليس الكلمات الدقيقة";
   u "26. تعرف على الكلمات المشتركة بين اللهجات (مثل: عندك، عندي، عندهم)";
   [];
   []].

(** [SYSTEM_PROMPT.format(conversation_history=..., context=...,
    question=...)] *)
Definition SYSTEM_PROMPT (conversation_history context question : pystr)
  : pystr :=
  join nl SYSTEM_PROMPT_RULES ++ conversation_history
  ++ nl ++ nl ++ u "Retrieved Context:" ++ nl ++ context
  ++ nl ++ nl ++ u "Current Question: " ++ question
  ++ nl ++ nl ++ u "Answer:".

(** A [dict] display evaluated left to right: a repeated key keeps its
    first position and takes the last value. *)
Fixpoint dict_set {V} (k : pystr) (v : V) (d : list (pystr * V))
  : list (pystr * V) :=
  match d with
  | [] => [(k, v)]
  | (k', v') :: d' =>
    if pystr_eqb k' k then (k', v) :: d' else (k', v') :: dict_set k v d'
  end.

Definition dict_of_literal {V} (entries : list (pystr * V))
  : list (pystr * V) :=
  fold_left (fun d kv => dict_set (fst kv) (snd kv) d) entries [].

Definition is_basic_conversation (query : pystr) : bool :=
  let query_lower := strip (lower query) in
  existsb (fun pattern => contains pattern query_lower) basic_patterns.

Definition is_general_article_question (query : pystr) : bool :=
  let query_lower := strip (lower query) in
  existsb (fun pattern => contains pattern query_lower) article_patterns.

Definition enhance_query_flexibility (query : pystr) : pystr :=
  let enhanced := join (u " ") (split query) in
  fold_left
    (fun enhanced entry =>
       let '(base_word, synonyms) := entry in
       if contains base_word enhanced
       then enhanced ++ u " " ++ join (u " ") synonyms
       else enhanced)
    (dict_of_literal variations_literal) enhanced.

Definition add_dialect_support (query : pystr) : pystr :=
  fold_left
    (fun enhanced_query entry =>
       let '(dialect_word, standard_word) := entry in
       if contains dialect_word enhanced_query
       then replace dialect_word standard_word enhanced_query
            ++ u " " ++ dialect_word
       else enhanced_query)
    (dict_of_literal dialect_mappings_literal) query.

Definition normalize_query (query : pystr) : pystr :=
  let normalized := join (u " ") (split query) in
  let normalized :=
    fold_left (fun normalized diacritic => replace diacritic [] normalized)
      diacritics normalized in
  fold_left (fun normalized entry => replace (fst entry) (snd entry) normalized)
    (dict_of_literal replacements_literal) normalized.

(** [sum(1 for char in text if '\u0600' <= char <= '\u06FF')] *)
Definition arabic_chars (text : pystr) : Z :=
  Z.of_nat (length (filter (fun c => (1536 <= c)%N /\ (c <= 1791)%N) text)).

(** [len([char for char in text if char.isalpha()])] *)
Definition total_chars (text : pystr) : Z :=
  Z.of_nat (length (filter (fun c => isalpha c = true) text)).

Definition is_arabic_text (text : pystr) : bool :=
  if negb (truthy text) then false
  else if total_chars text =? 0 then false
  else fgt (int_truediv (arabic_chars text) (total_chars text)) f_0_5.

Definition is_doha_magazine_related (query : pystr)
    (retrieved_sources : list Source) : bool :=
  let query_lower := strip (lower query) in
  if 0 <? Z.of_nat (length retrieved_sources) then true
  else if existsb (fun term => contains term query_lower) doha_terms
  then true
  else if existsb (fun term => contains term query_lower) article_terms
  then true
  else if existsb (fun term => contains term query_lower) cultural_terms
  then true
  else if existsb (fun term => contains term query_lower) basic_conversation
  then true
  else false.

Definition build_conversation_history (session_id : pystr) (max_turns : Z)
  : M pystr :=
  messages <~ get_session_messages session_id (max_turns * 2) ;;
  match messages with
  | [] => ret []
  | _ =>
    let messages := rev messages in
    let history_parts :=
      u "Conversation History:"
      :: map (fun msg =>
                (if is_role (msg_role msg) "user" then u "User"
                 else u "Assistant") ++ u ": " ++ msg_text msg) messages in
    ret (join nl history_parts ++ nl)
  end.

(** An entry of the [conversation_history] argument of
    [enhance_query_with_context], a [dict] with keys [role] and [text]. *)
Record history_entry := {
  h_role : option pystr;
  h_text : option pystr
}.

Definition enhance_query_with_context (current_query : pystr)
    (conversation_history : list history_entry) : pystr :=
  if (length conversation_history <? 2)%nat then current_query
  else
    let query_lower := lower current_query in
    let has_reference :=
      existsb (fun word => contains word query_lower) reference_words in
    if has_reference || (length (split current_query) <? 5)%nat then
      let recent_context :=
        flat_map (fun msg =>
                    match h_role msg with
                    | Some r => if pystr_eqb r (u "user")
                                then [default [] (h_text msg)] else []
                    | None => []
                    end)
          (slice_last 4 conversation_history) in
      match recent_context with
      | [] => current_query
      | _ => take 500 (join (u " ") (slice_last 1 recent_context)
                       ++ u " " ++ current_query)
      end
    else current_query.

(** Post-processing of a generated answer: the five [re.sub] calls
    between two [strip]s. *)
Definition strip_citations (content : pystr) : pystr :=
  let answer := strip content in
  let answer := re_sub (u "المصدر\s*:?\s*[^\n]*") [] true answer in
  let answer := re_sub (u "Source\s*:?\s*[^\n]*") [] true answer in
  let answer := re_sub (u "https?://[^\s\n]+") [] false answer in
  let answer := re_sub (u "\[?\d+\]") [] false answer in
  let answer := re_sub (u "\n\s*\n\s*\n+") (nl ++ nl) false answer in
  strip answer.

(** Step 6, the loop [for attempt in range(max_retries)] with
    [max_retries = 3]: [retries_left] is [max_retries - 1 - attempt], so
    that [attempt < max_retries - 1] reads [retries_left > 0]. *)
Fixpoint generate_answer (messages_for_llm : list chat_message)
    (retries_left attempt : nat) : M pystr :=
  emit (EvChatCompletion messages_for_llm) ;;;
  match chat_completions_create messages_for_llm attempt with
  | inr content => ret (strip_citations content)
  | inl e =>
    if is_rate_limit_error e then
      match retries_left with
      | S retries_left' =>
        emit (EvSleep attempt) ;;;
        generate_answer messages_for_llm retries_left' (S attempt)
      | O => ret rate_limit_answer
      end
    else ret llm_error_answer
  end.

(** Step 7, the loop over [search_results[:4]]; [seen_urls] is the set of
    urls already attributed. *)
Fixpoint extract_sources (seen_urls : list pystr)
    (results : list search_doc) : list Source :=
  match results with
  | [] => []
  | result :: rest =>
    let url := default [] (d_url result) in
    if truthy url && negb (bool_decide (url ∈ seen_urls)) then
      {| src_title := default [] (d_title result);
         src_url := url;
         src_content := None;
         src_score := d_score result |}
      :: extract_sources (url :: seen_urls) rest
    else extract_sources seen_urls rest
  end.

(** [sum(r.get("score", 0) for r in search_results) / len(search_results)
    if search_results else 0] *)
Definition average_score (search_results : list search_doc) : float :=
  match search_results with
  | [] => float_of_int 0
  | _ =>
    fdiv_int
      (fold_left (fun acc r => fadd acc (default (float_of_int 0) (d_score r)))
         search_results (float_of_int 0))
      (Z.of_nat (length search_results))
  end.

(** The reason chosen for an entry of the unanswered-questions log. *)
Definition log_reason (search_error : option pystr) (has_results : bool)
    (avg_score : float) : pystr :=
  if match search_error with Some e => truthy e | None => false end
  then u "search_error"
  else if negb has_results then u "no_results"
  else if flt avg_score f_0_3 then u "low_score"
  else u "insufficient_information".

(** [generate_chat_response(message, session_id)]; the result is
    [(answer, sources, session_id, message_id)]. *)
Definition generate_chat_response (message : pystr)
    (session_id : option pystr)
  : M (pystr * list Source * pystr * pystr) :=
  (* generate or use existing session id *)
  let is_new_session :=
    match session_id with
    | None => true
    | Some s => pystr_eqb s [] || pystr_eqb (strip s) []
    end in
  session_id <~ (if is_new_session then new_uuid
                 else ret (default [] session_id)) ;;
  (* Step 1: conversation history *)
  history <~
    (if negb is_new_session then
       previous_messages <~ get_session_messages session_id 10 ;;
       conversation_history_text <~ build_conversation_history session_id 5 ;;
       ret (conversation_history_text,
            map (fun msg => {| h_role := Some (msg_role msg);
                               h_text := Some (msg_text msg) |})
              (rev previous_messages))
     else ret ([], [])) ;;
  let '(conversation_history_text, history_dicts) := history in
  (* Step 2: enhance the query with conversation context *)
  let enhanced_query :=
    if is_new_session || (length history_dicts =? 0)%nat then message
    else enhance_query_with_context message history_dicts in
  (* Step 2.5: dialect support, flexibility and normalization *)
  let normalized_query :=
    if is_new_session && (length (split enhanced_query) <=? 10)%nat
    then normalize_query enhanced_query
    else normalize_query
           (enhance_query_flexibility (add_dialect_support enhanced_query)) in
  (* Step 3: retrieval *)
  found <~ hybrid_search normalized_query RETRIEVAL_TOP_K None ;;
  let '(search_results, search_error) :=
    match found with
    | inr docs => (docs, None)
    | inl e => ([], Some e)
    end in
  (* Step 3.5: relation to the magazine *)
  let sources_for_check :=
    map (fun r => {| src_title := default [] (d_title r);
                     src_url := default [] (d_url r);
                     src_content := Some (default [] (d_content r));
                     src_score := Some (default (float_of_int 0) (d_score r)) |})
      search_results in
  let is_related := is_doha_magazine_related enhanced_query sources_for_check in
  let has_results := (0 <? length search_results)%nat in
  let avg_score := average_score search_results in
  let low_score := flt avg_score f_0_5 in
  (* Step 3.6: a message that is not in Arabic *)
  if negb (is_arabic_text message) then
    message_id <~ save_message session_id (u "assistant") english_response ;;
    ret (english_response, [], session_id, message_id)
  else
  (* Step 3.7: basic conversation, or decline *)
  let is_basic_greeting := is_basic_conversation message in
  let is_general_article := is_general_article_question message in
  if negb is_basic_greeting && (negb is_related && has_results) then
    message_id <~ save_message session_id (u "assistant") decline_message ;;
    ret (decline_message, [], session_id, message_id)
  else
  let search_results := if is_basic_greeting then [] else search_results in
  let has_results := if is_basic_greeting then false else has_results in
  let avg_score := if is_basic_greeting then float_of_int 0 else avg_score in
  let is_related := if is_basic_greeting then true else is_related in
  save_message session_id (u "user") message ;;;
  (* Step 4: context *)
  let context := format_context_for_llm search_results MAX_TOKENS_CONTEXT in
  (* Step 5: messages for the model *)
  let messages_for_llm :=
    if is_new_session then
      [ {| cm_role := u "system";
           cm_content := SYSTEM_PROMPT [] context message |};
        {| cm_role := u "user"; cm_content := message |} ]
    else
      [ {| cm_role := u "system";
           cm_content :=
             SYSTEM_PROMPT conversation_history_text context message |} ]
      ++ map (fun hist_msg =>
                {| cm_role :=
                     if pystr_eqb (default [] (h_role hist_msg)) (u "user")
                     then u "user" else u "assistant";
                   cm_content := take 500 (default [] (h_text hist_msg)) |})
           (slice_last 6 history_dicts)
      ++ [ {| cm_role := u "user"; cm_content := message |} ] in
  (* Step 6: generation with rate-limit handling *)
  answer <~ generate_answer messages_for_llm 2 0 ;;
  (* Step 7: sources *)
  let sources := extract_sources [] (take 4 search_results) in
  (* Step 8: unanswered questions *)
  let llm_says_cant_answer :=
    existsb (fun indicator => contains indicator answer)
      unanswered_indicators in
  let question_is_valid :=
    truthy message && (3 <? length (strip message))%nat
    && negb (isspace (strip message)) in
  let bot_provided_answer :=
    (0 <? length sources)%nat
    || ((50 <? length (strip answer))%nat && negb llm_says_cant_answer) in
  let should_log :=
    if is_related && negb is_basic_greeting && question_is_valid
    then llm_says_cant_answer && negb bot_provided_answer
    else false in
  (if should_log then
     emit (EvLogUnanswered message session_id
             (log_reason search_error has_results avg_score)
             {| lm_avg_score := avg_score;
                lm_retrieval_count := Z.of_nat (length search_results);
                lm_enhanced_query := enhanced_query;
                lm_has_sources := (0 <? length sources)%nat;
                lm_search_error := search_error;
                lm_is_related := is_related;
                lm_llm_says_cant_answer := llm_says_cant_answer |})
   else ret tt) ;;;
  assistant_message_id <~ save_message session_id (u "assistant") answer ;;
  ret (answer, sources, session_id, assistant_message_id).

(** ** API routes ([app/routers/chat.py]) *)

(** The outcome of a route: the body of its reply, or the status code of
    the [HTTPException] it raises.  The detail text of the exception is
    left out. *)
Inductive reply (A : Type) :=
| Reply (body : A)
| HttpError (status_code : Z).
Arguments Reply {A} body.
Arguments HttpError {A} status_code.

(** [submit_feedback]; the body is reduced to its [feedback_id].  The
    [HTTPException]s raised inside the [try] are caught by its own
    [except Exception] and raised again with the same status. *)
Definition submit_feedback (session_id message_id rating : pystr)
  : M (reply pystr) :=
  c <~ get_container ;;
  match c with
  | None => ret (HttpError 500)
  | Some _ =>
    feedback_id <~ save_feedback session_id message_id rating ;;
    if truthy feedback_id then ret (Reply feedback_id)
    else ret (HttpError 500)
  end.

(** An entry of the list [get_conversation_history] builds. *)
Record history_item := {
  hi_id : pystr;
  hi_role : pystr;
  hi_text : pystr;
  hi_feedback : option pystr;
  hi_sources : list (pystr * pystr)
}.

(** [msg.sources] for a [Message]: the model declares the fields [id],
    [role], [text] and [feedback] only, so the attribute access raises
    [AttributeError]. *)
Definition Message_sources (msg : Message) : option (list Source) := None.

(** [get_conversation_history]: an exception in the loop is turned into
    status 500 by the handler. *)
Definition get_conversation_history (session_id : pystr)
  : M (reply (list history_item)) :=
  messages <~ get_session_messages session_id 50 ;;
  match mapM (fun msg =>
                sources ← Message_sources msg;
                Some {| hi_id := msg_id msg;
                        hi_role := msg_role msg;
                        hi_text := msg_text msg;
                        hi_feedback := msg_feedback msg;
                        hi_sources :=
                          map (fun s => (src_title s, src_url s)) sources |})
          messages with
  | Some history => ret (Reply history)
  | None => ret (HttpError 500)
  end.

(** The route [get_feedback_statistics] (named apart from the method of
    the storage service it calls); the body is
    [(session_id, statistics)]. *)
Definition get_feedback_statistics_route (session_id : pystr)
  : M (reply (pystr * option statistics)) :=
  c <~ get_container ;;
  match c with
  | None => ret (HttpError 500)
  | Some _ =>
    statistics <~ get_feedback_statistics session_id ;;
    statistics <~ match statistics with
                  | Some st => ret (Some st)
                  | None => update_feedback_statistics session_id
                  end ;;
    ret (Reply (session_id, statistics))
  end.

Definition force_update_feedback_statistics (session_id : pystr)
  : M (reply (pystr * option statistics)) :=
  c <~ get_container ;;
  match c with
  | None => ret (HttpError 500)
  | Some _ =>
    statistics <~ force_update_statistics session_id ;;
    ret (Reply (session_id, statistics))
  end.

Definition recalculate_feedback_statistics (session_id : pystr)
  : M (reply (pystr * option statistics)) :=
  c <~ get_container ;;
  match c with
  | None => ret (HttpError 500)
  | Some _ =>
    statistics <~ recalculate_all_statistics session_id ;;
    ret (Reply (session_id, statistics))
  end.

(** ** Indexing ([index_dm_articles.py]) *)

(** A bound of a slice [l[a:b]] of a list of length [n]: a negative
    index counts from the end, and the result is clipped to [0 .. n]. *)
Definition slice_bound (n : nat) (i : Z) : nat :=
  if i <? 0 then Z.to_nat (Z.max 0 (i + Z.of_nat n))
  else Z.to_nat (Z.min i (Z.of_nat n)).

(** [l[a:b]] *)
Definition slice {A} (a b : Z) (l : list A) : list A :=
  let start := slice_bound (length l) a in
  let stop := slice_bound (length l) b in
  take (stop - start) (drop start l).

(** The loop [while i < len(words)] of [chunk_text], run for at most
    [fuel] iterations; [None] when they do not suffice. *)
Fixpoint chunk_loop (fuel : nat) (words : list pystr) (max_tokens step : Z)
    (i : Z) : option (list pystr) :=
  if i <? Z.of_nat (length words) then
    match fuel with
    | O => None
    | S fuel' =>
      let chunk := join (u " ") (slice i (i + max_tokens) words) in
      chunks ← chunk_loop fuel' words max_tokens step (i + step);
      Some (chunk :: chunks)
    end
  else Some [].

Definition chunk_text (fuel : nat) (text : pystr)
    (max_tokens overlap_tokens : Z) : option (list pystr) :=
  let words := split text in
  match words with
  | [] => Some []
  | _ => chunk_loop fuel words max_tokens (max_tokens - overlap_tokens) 0
  end.

(** * Vocabulary of the properties *)

(** ** Buckets of the assistant messages *)

(** The four buckets of the assistant messages of a session, read off the
    stored fields. *)
Definition is_assistant (msg : message) : bool :=
  bool_decide (msg !! "role" = Some (VStr (u "assistant"))).

Definition rated (rating : string) (msg : message) : bool :=
  is_assistant msg && bool_decide (msg !! "feedback" = Some (VStr (u rating))).

Definition unset (msg : message) : bool :=
  is_assistant msg
  && match msg !! "feedback" with
     | Some v => negb (bool_decide (v = VStr (u "up")))
                 && negb (bool_decide (v = VStr (u "down")))
     | None => false
     end.

Definition never_rated (msg : message) : bool :=
  is_assistant msg && bool_decide (msg !! "feedback" = None).

Fixpoint count_if (p : message -> bool) (messages : list message) : Z :=
  match messages with
  | [] => 0
  | msg :: rest => (if p msg then 1 else 0) + count_if p rest
  end.

(** ** The target of a feedback request *)

(** The id under which [update_message_feedback] reads a stored message
    equals the requested one. *)
Definition reads_id (message_id : pystr) (msg : message) : bool :=
  value_eq_str (msg_get_default msg "id" (VStr (u "no-id"))) message_id.

(** Position of the targeted message: the first one read under the
    requested id. *)
Fixpoint target_index (message_id : pystr) (messages : list message)
  : option nat :=
  match messages with
  | [] => None
  | msg :: rest =>
    if reads_id message_id msg then Some 0%nat
    else S <$> target_index message_id rest
  end.

(** The message list of a session, [None] when the store is unavailable
    or holds no document for the session. *)
Definition session_messages (w : world) (session_id : pystr)
  : option (list message) :=
  c ← container w;
  session_doc ← c !! session_id;
  Some (default [] (doc_messages session_doc)).

(** The targeted message and its position, when there is one. *)
Definition feedback_target (w : world) (session_id message_id : pystr)
  : option (nat * message) :=
  messages ← session_messages w session_id;
  i ← target_index message_id messages;
  msg ← messages !! i;
  Some (i, msg).

(** The message has the key [id]. *)
Definition carries_id (msg : message) : bool :=
  match msg !! "id" with Some _ => true | None => false end.

(** Every message up to and including position [i] has the key [id]. *)
Definition ids_through (i : nat) (messages : list message) : bool :=
  forallb carries_id (take (S i) messages).

(** The message dictionary [save_message] appends. *)
Definition new_message_dict (message_id role text : pystr) : message :=
  <["id" := VStr message_id]>
    (<["role" := VStr role]> (<["text" := VStr text]> ∅)).

(** ** Effects and results of a computation *)

Definition is_log (e : event) : bool :=
  match e with EvLogUnanswered _ _ _ _ => true | _ => false end.

Definition is_completion (e : event) : bool :=
  match e with EvChatCompletion _ => true | _ => false end.

Definition is_retrieval (e : event) : bool :=
  match e with
  | EvEmbeddingsCreate _ | EvIndexSearch _ _ => true
  | _ => false
  end.

(** The events of one kind in a trace, in program order. *)
Definition events_of (sel : event -> bool) (w : world) : list event :=
  List.filter sel (trace w).

(** A computation that adds no event of the selected kind. *)
Definition silent {A} (sel : event -> bool) (m : M A) : Prop :=
  forall w, events_of sel (snd (m w)) = events_of sel w.

(** [grows]: the computation removes no event of the kind; [adds]: it
    emits at least one. *)
Definition grows {A} (sel : event -> bool) (m : M A) : Prop :=
  forall w, (length (events_of sel w) <= length (events_of sel (snd (m w))))%nat.

Definition adds {A} (sel : event -> bool) (m : M A) : Prop :=
  forall w, (length (events_of sel w) < length (events_of sel (snd (m w))))%nat.

Definition returns {A} (P : A -> Prop) (m : M A) : Prop :=
  forall w, P (fst (m w)).

(** ** Language, context and history *)

(** The message is not predominantly Arabic: it has no alphabetic
    character, or the ratio of Arabic-block characters to alphabetic
    characters is not above one half. *)
Definition not_mostly_arabic (message : pystr) : Prop :=
  total_chars message = 0
  \/ fgt (int_truediv (arabic_chars message) (total_chars message)) f_0_5
     = false.

(** Sum of the word counts of a list of passages. *)
Definition total_words (docs : list search_doc) : Z :=
  foldr (fun doc acc => chunk_words doc + acc) 0 docs.

(** The context parts of the first [k] results, tagged [[1]], [[2]], ... *)
Definition tagged_parts (first_tag k : nat) (docs : list search_doc)
  : list pystr :=
  imap (fun j doc => context_part (first_tag + j) doc) (take k docs).

(** Referential language as the code detects it: a reference word in the
    lower-cased query, or fewer than five tokens. *)
Definition referential (current_query : pystr) : bool :=
  existsb (fun word => contains word (lower current_query)) reference_words
  || (length (split current_query) <? 5)%nat.

Definition is_user_entry (entry : history_entry) : bool :=
  match h_role entry with
  | Some r => pystr_eqb r (u "user")
  | None => false
  end.

(** The text of the last [user] entry of a list of history entries. *)
Definition last_user_utterance (entries : list history_entry)
  : option pystr :=
  (fun entry => default [] (h_text entry))
  <$> List.find is_user_entry (rev entries).

Definition user_texts (entries : list history_entry) : list pystr :=
  flat_map (fun msg =>
              match h_role msg with
              | Some r => if pystr_eqb r (u "user")
                          then [default [] (h_text msg)] else []
              | None => []
              end) entries.

(** A session of two turns whose first question is 500 characters long. *)
Definition long_history : list history_entry :=
  [ {| h_role := Some (u "user"); h_text := Some (replicate 500 97%N) |};
    {| h_role := Some (u "assistant"); h_text := Some (u "نعم") |} ].

(** A session of two turns with a short first question. *)
Definition short_history : list history_entry :=
  [ {| h_role := Some (u "user"); h_text := Some (u "من هو المتنبي") |};
    {| h_role := Some (u "assistant"); h_text := Some (u "شاعر عربي") |} ].

(** ** Invariants of the stored documents *)

(** The documents of the container; none when the store is unavailable. *)
Definition stored_docs (w : world) : gmap pystr session_doc :=
  default ∅ (container w).

(** Every stored document satisfies [P]. *)
Definition every_doc (P : session_doc -> Prop) (w : world) : Prop :=
  forall session_id doc, stored_docs w !! session_id = Some doc -> P doc.

(** A computation that keeps [P] true of every stored document. *)
Definition preserves {A} (P : session_doc -> Prop) (m : M A) : Prop :=
  forall w, every_doc P w -> every_doc P (snd (m w)).

(** A computation that leaves the container as it found it. *)
Definition reads_only {A} (m : M A) : Prop :=
  forall w, container (snd (m w)) = container w.

(** [message_count], when stored, is the length of [messages]. *)
Definition count_ok (doc : session_doc) : Prop :=
  match doc_message_count doc with
  | Some n => n = Z.of_nat (length (default [] (doc_messages doc)))
  | None => True
  end.

(** The four counts of a statistics object. *)
Definition stats_counts (st : statistics) : Z * Z * Z * Z :=
  (stats_positive st, stats_negative st, stats_null st,
   stats_total_assistant_messages st).

(** [feedback_statistics], when stored, counts the stored messages. *)
Definition stats_ok (doc : session_doc) : Prop :=
  match doc_feedback_statistics doc with
  | Some st => stats_counts st = update_count (default [] (doc_messages doc))
  | None => True
  end.

(** Every stored message is accepted by [app.models.Message]. *)
Definition messages_valid (doc : session_doc) : Prop :=
  Forall (fun msg => is_Some (to_Message msg)) (default [] (doc_messages doc)).

(** Every stored message has the key [id], as every message written by
    [save_message] has. *)
Definition ids_present (doc : session_doc) : Prop :=
  Forall (fun msg => carries_id msg = true) (default [] (doc_messages doc)).

(** At most [n] events of the selected kind are added. *)
Definition at_most {A} (sel : event -> bool) (n : nat) (m : M A) : Prop :=
  forall w,
    (length (events_of sel (snd (m w))) <= length (events_of sel w) + n)%nat.

Definition is_embedding_request (e : event) : bool :=
  match e with EvEmbeddingsCreate _ => true | _ => false end.

Definition is_index_query (e : event) : bool :=
  match e with EvIndexSearch _ _ => true | _ => false end.

Definition is_sleep (e : event) : bool :=
  match e with EvSleep _ => true | _ => false end.

(** A result of [hybrid_search] carries every field. *)
Definition doc_complete (doc : search_doc) : Prop :=
  is_Some (d_title doc) /\ is_Some (d_url doc) /\ is_Some (d_summary doc)
  /\ is_Some (d_content doc) /\ is_Some (d_score doc).

(** The characters [normalize_query] removes or folds away: the eight
    diacritics, the three hamza forms of alef, ta marbuta and ya. *)
Definition folded_chars : list N :=
  [1614; 1611; 1615; 1612; 1616; 1613; 1618; 1617;
   1571; 1573; 1570; 1577; 1610]%N.

(** The single-character replacements of [normalize_query], in the order
    in which it applies them. *)
Definition normalize_steps : list (N * pystr) :=
  [(1614, []); (1611, []); (1615, []); (1612, []); (1616, []); (1613, []);
   (1618, []); (1617, []);
   (1571, [1575]); (1573, [1575]); (1570, [1575]); (1577, [1607]);
   (1610, [1609])]%N.

Definition apply_step (s : pystr) (step : N * pystr) : pystr :=
  replace [fst step] (snd step) s.

(** No dialect word of [add_dialect_support] occurs in the query. *)
Definition no_dialect_word (query : pystr) : bool :=
  forallb (fun entry => negb (contains (fst entry) query))
    (dict_of_literal dialect_mappings_literal).

(** A write to the store: [create_item] or [upsert_item]. *)
Definition is_write (e : event) : bool :=
  match e with
  | EvCreateItem _ | EvUpsertItem _ => true
  | _ => false
  end.

(** A line of the conversation history text. *)
Definition history_line (msg : Message) : pystr :=
  (if is_role (msg_role msg) "user" then u "User" else u "Assistant")
  ++ u ": " ++ msg_text msg.

(** The windows of [chunk_text] over a list of words: window [k] is
    [words[k*step : k*step + max_tokens]], for [k] below the number of
    steps that reach the end of the list. *)
Definition chunk_windows (words : list pystr) (max_tokens step : Z)
  : list (list pystr) :=
  map (fun k : nat =>
         slice (Z.of_nat k * step) (Z.of_nat k * step + max_tokens) words)
    (seq 0 (Z.to_nat ((Z.of_nat (length words) + step - 1) / step))).

(** * Properties *)

(** ** Feedback statistics *)

Lemma pystr_eqb_spec (a b : pystr) : pystr_eqb a b = true <-> a = b.
Proof. unfold pystr_eqb. apply bool_decide_eq_true. Qed.

Lemma value_eq_str_spec (v : value) (s : pystr) :
  value_eq_str v s = bool_decide (v = VStr s).
Proof.
  destruct v as [| b | n | t]; unfold value_eq_str;
    try (symmetry; apply bool_decide_eq_false_2; discriminate).
  unfold pystr_eqb. apply bool_decide_ext. split; congruence.
Qed.

Lemma role_test_assistant (msg : message) :
  value_eq_str (msg_get msg "role") (u "assistant") = is_assistant msg.
Proof.
  rewrite value_eq_str_spec. unfold msg_get, is_assistant.
  apply bool_decide_ext. destruct (msg !! "role"); simpl; split; congruence.
Qed.

(** The two counting loops take the same step on every stored message. *)
Lemma count_steps_agree (acc : Z * Z * Z * Z) (msg : message) :
  update_count_step acc msg = recalculate_count_step acc msg.
Proof.
  destruct acc as [[[p n] z] t].
  unfold update_count_step, recalculate_count_step, msg_get, msg_has.
  destruct (value_eq_str (default VNone (msg !! "role")) (u "assistant")); [|done].
  destruct (msg !! "feedback") as [v|] eqn:Hf.
  - rewrite bool_decide_eq_true_2 by eauto. simpl default.
    destruct (value_eq_str v (u "up")); [done|].
    destruct (value_eq_str v (u "down")); [done|].
    destruct v; reflexivity.
  - rewrite bool_decide_eq_false_2 by (intros [? ?]; discriminate).
    reflexivity.
Qed.

Lemma counts_agree (messages : list message) :
  update_count messages = recalculate_count messages.
Proof.
  unfold update_count, recalculate_count.
  generalize (0, 0, 0, 0). induction messages as [|msg rest IH]; intros acc.
  - reflexivity.
  - simpl. rewrite count_steps_agree. apply IH.
Qed.

(** C1. The incremental path [update_feedback_statistics] and the
    from-scratch path [recalculate_all_statistics] count the same
    positive, negative and null feedback and the same assistant messages
    on every message list, and on every state of the store they return
    the same statistics object (counts, both ratios and the
    [overall_feedback] label) and leave the same document behind. *)
Theorem C1_statistics_paths_agree :
  (forall messages : list message,
      update_count messages = recalculate_count messages)
  /\ (forall (session_id : pystr) (w : world),
         update_feedback_statistics session_id w
         = recalculate_all_statistics session_id w).
Proof.
  split; [exact counts_agree|].
  intros session_id w.
  unfold update_feedback_statistics, recalculate_all_statistics, bind.
  destruct (get_container w) as [[c|] w1]; [|reflexivity].
  destruct (read_item session_id w1) as [[session_doc|] w2]; [|reflexivity].
  rewrite counts_agree. reflexivity.
Qed.

Lemma update_count_step_buckets (msg : message) (p n z t : Z) :
  update_count_step (p, n, z, t) msg
  = (p + (if rated "up" msg then 1 else 0),
     n + (if rated "down" msg then 1 else 0),
     z + (if unset msg then 1 else 0),
     t + (if is_assistant msg then 1 else 0)).
Proof.
  unfold update_count_step. rewrite role_test_assistant.
  unfold rated, unset, msg_get, msg_has.
  destruct (is_assistant msg); simpl andb.
  2:{ repeat f_equal; lia. }
  rewrite !value_eq_str_spec.
  destruct (msg !! "feedback") as [v|] eqn:Hf.
  - rewrite (bool_decide_eq_true_2 (is_Some (Some v))) by eauto.
    simpl default.
    destruct (decide (v = VStr (u "up"))) as [->|Hup].
    { rewrite !bool_decide_eq_true_2 by done.
      rewrite (bool_decide_eq_false_2
                 (Some (VStr (u "up")) = Some (VStr (u "down"))))
        by (intros [=]).
      simpl. repeat f_equal; lia. }
    rewrite (bool_decide_eq_false_2 (v = VStr (u "up"))) by done.
    rewrite (bool_decide_eq_false_2 (Some v = Some (VStr (u "up"))))
      by congruence.
    destruct (decide (v = VStr (u "down"))) as [->|Hdown].
    { rewrite !bool_decide_eq_true_2 by done.
      simpl. repeat f_equal; lia. }
    rewrite (bool_decide_eq_false_2 (v = VStr (u "down"))) by done.
    rewrite (bool_decide_eq_false_2 (Some v = Some (VStr (u "down"))))
      by congruence.
    simpl. destruct (value_is_none v); simpl; repeat f_equal; lia.
  - rewrite (bool_decide_eq_false_2 (is_Some None))
      by (intros [? ?]; discriminate).
    rewrite !bool_decide_eq_false_2 by discriminate.
    simpl. repeat f_equal; lia.
Qed.

Lemma update_count_from (messages : list message) (p n z t : Z) :
  fold_left update_count_step messages (p, n, z, t)
  = (p + count_if (rated "up") messages,
     n + count_if (rated "down") messages,
     z + count_if unset messages,
     t + count_if is_assistant messages).
Proof.
  revert p n z t. induction messages as [|msg rest IH]; intros p n z t.
  - simpl. repeat f_equal; lia.
  - cbn [fold_left count_if]. rewrite update_count_step_buckets, IH.
    by rewrite !Z.add_assoc.
Qed.

(** Every assistant message falls in exactly one bucket. *)
Lemma one_bucket (msg : message) :
  (if rated "up" msg then 1 else 0) + (if rated "down" msg then 1 else 0)
  + (if unset msg then 1 else 0) + (if never_rated msg then 1 else 0)
  = (if is_assistant msg then 1 else 0).
Proof.
  unfold rated, unset, never_rated.
  destruct (is_assistant msg); simpl andb; [|reflexivity].
  destruct (msg !! "feedback") as [v|].
  - rewrite (bool_decide_eq_false_2 (Some v = None)) by discriminate.
    destruct (decide (v = VStr (u "up"))) as [->|Hup].
    { rewrite !bool_decide_eq_true_2 by done.
      rewrite (bool_decide_eq_false_2
                 (Some (VStr (u "up")) = Some (VStr (u "down"))))
        by (intros [=]).
      reflexivity. }
    rewrite (bool_decide_eq_false_2 (v = VStr (u "up"))) by done.
    rewrite (bool_decide_eq_false_2 (Some v = Some (VStr (u "up"))))
      by congruence.
    destruct (decide (v = VStr (u "down"))) as [->|Hdown].
    { rewrite !bool_decide_eq_true_2 by done. reflexivity. }
    rewrite (bool_decide_eq_false_2 (v = VStr (u "down"))) by done.
    rewrite (bool_decide_eq_false_2 (Some v = Some (VStr (u "down"))))
      by congruence.
    reflexivity.
  - rewrite !bool_decide_eq_false_2 by discriminate.
    rewrite bool_decide_eq_true_2 by done. reflexivity.
Qed.

Lemma buckets_partition (messages : list message) :
  count_if (rated "up") messages + count_if (rated "down") messages
  + count_if unset messages + count_if never_rated messages
  = count_if is_assistant messages.
Proof.
  induction messages as [|msg rest IH]; [reflexivity|].
  cbn [count_if]. pose proof (one_bucket msg). lia.
Qed.

(** C2. The counts computed by [update_feedback_statistics] are the
    sizes of the buckets of the assistant messages: rated [up], rated
    [down], feedback field present but neither, and the total; together
    with the assistant messages that have no feedback field at all they
    add up to [total_assistant_messages].  The same holds of the
    statistics object the function returns and stores for a session. *)
Theorem C2_feedback_buckets_partition :
  (forall messages : list message,
      let '(positive_count, negative_count, null_count,
            total_assistant_messages) := update_count messages in
      positive_count = count_if (rated "up") messages
      /\ negative_count = count_if (rated "down") messages
      /\ null_count = count_if unset messages
      /\ total_assistant_messages = count_if is_assistant messages
      /\ positive_count + negative_count + null_count
         + count_if never_rated messages
         = total_assistant_messages)
  /\ (forall (session_id : pystr) (w : world),
         match fst (update_feedback_statistics session_id w),
               session_messages w session_id with
         | Some st, Some messages =>
           stats_positive st + stats_negative st + stats_null st
           + count_if never_rated messages
           = stats_total_assistant_messages st
         | Some _, None => False
         | None, _ => True
         end).
Proof.
  split.
  - intros messages. unfold update_count. rewrite update_count_from.
    pose proof (buckets_partition messages). repeat split; lia.
  - intros session_id w.
    unfold update_feedback_statistics, session_messages, bind, get_container,
      read_item, ret.
    destruct w as [[store|] n tr]; simpl; [|done].
    destruct (store !! session_id) as [doc|]; simpl; [|done].
    unfold update_count. rewrite update_count_from. simpl.
    pose proof (buckets_partition (default [] (doc_messages doc))). lia.
Qed.

(** ** Feedback on a message *)

Lemma role_read_assistant (msg : message) :
  value_eq_str (msg_get_default msg "role" (VStr (u "unknown"))) (u "assistant")
  = is_assistant msg.
Proof.
  rewrite value_eq_str_spec. unfold msg_get_default, is_assistant.
  apply bool_decide_ext. destruct (msg !! "role"); simpl; split; try congruence.
  intros E. vm_compute in E. discriminate.
Qed.

Lemma target_index_lookup (message_id : pystr) (messages : list message)
    (i : nat) :
  target_index message_id messages = Some i ->
  exists msg, messages !! i = Some msg /\ reads_id message_id msg = true.
Proof.
  revert i. induction messages as [|m rest IH]; intros i; simpl; [done|].
  destruct (reads_id message_id m) eqn:E.
  - intros [= <-]. eauto.
  - destruct (target_index message_id rest) as [j|]; simpl; [|done].
    intros [= <-]. destruct (IH j eq_refl) as (msg & ? & ?). eauto.
Qed.

(** The search loop, by the position of the target. *)
Lemma scan_messages_target (message_id : pystr) (feedback : value)
    (messages : list message) :
  scan_messages message_id feedback messages
  = match target_index message_id messages with
    | None => ScanExhausted
    | Some i =>
      match messages !! i with
      | Some msg =>
        if is_assistant msg
        then ScanUpdated (<[i := <["feedback" := feedback]> msg]> messages)
        else ScanRejected
      | None => ScanExhausted
      end
    end.
Proof.
  induction messages as [|m rest IH]; [reflexivity|].
  cbn [scan_messages target_index]. fold (reads_id message_id m).
  rewrite role_read_assistant.
  destruct (reads_id message_id m); [reflexivity|].
  rewrite IH. destruct (target_index message_id rest) as [i|]; simpl; [|done].
  destruct (rest !! i) as [msg|]; [|done].
  destruct (is_assistant msg); reflexivity.
Qed.

(** The verification loop, by the position of the target: it ends
    without raising exactly when every message up to the target has the
    key [id]. *)
Lemma verification_loop_target (message_id : pystr)
    (messages : list message) (i : nat) :
  target_index message_id messages = Some i ->
  verification_loop message_id messages = ids_through i messages.
Proof.
  unfold ids_through. revert i.
  induction messages as [|m rest IH]; intros i; [discriminate|].
  cbn [target_index verification_loop take forallb].
  unfold reads_id, msg_get_default. unfold carries_id at 1.
  destruct (m !! "id") as [v|]; cbn [default]; unfold id.
  - destruct (value_eq_str v message_id).
    + intros [= <-]. by rewrite take_0.
    + destruct (target_index message_id rest) as [j|]; [|discriminate].
      intros [= <-]. by rewrite (IH j eq_refl).
  - intros _. reflexivity.
Qed.

Lemma ids_through_present (messages : list message) (i : nat) :
  Forall (fun msg => carries_id msg = true) messages ->
  ids_through i messages = true.
Proof.
  intros H. unfold ids_through. generalize (S i). intros n. revert n.
  induction H as [|m l Hm Hl IH]; intros [|n]; simpl; try done.
  rewrite Hm. apply IH.
Qed.

(** Setting the feedback of a message changes no [id]. *)
Lemma verification_loop_set_feedback (message_id : pystr) (feedback : value)
    (messages : list message) (i : nat) (msg : message) :
  messages !! i = Some msg ->
  verification_loop message_id (<[i := <["feedback" := feedback]> msg]> messages)
  = verification_loop message_id messages.
Proof.
  revert i. induction messages as [|m rest IH]; intros i Hi; [done|].
  destruct i as [|i]; simpl in Hi |- *.
  - injection Hi as ->.
    by rewrite (lookup_insert_ne _ "feedback" "id").
  - by rewrite (IH i Hi).
Qed.

(** C3. [update_message_feedback] is decided by the targeted message,
    the first one read under the requested id.  With no target (store
    unavailable, no document for the session, or no message read under
    the requested id) and with a target whose role is not [assistant] it
    returns [False] and leaves the world as it was: no write, no upsert.
    With an assistant target it upserts, exactly once, the document in
    which that message, and no other, has its feedback set; it then
    returns [True] when every message up to the target carries an [id],
    and [False] when one does not (the verification loop raises
    [KeyError]).  Hence [True] is returned, and the document is written,
    only when the target is an assistant message; and on a store whose
    messages all carry an [id], as every message written by
    [save_message] does, [True] is returned for every assistant
    target. *)
Theorem C3_update_message_feedback (session_id message_id : pystr)
    (feedback : value) (w : world) :
  let '(ok, w') := update_message_feedback session_id message_id feedback w in
  match feedback_target w session_id message_id with
  | Some (i, msg) =>
    if is_assistant msg then
      ok = ids_through i (default [] (session_messages w session_id))
      /\ session_messages w' session_id
         = (fun messages => <[i := <["feedback" := feedback]> msg]> messages)
           <$> session_messages w session_id
      /\ trace w' = trace w ++ [EvUpsertItem session_id]
    else ok = false /\ w' = w
  | None => ok = false /\ w' = w
  end
  /\ ((ok = true \/ w' <> w) ->
      exists i msg,
        feedback_target w session_id message_id = Some (i, msg)
        /\ is_assistant msg = true)
  /\ (every_doc ids_present w ->
      (exists i msg,
          feedback_target w session_id message_id = Some (i, msg)
          /\ is_assistant msg = true) ->
      ok = true).
Proof.
  unfold update_message_feedback, feedback_target, session_messages,
    bind, get_container, read_item, ret.
  destruct w as [[store|] n tr]; simpl.
  2: { split; [done|]. split; [by intros [|]|].
       by intros _ (i & msg & ? & _). }
  destruct (store !! session_id) as [doc|] eqn:Hdoc; simpl.
  2: { split; [done|]. split; [by intros [|]|].
       by intros _ (i & msg & ? & _). }
  rewrite scan_messages_target.
  destruct (target_index message_id (default [] (doc_messages doc)))
    as [i|] eqn:Hi; simpl.
  2: { split; [done|]. split; [by intros [|]|].
       by intros _ (j & msg & ? & _). }
  destruct (target_index_lookup _ _ _ Hi) as (msg & Hmsg & _).
  rewrite Hmsg. simpl.
  destruct (is_assistant msg) eqn:Hassistant.
  2: { split; [done|]. split; [by intros [|]|].
       intros _ (j & other & [= <- <-] & Hother). congruence. }
  simpl. rewrite lookup_insert_eq. simpl.
  rewrite (verification_loop_set_feedback _ _ _ _ _ Hmsg).
  rewrite (verification_loop_target _ _ _ Hi).
  split; [|split; [intros _; eauto|]].
  - split; [reflexivity|]. split; [|reflexivity].
    by rewrite lookup_insert_eq.
  - intros Hids _. apply ids_through_present.
    apply (Hids session_id doc). unfold stored_docs. simpl. exact Hdoc.
Qed.

(** ** Saving and reading back *)

Lemma slice_last_1_snoc {A} (l : list A) (x : A) :
  slice_last 1 (l ++ [x]) = [x].
Proof.
  unfold slice_last. simpl. rewrite length_app. simpl.
  replace (length l + 1 - Z.to_nat 1)%nat with (length l) by lia.
  by rewrite drop_app_length.
Qed.

Lemma to_Message_new (message_id role text : pystr) :
  role = u "user" \/ role = u "assistant" ->
  to_Message (new_message_dict message_id role text)
  = Some {| msg_id := message_id; msg_role := role; msg_text := text;
            msg_feedback := None |}.
Proof.
  intros Hrole. unfold to_Message, new_message_dict, msg_get.
  rewrite lookup_insert_eq.
  rewrite (lookup_insert_ne _ "id" "role") by done.
  rewrite lookup_insert_eq.
  rewrite (lookup_insert_ne _ "id" "text"), (lookup_insert_ne _ "role" "text")
    by done.
  rewrite lookup_insert_eq.
  rewrite (lookup_insert_ne _ "id" "feedback"),
    (lookup_insert_ne _ "role" "feedback"),
    (lookup_insert_ne _ "text" "feedback") by done.
  rewrite lookup_empty. simpl.
  destruct Hrole as [-> | ->]; reflexivity.
Qed.

(** Reading a session right after its document was written with a
    message list that ends in the new message. *)
Lemma get_last_after_write (session_id message_id role text : pystr)
    (store : gmap pystr session_doc) (older : list message)
    (count : option Z) (stats : option statistics) (n : nat)
    (tr : list event) :
  role = u "user" \/ role = u "assistant" ->
  store !! session_id
  = Some {| doc_messages :=
              Some (older ++ [new_message_dict message_id role text]);
            doc_message_count := count;
            doc_feedback_statistics := stats |} ->
  fst (get_session_messages session_id 1
         {| container := Some store; tick := n; trace := tr |})
  = [ {| msg_id := message_id; msg_role := role; msg_text := text;
         msg_feedback := None |} ].
Proof.
  intros Hrole Hdoc.
  unfold get_session_messages, bind, get_container, read_item, ret. simpl.
  rewrite Hdoc. simpl. rewrite slice_last_1_snoc. simpl.
  rewrite to_Message_new by done. reflexivity.
Qed.

(** C10. With the store available and a role of the data model,
    [save_message] followed at once by [get_session_messages] with
    [limit=1] returns exactly one message: the id [save_message]
    returned, the role and the text just given, and no feedback. *)
Theorem C10_save_then_get_last (session_id role text : pystr) (w : world) :
  is_Some (container w) ->
  role = u "user" \/ role = u "assistant" ->
  let '(message_id, w1) := save_message session_id role text w in
  fst (get_session_messages session_id 1 w1)
  = [ {| msg_id := message_id; msg_role := role; msg_text := text;
         msg_feedback := None |} ].
Proof.
  intros [store Hstore] Hrole. destruct w as [c n tr]. simpl in Hstore.
  subst c.
  unfold save_message, bind, get_container, new_uuid, utcnow, next_tick,
    read_item, upsert_item, create_item, write_item, emit, ret. simpl.
  fold (new_message_dict (uuid4 n) role text).
  destruct (store !! session_id) as [doc|] eqn:Hdoc; simpl.
  - destruct (is_role role "assistant") eqn:Hassistant.
    + unfold update_feedback_statistics, bind, get_container, read_item,
        utcnow, next_tick, upsert_item, write_item, emit, ret. simpl.
      rewrite lookup_insert_eq. simpl.
      destruct (update_count _) as [[[p q] z] t]. simpl.
      eapply get_last_after_write; [done|].
      rewrite lookup_insert_eq. reflexivity.
    + simpl. eapply get_last_after_write; [done|].
      rewrite lookup_insert_eq. reflexivity.
  - eapply (get_last_after_write _ _ _ _ _ []); [done|].
    rewrite lookup_insert_eq. reflexivity.
Qed.

(** ** Effects of a computation *)

Section Silent.
Variable sel : event -> bool.
Hypothesis sel_create : forall s, sel (EvCreateItem s) = false.
Hypothesis sel_upsert : forall s, sel (EvUpsertItem s) = false.

Lemma silent_ret {A} (a : A) : silent sel (ret a).
Proof. intros w. reflexivity. Qed.

Lemma silent_bind {A B} (m : M A) (k : A -> M B) :
  silent sel m -> (forall a, silent sel (k a)) -> silent sel (bind m k).
Proof.
  intros Hm Hk w. unfold bind. specialize (Hm w).
  destruct (m w) as [a w']. simpl in Hm. rewrite Hk. exact Hm.
Qed.

Lemma silent_emit (e : event) : sel e = false -> silent sel (emit e).
Proof.
  intros He w. unfold events_of, emit. simpl.
  rewrite List.filter_app. simpl. rewrite He. apply app_nil_r.
Qed.

Lemma silent_next_tick : silent sel next_tick.
Proof. intros w. reflexivity. Qed.

Lemma silent_get_container : silent sel get_container.
Proof. intros w. reflexivity. Qed.

Lemma silent_read_item (s : pystr) : silent sel (read_item s).
Proof. intros w. reflexivity. Qed.

Lemma silent_write_item (s : pystr) (body : session_doc) :
  silent sel (write_item s body).
Proof. intros w. reflexivity. Qed.

Ltac silent_step :=
  first
    [ apply silent_ret
    | apply silent_next_tick
    | apply silent_get_container
    | apply silent_read_item
    | apply silent_write_item
    | apply silent_emit; first [apply sel_create | apply sel_upsert | reflexivity | assumption]
    | apply silent_bind; [| intros ?]
    | match goal with
      | |- silent _ (match ?x with _ => _ end) => destruct x
      | |- silent _ (let '(_, _) := ?x in _) => destruct x
      end ].

Lemma silent_new_uuid : silent sel new_uuid.
Proof. unfold new_uuid. repeat silent_step. Qed.

Lemma silent_utcnow : silent sel utcnow.
Proof. unfold utcnow. repeat silent_step. Qed.

Lemma silent_upsert_item (s : pystr) (body : session_doc) :
  silent sel (upsert_item s body).
Proof. unfold upsert_item. repeat silent_step. Qed.

Lemma silent_create_item (s : pystr) (body : session_doc) :
  silent sel (create_item s body).
Proof. unfold create_item. repeat silent_step. Qed.

Lemma silent_update_feedback_statistics (s : pystr) :
  silent sel (update_feedback_statistics s).
Proof.
  unfold update_feedback_statistics.
  repeat first [apply silent_utcnow | apply silent_upsert_item | silent_step].
Qed.

Lemma silent_save_message (s role text : pystr) :
  silent sel (save_message s role text).
Proof.
  unfold save_message.
  repeat first [apply silent_utcnow | apply silent_new_uuid
               | apply silent_upsert_item | apply silent_create_item
               | apply silent_update_feedback_statistics | silent_step].
Qed.

Lemma silent_get_session_messages (s : pystr) (limit : Z) :
  silent sel (get_session_messages s limit).
Proof. unfold get_session_messages. repeat silent_step. Qed.

Lemma silent_build_conversation_history (s : pystr) (max_turns : Z) :
  silent sel (build_conversation_history s max_turns).
Proof.
  unfold build_conversation_history.
  repeat first [apply silent_get_session_messages | silent_step].
Qed.

End Silent.

Section SilentPipeline.
Variable sel : event -> bool.
Hypothesis sel_create : forall s, sel (EvCreateItem s) = false.
Hypothesis sel_upsert : forall s, sel (EvUpsertItem s) = false.
Hypothesis sel_embed : forall t, sel (EvEmbeddingsCreate t) = false.
Hypothesis sel_search : forall q k, sel (EvIndexSearch q k) = false.
Hypothesis sel_sleep : forall n, sel (EvSleep n) = false.

Lemma silent_generate_embeddings_loop (texts : list pystr) (max_retries : Z)
    (remaining attempt : nat) :
  silent sel (generate_embeddings_loop texts max_retries remaining attempt).
Proof.
  revert attempt. induction remaining as [|r IH]; intros attempt; simpl.
  - apply silent_ret.
  - apply silent_bind; [by apply silent_emit|]. intros _.
    destruct (embeddings_create texts attempt); [|apply silent_ret].
    destruct (is_rate_limit_error _); [|apply silent_ret].
    destruct (_ <? _); [|apply silent_ret].
    apply silent_bind; [by apply silent_emit|]. intros _. apply IH.
Qed.

Lemma silent_generate_embedding (text : pystr) :
  silent sel (generate_embedding text).
Proof.
  unfold generate_embedding, generate_embeddings.
  apply silent_bind; [apply silent_generate_embeddings_loop|].
  intros [[e|[|v data]]|]; apply silent_ret.
Qed.

Lemma silent_hybrid_search (query : pystr) (top_k : Z)
    (min_score : option float) :
  silent sel (hybrid_search query top_k min_score).
Proof.
  unfold hybrid_search.
  apply silent_bind; [apply silent_generate_embedding|].
  intros [e|v]; [apply silent_ret|].
  apply silent_bind; [by apply silent_emit|]. intros _.
  destruct (index_search _ _ _); apply silent_ret.
Qed.

End SilentPipeline.

Section SilentGeneration.
Variable sel : event -> bool.
Hypothesis sel_completion : forall m, sel (EvChatCompletion m) = false.
Hypothesis sel_sleep : forall n, sel (EvSleep n) = false.

Lemma silent_generate_answer (messages_for_llm : list chat_message)
    (retries_left attempt : nat) :
  silent sel (generate_answer messages_for_llm retries_left attempt).
Proof.
  revert attempt. induction retries_left as [|r IH]; intros attempt; simpl.
  - apply silent_bind; [by apply silent_emit|]. intros _.
    destruct (chat_completions_create _ _); [|apply silent_ret].
    destruct (is_rate_limit_error _); apply silent_ret.
  - apply silent_bind; [by apply silent_emit|]. intros _.
    destruct (chat_completions_create _ _); [|apply silent_ret].
    destruct (is_rate_limit_error _); [|apply silent_ret].
    apply silent_bind; [by apply silent_emit|]. intros _. apply IH.
Qed.

End SilentGeneration.

(** Discharges [silent sel m] for a computation built from the
    operations above. *)
Ltac quiet :=
  repeat first
    [ apply silent_ret
    | apply silent_new_uuid
    | apply silent_save_message; intros; reflexivity
    | apply silent_get_session_messages
    | apply silent_build_conversation_history
    | apply silent_hybrid_search; intros; reflexivity
    | apply silent_generate_answer; intros; reflexivity
    | apply silent_emit; reflexivity
    | apply silent_bind; [| intros ?]
    | match goal with
      | |- silent _ (if ?b then _ else _) => destruct b eqn:?
      | |- silent _ (match ?x with _ => _ end) => destruct x eqn:?
      end ].

(** ** Greetings are never logged *)

(** C9. When the message matches the greeting patterns
    ([is_basic_conversation]), a run of [generate_chat_response] adds no
    entry to the unanswered-questions log, whatever the session, the
    store, the retrieval outcome and the generated answer are. *)
Theorem C9_greeting_never_logged (message : pystr)
    (session_id : option pystr) (w : world) :
  is_basic_conversation message = true ->
  events_of is_log (snd (generate_chat_response message session_id w))
  = events_of is_log w.
Proof.
  intros Hgreeting. revert w. change (silent is_log (generate_chat_response message session_id)).
  unfold generate_chat_response. rewrite Hgreeting. cbn [negb andb].
  quiet.
Qed.

(** ** Counting events *)

Lemma silent_grows {A} sel (m : M A) : silent sel m -> grows sel m.
Proof. intros H w. rewrite H. lia. Qed.

Lemma adds_grows {A} sel (m : M A) : adds sel m -> grows sel m.
Proof. intros H w. specialize (H w). lia. Qed.

Lemma grows_ret {A} sel (a : A) : grows sel (ret a).
Proof. intros w. simpl. lia. Qed.

Lemma grows_emit sel (e : event) : grows sel (emit e).
Proof.
  intros w. unfold events_of, emit. simpl. rewrite List.filter_app, length_app.
  lia.
Qed.

Lemma adds_emit sel (e : event) : sel e = true -> adds sel (emit e).
Proof.
  intros He w. unfold events_of, emit. simpl.
  rewrite List.filter_app, length_app. simpl. rewrite He. simpl. lia.
Qed.

Lemma grows_bind {A B} sel (m : M A) (k : A -> M B) :
  grows sel m -> (forall a, grows sel (k a)) -> grows sel (bind m k).
Proof.
  intros Hm Hk w. unfold bind. specialize (Hm w).
  destruct (m w) as [a w']. simpl in Hm. specialize (Hk a w'). lia.
Qed.

Lemma adds_bind_l {A B} sel (m : M A) (k : A -> M B) :
  adds sel m -> (forall a, grows sel (k a)) -> adds sel (bind m k).
Proof.
  intros Hm Hk w. unfold bind. specialize (Hm w).
  destruct (m w) as [a w']. simpl in Hm. specialize (Hk a w'). lia.
Qed.

Lemma adds_bind_r {A B} sel (m : M A) (k : A -> M B) :
  grows sel m -> (forall a, adds sel (k a)) -> adds sel (bind m k).
Proof.
  intros Hm Hk w. unfold bind. specialize (Hm w).
  destruct (m w) as [a w']. simpl in Hm. specialize (Hk a w'). lia.
Qed.

Lemma grows_generate_embeddings_loop sel (texts : list pystr)
    (max_retries : Z) (remaining attempt : nat) :
  grows sel (generate_embeddings_loop texts max_retries remaining attempt).
Proof.
  revert attempt. induction remaining as [|r IH]; intros attempt; simpl.
  - apply grows_ret.
  - apply grows_bind; [apply grows_emit|]. intros _.
    destruct (embeddings_create texts attempt); [|apply grows_ret].
    destruct (is_rate_limit_error _); [|apply grows_ret].
    destruct (_ <? _); [|apply grows_ret].
    apply grows_bind; [apply grows_emit|]. intros _. apply IH.
Qed.

Lemma generate_embeddings_loop_adds (texts : list pystr) (max_retries : Z)
    (remaining attempt : nat) :
  adds is_retrieval
    (generate_embeddings_loop texts max_retries (S remaining) attempt).
Proof.
  cbn [generate_embeddings_loop].
  apply adds_bind_l; [by apply adds_emit|]. intros _.
  destruct (embeddings_create _ _); [|apply grows_ret].
  destruct (is_rate_limit_error _); [|apply grows_ret].
  destruct (_ <? _); [|apply grows_ret].
  apply grows_bind; [apply grows_emit|]. intros _.
  apply grows_generate_embeddings_loop.
Qed.

(** Every call of [hybrid_search] reaches the embedding service. *)
Lemma hybrid_search_retrieves (query : pystr) (top_k : Z)
    (min_score : option float) :
  adds is_retrieval (hybrid_search query top_k min_score).
Proof.
  unfold hybrid_search, generate_embedding, generate_embeddings.
  apply adds_bind_l.
  - apply adds_bind_l.
    + change (Z.to_nat 3) with 3%nat. apply generate_embeddings_loop_adds.
    + intros [[e|[|v data]]|]; apply grows_ret.
  - intros [e|v]; [apply grows_ret|].
    apply grows_bind; [apply grows_emit|]. intros _.
    destruct (index_search _ _ _); apply grows_ret.
Qed.

(** Every call of [generate_answer] asks for a completion. *)
Lemma generate_answer_completes (messages_for_llm : list chat_message)
    (retries_left attempt : nat) :
  adds is_completion (generate_answer messages_for_llm retries_left attempt).
Proof.
  assert (Hgrows : forall r a,
             grows is_completion (generate_answer messages_for_llm r a)).
  { induction r as [|r IH]; intros a; simpl.
    - apply grows_bind; [apply grows_emit|]. intros _.
      destruct (chat_completions_create _ _); [|apply grows_ret].
      destruct (is_rate_limit_error _); apply grows_ret.
    - apply grows_bind; [apply grows_emit|]. intros _.
      destruct (chat_completions_create _ _); [|apply grows_ret].
      destruct (is_rate_limit_error _); [|apply grows_ret].
      apply grows_bind; [apply grows_emit|]. intros _. apply IH. }
  destruct retries_left as [|r]; simpl.
  - apply adds_bind_l; [by apply adds_emit|]. intros _.
    destruct (chat_completions_create _ _); [|apply grows_ret].
    destruct (is_rate_limit_error _); apply grows_ret.
  - apply adds_bind_l; [by apply adds_emit|]. intros _.
    destruct (chat_completions_create _ _); [|apply grows_ret].
    destruct (is_rate_limit_error _); [|apply grows_ret].
    apply grows_bind; [apply grows_emit|]. intros _. apply Hgrows.
Qed.

(** ** Results of a computation *)

Lemma returns_ret {A} (P : A -> Prop) (a : A) : P a -> returns P (ret a).
Proof. intros H w. exact H. Qed.

Lemma returns_bind {A B} (P : B -> Prop) (m : M A) (k : A -> M B) :
  (forall a, returns P (k a)) -> returns P (bind m k).
Proof. intros Hk w. unfold bind. destruct (m w) as [a w']. apply Hk. Qed.

(** ** The language check *)

Lemma is_arabic_text_false (message : pystr) :
  is_arabic_text message = false <-> not_mostly_arabic message.
Proof.
  unfold is_arabic_text, not_mostly_arabic. split.
  - destruct message as [|c rest]; [left; reflexivity|]. cbn [truthy negb].
    destruct (total_chars (c :: rest) =? 0) eqn:E; [left; lia|]. by right.
  - intros [H|H].
    + destruct (negb (truthy message)); [done|]. by rewrite H.
    + destruct (negb (truthy message)); [done|].
      destruct (total_chars message =? 0); done.
Qed.

Ltac open_run H :=
  unfold generate_chat_response; rewrite H; cbn [negb].

Lemma non_arabic_result (message : pystr) (session_id : option pystr) :
  is_arabic_text message = false ->
  returns (fun r : pystr * list Source * pystr * pystr =>
             r.1.1.1 = english_response /\ r.1.1.2 = [])
    (generate_chat_response message session_id).
Proof.
  intros H. open_run H.
  apply returns_bind. intros sid.
  apply returns_bind. intros [history_text history_dicts].
  apply returns_bind. intros found. destruct found as [e|docs];
    (apply returns_bind; intros message_id; by apply returns_ret).
Qed.

Lemma non_arabic_silent (sel : event -> bool) (message : pystr)
    (session_id : option pystr) :
  (forall s, sel (EvCreateItem s) = false) ->
  (forall s, sel (EvUpsertItem s) = false) ->
  (forall t, sel (EvEmbeddingsCreate t) = false) ->
  (forall q k, sel (EvIndexSearch q k) = false) ->
  (forall n, sel (EvSleep n) = false) ->
  is_arabic_text message = false ->
  silent sel (generate_chat_response message session_id).
Proof.
  intros H1 H2 H3 H4 H5 H. open_run H.
  apply silent_bind.
  { destruct (match session_id with Some _ => _ | None => _ end);
      [by apply silent_new_uuid | apply silent_ret]. }
  intros sid. apply silent_bind.
  { destruct (negb _); [|apply silent_ret].
    apply silent_bind; [by apply silent_get_session_messages|]. intros ?.
    apply silent_bind; [by apply silent_build_conversation_history|].
    intros ?. apply silent_ret. }
  intros [history_text history_dicts].
  apply silent_bind; [by apply silent_hybrid_search|].
  intros found. destruct found as [e|docs];
    (apply silent_bind; [by apply silent_save_message|]; intros ?;
     apply silent_ret).
Qed.

(** Whatever the message, a run starts with the retrieval call. *)
Lemma retrieval_always_runs (message : pystr) (session_id : option pystr) :
  adds is_retrieval (generate_chat_response message session_id).
Proof.
  unfold generate_chat_response.
  apply adds_bind_r; [apply silent_grows; quiet|]. intros sid.
  apply adds_bind_r; [apply silent_grows; quiet|].
  intros [history_text history_dicts].
  apply adds_bind_l; [apply hybrid_search_retrieves|].
  intros found. apply silent_grows. destruct found as [e|docs]; quiet.
Qed.

(** C4 (amended). For a message that is not predominantly Arabic
    (ratio of Arabic-block characters to alphabetic characters at most
    0.5, or no alphabetic character), [generate_chat_response] returns
    the fixed redirect answer with an empty source list, adds no entry to
    the unanswered-questions log and asks for no completion.  Retrieval is
    not skipped: the search has been issued before the language check,
    and its outcome is left unused. *)
Theorem C4_non_arabic_redirect (message : pystr)
    (session_id : option pystr) (w : world) :
  not_mostly_arabic message ->
  let '((answer, sources, _, _), w') :=
    generate_chat_response message session_id w in
  answer = english_response
  /\ sources = []
  /\ events_of is_log w' = events_of is_log w
  /\ events_of is_completion w' = events_of is_completion w
  /\ (length (events_of is_retrieval w)
      < length (events_of is_retrieval w'))%nat.
Proof.
  intros H. apply is_arabic_text_false in H.
  pose proof (non_arabic_result message session_id H w) as Hres.
  pose proof (non_arabic_silent is_log message session_id
                ltac:(done) ltac:(done) ltac:(done) ltac:(done) ltac:(done)
                H w) as Hlog.
  pose proof (non_arabic_silent is_completion message session_id
                ltac:(done) ltac:(done) ltac:(done) ltac:(done) ltac:(done)
                H w) as Hcompletion.
  pose proof (retrieval_always_runs message session_id w) as Hretrieval.
  destruct (generate_chat_response message session_id w)
    as [[[[answer sources] sid] message_id] w'].
  simpl in *. tauto.
Qed.

(** ** The decline branch *)

Lemma related_when_sources (query : pystr) (source : Source)
    (rest : list Source) :
  is_doha_magazine_related query (source :: rest) = true.
Proof. unfold is_doha_magazine_related. reflexivity. Qed.

(** The condition of the decline branch, as [generate_chat_response]
    evaluates it, is false. *)
Lemma decline_condition_false {A} (is_basic_greeting : bool) (query : pystr)
    (to_source : A -> Source) (search_results : list A) :
  negb is_basic_greeting
  && (negb (is_doha_magazine_related query (map to_source search_results))
      && (0 <? length search_results)%nat) = false.
Proof.
  destruct search_results as [|r rest].
  - by rewrite !andb_false_r.
  - cbn [map]. rewrite related_when_sources. by rewrite andb_false_r.
Qed.

Lemma arabic_run_completes (message : pystr) (session_id : option pystr) :
  is_arabic_text message = true ->
  adds is_completion (generate_chat_response message session_id).
Proof.
  intros H. open_run H.
  apply adds_bind_r; [apply silent_grows; quiet|]. intros sid.
  apply adds_bind_r; [apply silent_grows; quiet|].
  intros [history_text history_dicts].
  apply adds_bind_r; [apply silent_grows; quiet|].
  intros found.
  destruct found as [e|docs]; cbv zeta beta iota;
    rewrite decline_condition_false;
    (apply adds_bind_r; [apply silent_grows; quiet|]; intros _;
     apply adds_bind_l; [apply generate_answer_completes|]; intros answer;
     apply grows_bind;
     [match goal with
      | |- grows _ (if ?c then _ else _) =>
        destruct c; [apply grows_emit | apply grows_ret]
      end|];
     intros _; apply silent_grows; quiet).
Qed.

(** C8. [is_doha_magazine_related] is true as soon as a source was
    retrieved, so the decline branch cannot be taken: a run of
    [generate_chat_response] either returns the redirect answer (message
    not in Arabic) or goes on to ask the model for a completion, and the
    redirect answer is not the decline message. *)
Theorem C8_decline_unreachable :
  (forall (query : pystr) (source : Source) (rest : list Source),
      is_doha_magazine_related query (source :: rest) = true)
  /\ english_response <> decline_message
  /\ (forall (message : pystr) (session_id : option pystr) (w : world),
         let '((answer, _, _, _), w') :=
           generate_chat_response message session_id w in
         (is_arabic_text message = false /\ answer = english_response)
         \/ (length (events_of is_completion w)
             < length (events_of is_completion w'))%nat).
Proof.
  split; [exact related_when_sources|]. split.
  { intros E. apply (f_equal length) in E. vm_compute in E. discriminate. }
  intros message session_id w.
  destruct (is_arabic_text message) eqn:H.
  - pose proof (arabic_run_completes message session_id H w) as Hc.
    destruct (generate_chat_response message session_id w)
      as [[[[answer sources] sid] message_id] w'].
    right. exact Hc.
  - pose proof (non_arabic_result message session_id H w) as Hres.
    destruct (generate_chat_response message session_id w)
      as [[[[answer sources] sid] message_id] w'].
    left. simpl in Hres. tauto.
Qed.

(** ** Context formatting *)

Lemma chunk_words_nonneg (doc : search_doc) : 0 <= chunk_words doc.
Proof. unfold chunk_words. lia. Qed.

Lemma format_context_loop_prefix (max_tokens : Z) (docs : list search_doc) :
  forall (i : nat) (token_count : Z),
    token_count <= max_tokens ->
    exists k : nat,
      format_context_loop max_tokens i token_count docs = tagged_parts i k docs
      /\ token_count + total_words (take k docs) <= max_tokens
      /\ (forall doc rest, docs = doc :: rest ->
            token_count + chunk_words doc <= max_tokens -> (1 <= k)%nat).
Proof.
  induction docs as [|doc rest IH]; intros i token_count Hle.
  - exists 0%nat. simpl. repeat split; [lia | intros; discriminate].
  - cbn [format_context_loop].
    destruct (max_tokens <? token_count + chunk_words doc) eqn:Hover.
    + exists 0%nat. simpl. repeat split; [lia|].
      intros d r [= <- <-] Hfit. lia.
    + assert (Hfit : token_count + chunk_words doc <= max_tokens) by lia.
      destruct (IH (S i) _ Hfit) as (k & Hparts & Hsum & _).
      exists (S k). unfold tagged_parts in *. cbn [take imap total_words foldr].
      repeat split.
      * rewrite Hparts. f_equal; [f_equal; lia|].
        apply imap_ext. intros j d _. simpl. f_equal. lia.
      * fold (total_words (take k rest)). lia.
      * intros; lia.
Qed.

(** C7. For a non-negative budget, [format_context_for_llm] renders a
    prefix of the results in their given order, tagged [[1]], [[2]], ...;
    the word counts of the rendered passages sum to at most [max_tokens];
    and the first result is rendered whenever its own word count fits the
    budget. *)
Theorem C7_format_context_budget (search_results : list search_doc)
    (max_tokens : Z) :
  0 <= max_tokens ->
  exists k : nat,
    format_context_for_llm search_results max_tokens
    = match search_results with
      | [] => u "No relevant information found."
      | _ => join nl (tagged_parts 1 k search_results)
      end
    /\ total_words (take k search_results) <= max_tokens
    /\ (forall doc rest,
           search_results = doc :: rest ->
           chunk_words doc <= max_tokens ->
           exists parts,
             tagged_parts 1 k search_results = context_part 1 doc :: parts).
Proof.
  intros Hbudget.
  destruct (format_context_loop_prefix max_tokens search_results 1 0 Hbudget)
    as (k & Hparts & Hsum & Hfirst).
  exists k. split; [|split].
  - unfold format_context_for_llm. rewrite Hparts. reflexivity.
  - lia.
  - intros doc rest -> Hfit.
    specialize (Hfirst doc rest eq_refl ltac:(lia)).
    destruct k as [|k]; [lia|].
    unfold tagged_parts. cbn [take imap]. eauto.
Qed.

(** ** Query enhancement *)

Lemma user_texts_last (entries : list history_entry) :
  match last_user_utterance entries with
  | Some previous => exists before, user_texts entries = before ++ [previous]
  | None => user_texts entries = []
  end.
Proof.
  unfold last_user_utterance.
  induction entries as [|entry older IH] using rev_ind; [reflexivity|].
  rewrite rev_app_distr. cbn [rev app List.find].
  unfold user_texts in *. rewrite flat_map_app. cbn [flat_map].
  unfold is_user_entry at 1.
  destruct (h_role entry) as [r|].
  - destruct (pystr_eqb r (u "user")); simpl.
    + eexists. reflexivity.
    + rewrite !app_nil_r. exact IH.
  - simpl. rewrite !app_nil_r. exact IH.
Qed.

Lemma startswith_app (p rest : pystr) : startswith p (p ++ rest) = true.
Proof.
  induction p as [|c p IH]; [reflexivity|].
  simpl. rewrite N.eqb_refl. exact IH.
Qed.

Lemma contains_suffix (before q : pystr) : contains q (before ++ q) = true.
Proof.
  induction before as [|c before IH].
  - destruct q as [|c q]; [reflexivity|].
    cbn [app contains]. rewrite <- (app_nil_r (c :: q)) at 2.
    by rewrite startswith_app.
  - cbn [app contains]. rewrite IH. apply orb_true_r.
Qed.

(** C5 (amended).  With fewer than two history entries the query is
    returned unchanged.  With at least two entries and referential
    language detected, the text of the last user entry among the final
    four entries is put in front of the query, separated by a space, and
    the result is cut to its first 500 characters; when no user entry is
    among those four the query is returned unchanged.  The returned string
    contains the whole current query whenever the combined length is at
    most 500.  Without referential language the query is returned
    unchanged. *)
Theorem C5_enhance_query_with_context (current_query : pystr)
    (conversation_history : list history_entry) :
  ((length conversation_history < 2)%nat ->
   enhance_query_with_context current_query conversation_history
   = current_query)
  /\ ((2 <= length conversation_history)%nat ->
      referential current_query = true ->
      match last_user_utterance (slice_last 4 conversation_history) with
      | Some previous =>
        enhance_query_with_context current_query conversation_history
        = take 500 (previous ++ u " " ++ current_query)
        /\ ((length previous + 1 + length current_query <= 500)%nat ->
            enhance_query_with_context current_query conversation_history
            = previous ++ u " " ++ current_query
            /\ contains current_query
                 (enhance_query_with_context current_query
                    conversation_history) = true)
      | None =>
        enhance_query_with_context current_query conversation_history
        = current_query
      end)
  /\ (referential current_query = false ->
      enhance_query_with_context current_query conversation_history
      = current_query).
Proof.
  unfold enhance_query_with_context. split; [|split].
  - intros Hshort. apply Nat.ltb_lt in Hshort. by rewrite Hshort.
  - intros Hlong Href.
    assert (Hl : (length conversation_history <? 2)%nat = false)
      by (apply Nat.ltb_ge; lia).
    rewrite Hl. unfold referential in Href. rewrite Href.
    fold (user_texts (slice_last 4 conversation_history)).
    pose proof (user_texts_last (slice_last 4 conversation_history)) as Hlast.
    destruct (last_user_utterance (slice_last 4 conversation_history))
      as [previous|].
    + destruct Hlast as [before ->].
      rewrite slice_last_1_snoc. cbn [join].
      destruct (before ++ [previous]) as [|first others] eqn:Hsome;
        [destruct before; discriminate|].
      split; [reflexivity|].
      intros Hfits.
      assert (Hwhole : take 500 (previous ++ u " " ++ current_query)
                       = previous ++ u " " ++ current_query).
      { apply take_ge. rewrite !length_app.
        change (length (u " ")) with 1%nat. lia. }
      rewrite Hwhole. split; [reflexivity|].
      rewrite app_assoc. apply contains_suffix.
    + rewrite Hlast. reflexivity.
  - intros Href. unfold referential in Href. rewrite Href.
    by destruct (length conversation_history <? 2)%nat.
Qed.

(** ** Reason codes of the unanswered-questions log *)

(** The priority of the reasons, for an error whose text is not empty. *)
Lemma log_reason_priority (search_error : option pystr) (has_results : bool)
    (avg_score : float) :
  log_reason search_error has_results avg_score
  = match search_error with
    | Some (_ :: _) => u "search_error"
    | _ =>
      if negb has_results then u "no_results"
      else if flt avg_score f_0_3 then u "low_score"
      else u "insufficient_information"
    end.
Proof. unfold log_reason. destruct search_error as [[|c e]|]; reflexivity. Qed.

(** * Further properties of the code *)

(** ** The store under its operations *)

Lemma run_bind {A B} (m : M A) (k : A -> M B) (w : world) :
  bind m k w = k (fst (m w)) (snd (m w)).
Proof. unfold bind. by destruct (m w). Qed.

Lemma reads_only_ret {A} (a : A) : reads_only (ret a).
Proof. intros w. reflexivity. Qed.

Lemma reads_only_bind {A B} (m : M A) (k : A -> M B) :
  reads_only m -> (forall a, reads_only (k a)) -> reads_only (bind m k).
Proof. intros Hm Hk w. rewrite run_bind, Hk. apply Hm. Qed.

Lemma reads_only_emit (e : event) : reads_only (emit e).
Proof. intros w. reflexivity. Qed.

Lemma reads_only_next_tick : reads_only next_tick.
Proof. intros w. reflexivity. Qed.

Lemma reads_only_get_container : reads_only get_container.
Proof. intros w. reflexivity. Qed.

Lemma reads_only_read_item (s : pystr) : reads_only (read_item s).
Proof. intros w. reflexivity. Qed.

Ltac readonly :=
  repeat first
    [ apply reads_only_ret
    | apply reads_only_emit
    | apply reads_only_next_tick
    | apply reads_only_get_container
    | apply reads_only_read_item
    | apply reads_only_bind; [| intros ?]
    | match goal with
      | |- reads_only (if ?b then _ else _) => destruct b
      | |- reads_only (match ?x with _ => _ end) => destruct x
      end ].

Lemma reads_only_new_uuid : reads_only new_uuid.
Proof. unfold new_uuid. readonly. Qed.

Lemma reads_only_get_session_messages (s : pystr) (limit : Z) :
  reads_only (get_session_messages s limit).
Proof. unfold get_session_messages. readonly. Qed.

Lemma reads_only_build_conversation_history (s : pystr) (max_turns : Z) :
  reads_only (build_conversation_history s max_turns).
Proof.
  unfold build_conversation_history.
  apply reads_only_bind; [apply reads_only_get_session_messages|].
  intros ?. readonly.
Qed.

Lemma reads_only_generate_embeddings_loop (texts : list pystr)
    (max_retries : Z) (remaining attempt : nat) :
  reads_only (generate_embeddings_loop texts max_retries remaining attempt).
Proof.
  revert attempt. induction remaining as [|r IH]; intros attempt; simpl.
  - apply reads_only_ret.
  - apply reads_only_bind; [apply reads_only_emit|]. intros _.
    destruct (embeddings_create texts attempt); [|apply reads_only_ret].
    destruct (is_rate_limit_error _); [|apply reads_only_ret].
    destruct (_ <? _); [|apply reads_only_ret].
    apply reads_only_bind; [apply reads_only_emit|]. intros _. apply IH.
Qed.

Lemma reads_only_hybrid_search (query : pystr) (top_k : Z)
    (min_score : option float) :
  reads_only (hybrid_search query top_k min_score).
Proof.
  unfold hybrid_search, generate_embedding, generate_embeddings.
  apply reads_only_bind.
  - apply reads_only_bind; [apply reads_only_generate_embeddings_loop|].
    intros ?. readonly.
  - intros ?. readonly.
Qed.

Lemma reads_only_generate_answer (messages_for_llm : list chat_message)
    (retries_left attempt : nat) :
  reads_only (generate_answer messages_for_llm retries_left attempt).
Proof.
  revert attempt. induction retries_left as [|r IH]; intros attempt; simpl.
  - readonly.
  - apply reads_only_bind; [apply reads_only_emit|]. intros _.
    destruct (chat_completions_create _ _); [|apply reads_only_ret].
    destruct (is_rate_limit_error _); [|apply reads_only_ret].
    apply reads_only_bind; [apply reads_only_emit|]. intros _. apply IH.
Qed.

Lemma reads_only_preserves {A} (P : session_doc -> Prop) (m : M A) :
  reads_only m -> preserves P m.
Proof.
  intros Hm w Hw sid doc. unfold stored_docs. rewrite Hm. apply Hw.
Qed.

Lemma preserves_bind {A B} (P : session_doc -> Prop) (m : M A)
    (k : A -> M B) :
  preserves P m -> (forall a, preserves P (k a)) -> preserves P (bind m k).
Proof. intros Hm Hk w Hw. rewrite run_bind. apply Hk, Hm, Hw. Qed.

(** Writing a document that satisfies [P] keeps [P] true of the store. *)
Lemma every_doc_write (P : session_doc -> Prop) (s : pystr)
    (body : session_doc) (w : world) :
  every_doc P w -> P body -> every_doc P (snd (write_item s body w)).
Proof.
  intros Hw Hbody sid doc. unfold stored_docs, write_item. simpl.
  destruct (container w) as [c|] eqn:Hc; simpl; [|by rewrite lookup_empty].
  destruct (decide (s = sid)) as [->|Hne].
  - rewrite lookup_insert_eq. by intros [= <-].
  - rewrite lookup_insert_ne by done. intros Hdoc.
    apply (Hw sid). unfold stored_docs. by rewrite Hc.
Qed.

Lemma every_doc_trace (P : session_doc -> Prop) (w : world) (n : nat)
    (tr : list event) :
  every_doc P w ->
  every_doc P {| container := container w; tick := n; trace := tr |}.
Proof. intros Hw sid doc. apply Hw. Qed.

Lemma every_doc_read (P : session_doc -> Prop) (w : world) (s : pystr)
    (doc : session_doc) :
  every_doc P w -> fst (read_item s w) = Some doc -> P doc.
Proof.
  intros Hw. unfold read_item. simpl. intros Hdoc. apply (Hw s).
  unfold stored_docs. destruct (container w); [done|discriminate].
Qed.

(** What [save_message] leaves in an available store: the session's
    document ends in the new message, and its statistics are those it
    had, or recomputed ones when an assistant message joined an existing
    session. *)
Lemma save_message_store (session_id role text : pystr) (w : world)
    (store : gmap pystr session_doc) :
  container w = Some store ->
  let older := default [] (store !! session_id ≫= doc_messages) in
  let messages := older ++ [new_message_dict (uuid4 (tick w)) role text] in
  exists stats,
    fst (save_message session_id role text w) = uuid4 (tick w)
    /\ container (snd (save_message session_id role text w))
       = Some (<[session_id :=
                   {| doc_messages := Some messages;
                      doc_message_count := Some (Z.of_nat (length messages));
                      doc_feedback_statistics := stats |}]> store)
    /\ ((is_role role "assistant" = true /\ is_Some (store !! session_id)
         /\ exists st, stats = Some st
                       /\ stats_counts st = update_count messages)
        \/ ((is_role role "assistant" = false \/ store !! session_id = None)
            /\ stats = store !! session_id ≫= doc_feedback_statistics)).
Proof.
  intros Hstore. destruct w as [c n tr]. simpl in Hstore. subst c.
  unfold save_message, bind, get_container, new_uuid, utcnow, next_tick,
    read_item, upsert_item, create_item, write_item, emit, ret. simpl.
  fold (new_message_dict (uuid4 n) role text).
  destruct (store !! session_id) as [doc|] eqn:Hdoc; simpl.
  - destruct (is_role role "assistant") eqn:Hassistant.
    + unfold update_feedback_statistics, bind, get_container, read_item,
        utcnow, next_tick, upsert_item, write_item, emit, ret. simpl.
      rewrite lookup_insert_eq. simpl.
      destruct (update_count _) as [[[p q] z] t] eqn:Hcount. simpl.
      eexists. split; [reflexivity|]. split.
      * rewrite insert_insert_eq. reflexivity.
      * left. repeat split; eauto.
    + simpl. eexists. split; [reflexivity|]. split; [reflexivity|].
      right. split; [by left | reflexivity].
  - eexists. split; [reflexivity|]. split; [reflexivity|].
    right. split; [by right | reflexivity].
Qed.

Lemma save_message_unavailable (session_id role text : pystr) (w : world) :
  container w = None -> save_message session_id role text w = ([], w).
Proof.
  intros H. unfold save_message, bind, get_container. by rewrite H.
Qed.

Lemma update_count_snoc_other (messages : list message)
    (message_id role text : pystr) :
  is_role role "assistant" = false ->
  update_count (messages ++ [new_message_dict message_id role text])
  = update_count messages.
Proof.
  intros Hrole. unfold update_count. rewrite fold_left_app. simpl.
  destruct (fold_left update_count_step messages (0, 0, 0, 0))
    as [[[p q] z] t].
  unfold update_count_step, msg_get, new_message_dict.
  rewrite (lookup_insert_ne _ "id" "role") by done.
  rewrite lookup_insert_eq. simpl. unfold is_role in Hrole.
  by rewrite Hrole.
Qed.

Lemma save_message_preserves_count (session_id role text : pystr) :
  preserves count_ok (save_message session_id role text).
Proof.
  intros w Hw. destruct (container w) as [store|] eqn:Hc.
  - destruct (save_message_store session_id role text w store Hc)
      as (stats & _ & Hstore & _).
    intros sid doc. unfold stored_docs. rewrite Hstore. simpl.
    destruct (decide (session_id = sid)) as [->|Hne].
    + rewrite lookup_insert_eq. intros [= <-]. reflexivity.
    + rewrite lookup_insert_ne by done. intros Hdoc. apply (Hw sid).
      unfold stored_docs. by rewrite Hc.
  - by rewrite save_message_unavailable.
Qed.

Lemma save_message_preserves_stats (session_id role text : pystr) :
  preserves stats_ok (save_message session_id role text).
Proof.
  intros w Hw. destruct (container w) as [store|] eqn:Hc.
  - destruct (save_message_store session_id role text w store Hc)
      as (stats & _ & Hstore & Hstats).
    intros sid doc. unfold stored_docs. rewrite Hstore. simpl.
    destruct (decide (session_id = sid)) as [->|Hne].
    + rewrite lookup_insert_eq. intros [= <-]. unfold stats_ok. simpl.
      destruct Hstats as [(_ & _ & st & -> & Hst) | [Hcase ->]]; [done|].
      destruct (store !! sid) as [old|] eqn:Hold; simpl; [|done].
      destruct Hcase as [Hrole | Hnone]; [|discriminate].
      specialize (Hw sid old). unfold stored_docs in Hw. rewrite Hc in Hw.
      specialize (Hw Hold). unfold stats_ok in Hw.
      destruct (doc_feedback_statistics old) as [st|]; [|done].
      rewrite Hw. symmetry. by apply update_count_snoc_other.
    + rewrite lookup_insert_ne by done. intros Hdoc. apply (Hw sid).
      unfold stored_docs. by rewrite Hc.
  - by rewrite save_message_unavailable.
Qed.

Lemma save_message_preserves_valid (session_id role text : pystr) :
  role = u "user" \/ role = u "assistant" ->
  preserves messages_valid (save_message session_id role text).
Proof.
  intros Hrole w Hw. destruct (container w) as [store|] eqn:Hc.
  - destruct (save_message_store session_id role text w store Hc)
      as (stats & _ & Hstore & _).
    intros sid doc. unfold stored_docs. rewrite Hstore. simpl.
    destruct (decide (session_id = sid)) as [->|Hne].
    + rewrite lookup_insert_eq. intros [= <-]. unfold messages_valid. simpl.
      apply Forall_app. split.
      * destruct (store !! sid) as [old|] eqn:Hold; simpl; [|constructor].
        apply (Hw sid old). unfold stored_docs. by rewrite Hc.
      * constructor; [|constructor]. rewrite to_Message_new by done. eauto.
    + rewrite lookup_insert_ne by done. intros Hdoc. apply (Hw sid).
      unfold stored_docs. by rewrite Hc.
  - by rewrite save_message_unavailable.
Qed.

(** [generate_chat_response] writes to the store through [save_message]
    only, with the roles [user] and [assistant]. *)
Lemma generate_chat_response_preserves (P : session_doc -> Prop)
    (message : pystr) (session_id : option pystr) :
  (forall s text, preserves P (save_message s (u "user") text)) ->
  (forall s text, preserves P (save_message s (u "assistant") text)) ->
  preserves P (generate_chat_response message session_id).
Proof.
  intros Huser Hassistant. unfold generate_chat_response.
  apply preserves_bind.
  { apply reads_only_preserves.
    destruct (match session_id with Some _ => _ | None => _ end);
      [apply reads_only_new_uuid | apply reads_only_ret]. }
  intros sid. apply preserves_bind.
  { apply reads_only_preserves. destruct (negb _); [|apply reads_only_ret].
    apply reads_only_bind; [apply reads_only_get_session_messages|].
    intros ?.
    apply reads_only_bind; [apply reads_only_build_conversation_history|].
    intros ?. apply reads_only_ret. }
  intros [history_text history_dicts].
  apply preserves_bind;
    [apply reads_only_preserves, reads_only_hybrid_search|].
  intros found.
  destruct found as [e|docs]; cbv zeta beta iota;
    (destruct (negb (is_arabic_text message));
     [apply preserves_bind; [apply Hassistant|]; intros ?;
      apply reads_only_preserves, reads_only_ret|]);
    rewrite decline_condition_false;
    (apply preserves_bind; [apply Huser|]; intros _;
     apply preserves_bind;
     [apply reads_only_preserves, reads_only_generate_answer|];
     intros answer;
     apply preserves_bind;
     [apply reads_only_preserves;
      match goal with
      | |- reads_only (if ?c then _ else _) =>
        destruct c; [apply reads_only_emit | apply reads_only_ret]
      end|];
     intros _;
     apply preserves_bind; [apply Hassistant|]; intros ?;
     apply reads_only_preserves, reads_only_ret).
Qed.

(** What [update_feedback_statistics] returns and stores. *)
Lemma update_feedback_statistics_store (session_id : pystr) (w : world)
    (store : gmap pystr session_doc) (doc : session_doc) :
  container w = Some store ->
  store !! session_id = Some doc ->
  exists st,
    fst (update_feedback_statistics session_id w) = Some st
    /\ stats_counts st = update_count (default [] (doc_messages doc))
    /\ container (snd (update_feedback_statistics session_id w))
       = Some (<[session_id :=
                   {| doc_messages := doc_messages doc;
                      doc_message_count := doc_message_count doc;
                      doc_feedback_statistics := Some st |}]> store).
Proof.
  intros Hc Hdoc. destruct w as [c n tr]. simpl in Hc. subst c.
  unfold update_feedback_statistics, bind, get_container, read_item, utcnow,
    next_tick, upsert_item, write_item, emit, ret. simpl.
  rewrite Hdoc. simpl.
  destruct (update_count _) as [[[p q] z] t]. simpl.
  eexists. split; [reflexivity|]. split; reflexivity.
Qed.

Lemma update_feedback_statistics_absent (session_id : pystr) (w : world) :
  container w ≫= (fun c => c !! session_id) = None ->
  update_feedback_statistics session_id w = (None, w).
Proof.
  destruct w as [[c|] n tr]; simpl; intros H;
    unfold update_feedback_statistics, bind, get_container, read_item, ret;
    simpl; [|done].
  by rewrite H.
Qed.

(** The outcomes of [update_message_feedback]: nothing done, or the
    document written with the result of the verification loop. *)
Lemma update_message_feedback_store (session_id message_id : pystr)
    (feedback : value) (w : world) :
  update_message_feedback session_id message_id feedback w = (false, w)
  \/ exists store doc i msg,
       container w = Some store
       /\ store !! session_id = Some doc
       /\ target_index message_id (default [] (doc_messages doc)) = Some i
       /\ default [] (doc_messages doc) !! i = Some msg
       /\ is_assistant msg = true
       /\ fst (update_message_feedback session_id message_id feedback w)
          = ids_through i (default [] (doc_messages doc))
       /\ container
            (snd (update_message_feedback session_id message_id feedback w))
          = Some (<[session_id :=
                      {| doc_messages :=
                           Some (<[i := <["feedback" := feedback]> msg]>
                                   (default [] (doc_messages doc)));
                         doc_message_count := doc_message_count doc;
                         doc_feedback_statistics :=
                           doc_feedback_statistics doc |}]> store).
Proof.
  unfold update_message_feedback, bind, get_container, read_item, ret.
  destruct w as [[store|] n tr]; simpl; [|by left].
  destruct (store !! session_id) as [doc|] eqn:Hdoc; simpl; [|by left].
  rewrite scan_messages_target.
  destruct (target_index message_id (default [] (doc_messages doc)))
    as [i|] eqn:Hi; [|by left].
  destruct (target_index_lookup _ _ _ Hi) as (msg & Hmsg & _).
  rewrite Hmsg.
  destruct (is_assistant msg) eqn:Hassistant; [|by left].
  right. exists store, doc, i, msg. simpl. rewrite lookup_insert_eq. simpl.
  rewrite (verification_loop_set_feedback _ _ _ _ _ Hmsg).
  rewrite (verification_loop_target _ _ _ Hi).
  repeat split; done.
Qed.

Lemma update_message_feedback_preserves_count
    (session_id message_id : pystr) (feedback : value) :
  preserves count_ok
    (update_message_feedback session_id message_id feedback).
Proof.
  intros w Hw.
  destruct (update_message_feedback_store session_id message_id feedback w)
    as [-> | (store & doc & i & msg & Hc & Hdoc & _ & _ & _ & _ & Hstore)];
    [done|].
  intros sid d. unfold stored_docs. rewrite Hstore. simpl.
  destruct (decide (session_id = sid)) as [->|Hne].
  - rewrite lookup_insert_eq. intros [= <-]. unfold count_ok. simpl.
    rewrite length_insert. apply (Hw sid doc).
    unfold stored_docs. by rewrite Hc.
  - rewrite lookup_insert_ne by done. intros Hd. apply (Hw sid).
    unfold stored_docs. by rewrite Hc.
Qed.

(** Setting an accepted feedback on an accepted assistant message gives
    an accepted message. *)
Lemma to_Message_set_feedback (msg : message) (feedback : value) :
  feedback = VNone \/ feedback = VStr (u "up") \/ feedback = VStr (u "down") ->
  is_Some (to_Message msg) ->
  is_Some (to_Message (<["feedback" := feedback]> msg)).
Proof.
  intros Hfeedback [m Hm]. unfold to_Message, msg_get in *.
  rewrite (lookup_insert_ne _ "feedback" "role") by done.
  rewrite (lookup_insert_ne _ "feedback" "id") by done.
  rewrite (lookup_insert_ne _ "feedback" "text") by done.
  rewrite lookup_insert_eq.
  destruct (msg !! "role") as [role_v|]; simpl in *; [|done].
  destruct (msg !! "id") as [id_v|]; simpl in *; [|done].
  destruct (msg !! "text") as [text_v|]; simpl in *; [|done].
  destruct (as_str id_v); simpl in *; [|done].
  destruct (as_str role_v); simpl in *; [|done].
  destruct (as_str text_v); simpl in *; [|done].
  case_guard; simpl in *; [|done].
  destruct (value_eq_str role_v (u "assistant")); simpl; [|eauto].
  destruct Hfeedback as [-> | [-> | ->]]; simpl; eauto.
Qed.

Lemma update_message_feedback_preserves_valid
    (session_id message_id : pystr) (feedback : value) :
  feedback = VNone \/ feedback = VStr (u "up") \/ feedback = VStr (u "down") ->
  preserves messages_valid
    (update_message_feedback session_id message_id feedback).
Proof.
  intros Hfeedback w Hw.
  destruct (update_message_feedback_store session_id message_id feedback w)
    as [-> | (store & doc & i & msg & Hc & Hdoc & _ & Hmsg & _ & _ & Hstore)];
    [done|].
  assert (Hold : messages_valid doc)
    by (apply (Hw session_id doc); unfold stored_docs; by rewrite Hc).
  intros sid d. unfold stored_docs. rewrite Hstore. simpl.
  destruct (decide (session_id = sid)) as [->|Hne].
  - rewrite lookup_insert_eq. intros [= <-]. unfold messages_valid in *. simpl.
    apply Forall_insert; [exact Hold|].
    apply to_Message_set_feedback; [done|].
    rewrite Forall_lookup in Hold. by apply (Hold i).
  - rewrite lookup_insert_ne by done. intros Hd. apply (Hw sid).
    unfold stored_docs. by rewrite Hc.
Qed.

Lemma update_feedback_statistics_preserves (P : session_doc -> Prop)
    (session_id : pystr) :
  (forall doc st,
      P doc ->
      stats_counts st = update_count (default [] (doc_messages doc)) ->
      P {| doc_messages := doc_messages doc;
           doc_message_count := doc_message_count doc;
           doc_feedback_statistics := Some st |}) ->
  preserves P (update_feedback_statistics session_id).
Proof.
  intros HP w Hw.
  destruct (container w) as [store|] eqn:Hc;
    [|by rewrite update_feedback_statistics_absent by (by rewrite Hc)].
  destruct (store !! session_id) as [doc|] eqn:Hdoc;
    [|by rewrite update_feedback_statistics_absent by (by rewrite Hc)].
  destruct (update_feedback_statistics_store session_id w store doc Hc Hdoc)
    as (st & _ & Hst & Hstore).
  intros sid d. unfold stored_docs. rewrite Hstore. simpl.
  destruct (decide (session_id = sid)) as [->|Hne].
  - rewrite lookup_insert_eq. intros [= <-]. apply HP; [|done].
    apply (Hw sid doc). unfold stored_docs. by rewrite Hc.
  - rewrite lookup_insert_ne by done. intros Hd. apply (Hw sid).
    unfold stored_docs. by rewrite Hc.
Qed.

(** A message accepted by [app.models.Message] has an [id]. *)
Lemma messages_valid_ids (doc : session_doc) :
  messages_valid doc -> ids_present doc.
Proof.
  unfold messages_valid, ids_present. intros H.
  eapply Forall_impl; [exact H|].
  intros msg [m Hm]. unfold to_Message in Hm. unfold carries_id.
  destruct (msg !! "role"); simpl in Hm; [|done].
  by destruct (msg !! "id").
Qed.

(** On a store whose messages all carry an [id], a stored rating is
    followed by the recount. *)
Lemma save_feedback_preserves_stats (session_id message_id rating : pystr)
    (w : world) :
  every_doc ids_present w ->
  every_doc stats_ok w ->
  every_doc stats_ok (snd (save_feedback session_id message_id rating w)).
Proof.
  intros Hids Hw. unfold save_feedback. rewrite run_bind.
  destruct (update_message_feedback_store session_id message_id
              (VStr rating) w)
    as [-> | (store & doc & i & msg & Hc & Hdoc & _ & _ & _ & Hok & Hstore)];
    [done|].
  rewrite ids_through_present in Hok
    by (apply (Hids session_id doc); unfold stored_docs; by rewrite Hc).
  rewrite Hok, run_bind. simpl.
  set (w1 := snd (update_message_feedback session_id message_id
                    (VStr rating) w)) in *.
  edestruct (update_feedback_statistics_store session_id w1) as
    (st & _ & Hst & Hstore'); [exact Hstore | apply lookup_insert_eq |].
  intros sid d. unfold stored_docs, ret. simpl. rewrite Hstore'. simpl.
  rewrite insert_insert_eq.
  destruct (decide (session_id = sid)) as [->|Hne].
  - rewrite lookup_insert_eq. intros [= <-]. exact Hst.
  - rewrite lookup_insert_ne by done. intros Hd. apply (Hw sid).
    unfold stored_docs. by rewrite Hc.
Qed.

Lemma save_message_preserves_ids (session_id role text : pystr) :
  preserves ids_present (save_message session_id role text).
Proof.
  intros w Hw. destruct (container w) as [store|] eqn:Hc.
  - destruct (save_message_store session_id role text w store Hc)
      as (stats & _ & Hstore & _).
    intros sid doc. unfold stored_docs. rewrite Hstore. simpl.
    destruct (decide (session_id = sid)) as [->|Hne].
    + rewrite lookup_insert_eq. intros [= <-]. unfold ids_present. simpl.
      apply Forall_app. split.
      * destruct (store !! sid) as [old|] eqn:Hold; simpl; [|constructor].
        apply (Hw sid old). unfold stored_docs. by rewrite Hc.
      * constructor; [|constructor]. unfold carries_id, new_message_dict.
        by rewrite lookup_insert_eq.
    + rewrite lookup_insert_ne by done. intros Hdoc. apply (Hw sid).
      unfold stored_docs. by rewrite Hc.
  - by rewrite save_message_unavailable.
Qed.

Lemma update_message_feedback_preserves_ids
    (session_id message_id : pystr) (feedback : value) :
  preserves ids_present
    (update_message_feedback session_id message_id feedback).
Proof.
  intros w Hw.
  destruct (update_message_feedback_store session_id message_id feedback w)
    as [-> | (store & doc & i & msg & Hc & Hdoc & _ & Hmsg & _ & _ & Hstore)];
    [done|].
  assert (Hold : ids_present doc)
    by (apply (Hw session_id doc); unfold stored_docs; by rewrite Hc).
  intros sid d. unfold stored_docs. rewrite Hstore. simpl.
  destruct (decide (session_id = sid)) as [->|Hne].
  - rewrite lookup_insert_eq. intros [= <-]. unfold ids_present in *. simpl.
    apply Forall_insert; [exact Hold|].
    unfold carries_id. rewrite (lookup_insert_ne _ "feedback" "id") by done.
    rewrite Forall_lookup in Hold. by apply (Hold i).
  - rewrite lookup_insert_ne by done. intros Hd. apply (Hw sid).
    unfold stored_docs. by rewrite Hc.
Qed.

Lemma save_feedback_preserves_ids (session_id message_id rating : pystr) :
  preserves ids_present (save_feedback session_id message_id rating).
Proof.
  unfold save_feedback. apply preserves_bind.
  { apply update_message_feedback_preserves_ids. }
  intros [|]; [|apply reads_only_preserves, reads_only_ret].
  apply preserves_bind.
  { apply update_feedback_statistics_preserves. by intros. }
  intros ?. apply reads_only_preserves, reads_only_ret.
Qed.

Lemma recalculate_is_update (session_id : pystr) (w : world) :
  recalculate_all_statistics session_id w
  = update_feedback_statistics session_id w.
Proof.
  unfold update_feedback_statistics, recalculate_all_statistics, bind.
  destruct (get_container w) as [[c|] w1]; [|reflexivity].
  destruct (read_item session_id w1) as [[session_doc|] w2]; [|reflexivity].
  rewrite <- counts_agree. reflexivity.
Qed.

Lemma recalculate_preserves (P : session_doc -> Prop) (session_id : pystr) :
  preserves P (update_feedback_statistics session_id) ->
  preserves P (recalculate_all_statistics session_id).
Proof. intros H w. rewrite recalculate_is_update. apply H. Qed.

(** X1. With the store unavailable every operation of the storage
    service returns its failure value (the empty string, the empty list,
    [False], the empty statistics) and changes nothing. *)
Theorem X1_store_unavailable (session_id message_id role text : pystr)
    (feedback : value) (limit : Z) (w : world) :
  container w = None ->
  save_message session_id role text w = ([], w)
  /\ get_session_messages session_id limit w = ([], w)
  /\ update_message_feedback session_id message_id feedback w = (false, w)
  /\ save_feedback session_id message_id text w = ([], w)
  /\ update_feedback_statistics session_id w = (None, w)
  /\ recalculate_all_statistics session_id w = (None, w)
  /\ get_feedback_statistics session_id w = (None, w).
Proof.
  intros H.
  assert (Hfeedback : forall f,
             update_message_feedback session_id message_id f w = (false, w)).
  { intros f. unfold update_message_feedback, bind, get_container.
    by rewrite H. }
  repeat split.
  - by apply save_message_unavailable.
  - unfold get_session_messages, bind, get_container. by rewrite H.
  - apply Hfeedback.
  - unfold save_feedback. rewrite run_bind, Hfeedback. reflexivity.
  - apply update_feedback_statistics_absent. by rewrite H.
  - rewrite recalculate_is_update.
    apply update_feedback_statistics_absent. by rewrite H.
  - unfold get_feedback_statistics, bind, read_item, ret. by rewrite H.
Qed.

(** X2. With the store available [save_message] returns the fresh id
    and appends exactly one message: the session's list afterwards is the
    list before (empty for a new session) followed by the new message,
    [message_count] is its length, and no other session is touched. *)
Theorem X2_save_message_appends (session_id role text : pystr) (w : world) :
  is_Some (container w) ->
  let '(message_id, w') := save_message session_id role text w in
  message_id = uuid4 (tick w)
  /\ session_messages w' session_id
     = Some (default [] (session_messages w session_id)
             ++ [new_message_dict message_id role text])
  /\ (stored_docs w' !! session_id) ≫= doc_message_count
     = Some (Z.of_nat
               (S (length (default [] (session_messages w session_id)))))
  /\ (forall other, other <> session_id ->
        stored_docs w' !! other = stored_docs w !! other).
Proof.
  intros [store Hc].
  destruct (save_message_store session_id role text w store Hc)
    as (stats & Hid & Hstore & _).
  destruct (save_message session_id role text w) as [message_id w'].
  simpl in Hid, Hstore. subst message_id.
  unfold session_messages, stored_docs. rewrite Hstore, Hc. simpl.
  rewrite lookup_insert_eq. simpl.
  assert (Holder : default [] (store !! session_id ≫= doc_messages)
                   = default []
                       (store !! session_id
                        ≫= (fun d => Some (default [] (doc_messages d))))).
  { destruct (store !! session_id) as [d|]; simpl; [|done].
    by destruct (doc_messages d). }
  rewrite <- Holder. repeat split.
  - rewrite length_app. simpl. do 2 f_equal. lia.
  - intros other Hother. by rewrite lookup_insert_ne.
Qed.

(** X3. [message_count], where a document has one, stays equal to the
    number of its messages under every operation that writes to the
    store, and hence under [generate_chat_response]. *)
Theorem X3_message_count_kept :
  (forall s role text, preserves count_ok (save_message s role text))
  /\ (forall s message_id feedback,
         preserves count_ok (update_message_feedback s message_id feedback))
  /\ (forall s message_id rating,
         preserves count_ok (save_feedback s message_id rating))
  /\ (forall s, preserves count_ok (update_feedback_statistics s))
  /\ (forall s, preserves count_ok (recalculate_all_statistics s))
  /\ (forall message session_id,
         preserves count_ok (generate_chat_response message session_id)).
Proof.
  assert (Hstats : forall s, preserves count_ok (update_feedback_statistics s))
    by (intros s; apply update_feedback_statistics_preserves; by intros).
  repeat split.
  - apply save_message_preserves_count.
  - apply update_message_feedback_preserves_count.
  - intros s message_id rating. unfold save_feedback.
    apply preserves_bind; [apply update_message_feedback_preserves_count|].
    intros [|]; [|apply reads_only_preserves, reads_only_ret].
    apply preserves_bind; [apply Hstats|]. intros ?.
    apply reads_only_preserves, reads_only_ret.
  - apply Hstats.
  - intros s. by apply recalculate_preserves.
  - intros message session_id.
    apply generate_chat_response_preserves;
      intros; apply save_message_preserves_count.
Qed.

(** X4. The cached [feedback_statistics], where a document has them,
    stay equal to a recount of its messages under [save_message], both
    statistics updates and [generate_chat_response], and under
    [save_feedback] on a store whose messages all carry an [id]: there
    the verification loop of [update_message_feedback] cannot raise, so
    a stored rating is always followed by the recount.  That every
    message carries an [id] is itself kept by all of these
    operations. *)
Theorem X4_statistics_kept :
  (forall s role text, preserves stats_ok (save_message s role text))
  /\ (forall s message_id rating w,
         every_doc ids_present w ->
         every_doc stats_ok w ->
         every_doc stats_ok (snd (save_feedback s message_id rating w)))
  /\ (forall s, preserves stats_ok (update_feedback_statistics s))
  /\ (forall s, preserves stats_ok (recalculate_all_statistics s))
  /\ (forall message session_id,
         preserves stats_ok (generate_chat_response message session_id))
  /\ (forall s role text, preserves ids_present (save_message s role text))
  /\ (forall s message_id rating,
         preserves ids_present (save_feedback s message_id rating))
  /\ (forall s, preserves ids_present (update_feedback_statistics s))
  /\ (forall s, preserves ids_present (recalculate_all_statistics s))
  /\ (forall message session_id,
         preserves ids_present (generate_chat_response message session_id)).
Proof.
  assert (Hstats : forall s, preserves stats_ok (update_feedback_statistics s))
    by (intros s; apply update_feedback_statistics_preserves; by intros).
  assert (Hids : forall s, preserves ids_present (update_feedback_statistics s))
    by (intros s; apply update_feedback_statistics_preserves; by intros).
  repeat split.
  - apply save_message_preserves_stats.
  - intros s message_id rating w. apply save_feedback_preserves_stats.
  - apply Hstats.
  - intros s. by apply recalculate_preserves.
  - intros message session_id.
    apply generate_chat_response_preserves;
      intros; apply save_message_preserves_stats.
  - apply save_message_preserves_ids.
  - apply save_feedback_preserves_ids.
  - apply Hids.
  - intros s. by apply recalculate_preserves.
  - intros message session_id.
    apply generate_chat_response_preserves;
      intros; apply save_message_preserves_ids.
Qed.

(** X5. A store in which every message is acceptable to
    [app.models.Message] stays so under [generate_chat_response], under
    [save_message] with the role [user] or [assistant], and under
    [save_feedback] with the rating [up] or [down]. *)
Theorem X5_messages_stay_valid :
  (forall message session_id,
      preserves messages_valid (generate_chat_response message session_id))
  /\ (forall s role text,
         role = u "user" \/ role = u "assistant" ->
         preserves messages_valid (save_message s role text))
  /\ (forall s message_id rating,
         rating = u "up" \/ rating = u "down" ->
         preserves messages_valid (save_feedback s message_id rating)).
Proof.
  repeat split.
  - intros message session_id.
    apply generate_chat_response_preserves;
      intros; apply save_message_preserves_valid; auto.
  - intros. by apply save_message_preserves_valid.
  - intros s message_id rating Hrating. unfold save_feedback.
    apply preserves_bind.
    { apply update_message_feedback_preserves_valid.
      destruct Hrating as [-> | ->]; auto. }
    intros [|]; [|apply reads_only_preserves, reads_only_ret].
    apply preserves_bind.
    { apply update_feedback_statistics_preserves. by intros. }
    intros ?. apply reads_only_preserves, reads_only_ret.
Qed.

(** ** Reading a session *)

Lemma length_slice_last {A} (limit : Z) (l : list A) :
  0 < limit -> (length (slice_last limit l) <= Z.to_nat limit)%nat.
Proof.
  intros Hlimit. unfold slice_last.
  assert (H : (0 <? limit) = true) by lia. rewrite H.
  rewrite length_drop. lia.
Qed.

(** What [get_session_messages] returns from an available store that
    holds the session. *)
Lemma get_session_messages_window (session_id : pystr) (limit : Z)
    (w : world) (messages : list message) :
  session_messages w session_id = Some messages ->
  get_session_messages session_id limit w
  = (default [] (mapM to_Message (slice_last limit messages)), w).
Proof.
  unfold session_messages, get_session_messages, bind, get_container,
    read_item, ret.
  destruct w as [[c|] n tr]; simpl; [|done].
  destruct (c !! session_id) as [doc|]; simpl; [|done].
  by intros [= <-].
Qed.

(** X6. [get_session_messages] changes nothing; for a positive limit
    it returns at most [limit] messages; and it is all or nothing: one
    rejected message among the last [limit] stored ones empties the whole
    result. *)
Theorem X6_get_session_messages_window (session_id : pystr) (limit : Z)
    (w : world) :
  0 < limit ->
  snd (get_session_messages session_id limit w) = w
  /\ (length (fst (get_session_messages session_id limit w))
      <= Z.to_nat limit)%nat
  /\ (forall messages msg,
         session_messages w session_id = Some messages ->
         msg ∈ slice_last limit messages ->
         to_Message msg = None ->
         fst (get_session_messages session_id limit w) = []).
Proof.
  intros Hlimit.
  destruct (session_messages w session_id) as [messages|] eqn:Hm.
  - rewrite (get_session_messages_window _ _ _ _ Hm). simpl.
    split; [done|]. split.
    + destruct (mapM to_Message (slice_last limit messages)) as [r|] eqn:Hr;
        simpl; [|lia].
      apply length_mapM in Hr. rewrite <- Hr. by apply length_slice_last.
    + intros ms msg [= <-] Hin Hbad.
      destruct (mapM to_Message (slice_last limit messages)) as [r|] eqn:Hr;
        [|done].
      assert (His : is_Some (mapM to_Message (slice_last limit messages)))
        by eauto.
      rewrite mapM_is_Some, Forall_forall in His.
      destruct (His msg Hin) as [m Hsome]. simpl in Hsome. congruence.
  - assert (Hnone : get_session_messages session_id limit w = ([], w)).
    { unfold session_messages in Hm.
      unfold get_session_messages, bind, get_container, read_item, ret.
      destruct w as [[c|] n tr]; simpl in *; [|done].
      destruct (c !! session_id) as [doc|]; simpl in *; [discriminate|done]. }
    rewrite Hnone. simpl. split; [done|]. split; [lia|]. intros; discriminate.
Qed.

(** X7. From a store whose messages are all acceptable,
    [get_session_messages] returns the last [limit] stored messages, each
    converted, in stored order; with [limit = 0] it returns all of
    them. *)
Theorem X7_valid_store_read (session_id : pystr) (limit : Z) (w : world)
    (messages : list message) :
  every_doc messages_valid w ->
  session_messages w session_id = Some messages ->
  mapM to_Message (slice_last limit messages)
  = Some (fst (get_session_messages session_id limit w))
  /\ length (fst (get_session_messages session_id limit w))
     = if 0 <? limit then Nat.min (Z.to_nat limit) (length messages)
       else (length messages - Z.to_nat (- limit))%nat.
Proof.
  intros Hvalid Hm.
  rewrite (get_session_messages_window _ _ _ _ Hm). simpl.
  assert (Hall : Forall (fun msg => is_Some (to_Message msg)) messages).
  { unfold session_messages in Hm.
    destruct (container w) as [c|] eqn:Hc; simpl in Hm; [|done].
    destruct (c !! session_id) as [doc|] eqn:Hdoc; simpl in Hm; [|done].
    injection Hm as <-. apply (Hvalid session_id doc).
    unfold stored_docs. by rewrite Hc. }
  assert (Hwindow : Forall (fun msg => is_Some (to_Message msg))
                      (slice_last limit messages)).
  { unfold slice_last. destruct (0 <? limit); by apply Forall_drop. }
  apply mapM_is_Some in Hwindow. destruct Hwindow as [r Hr].
  rewrite Hr. simpl. split; [done|].
  apply length_mapM in Hr. rewrite <- Hr. unfold slice_last.
  destruct (0 <? limit) eqn:Hpos; rewrite length_drop; lia.
Qed.

(** ** Ratings *)

Lemma reads_id_set_feedback (message_id : pystr) (msg : message)
    (feedback : value) :
  reads_id message_id (<["feedback" := feedback]> msg)
  = reads_id message_id msg.
Proof.
  unfold reads_id, msg_get_default.
  by rewrite (lookup_insert_ne _ "feedback" "id").
Qed.

Lemma is_assistant_set_feedback (msg : message) (feedback : value) :
  is_assistant (<["feedback" := feedback]> msg) = is_assistant msg.
Proof.
  unfold is_assistant. by rewrite (lookup_insert_ne _ "feedback" "role").
Qed.

(** Scanning a list that an earlier scan has updated finds the same
    target and overwrites its rating. *)
Lemma scan_messages_twice (message_id : pystr) (first second : value)
    (messages updated : list message) :
  scan_messages message_id first messages = ScanUpdated updated ->
  scan_messages message_id second updated
  = scan_messages message_id second messages.
Proof.
  revert updated. induction messages as [|msg rest IH]; intros updated;
    [discriminate|].
  cbn [scan_messages]. fold (reads_id message_id msg).
  rewrite role_read_assistant.
  destruct (reads_id message_id msg) eqn:Hid.
  - destruct (is_assistant msg) eqn:Hrole; [|discriminate].
    intros [= <-]. cbn [scan_messages].
    fold (reads_id message_id (<["feedback" := first]> msg)).
    rewrite role_read_assistant, reads_id_set_feedback,
      is_assistant_set_feedback, Hid, Hrole.
    by rewrite insert_insert_eq.
  - destruct (scan_messages message_id first rest) as [rest'| |] eqn:Hrest;
      [|discriminate..].
    intros [= <-]. cbn [scan_messages]. fold (reads_id message_id msg).
    rewrite Hid, (IH rest' eq_refl). reflexivity.
Qed.

(** [update_message_feedback] on an available store, by the outcome of
    the search loop. *)
Lemma update_message_feedback_run (session_id message_id : pystr)
    (feedback : value) (store : gmap pystr session_doc) (n : nat)
    (tr : list event) :
  update_message_feedback session_id message_id feedback
    {| container := Some store; tick := n; trace := tr |}
  = match store !! session_id with
    | Some doc =>
      match scan_messages message_id feedback
              (default [] (doc_messages doc)) with
      | ScanUpdated messages' =>
        (verification_loop message_id messages',
         {| container :=
              Some (<[session_id :=
                        {| doc_messages := Some messages';
                           doc_message_count := doc_message_count doc;
                           doc_feedback_statistics :=
                             doc_feedback_statistics doc |}]> store);
            tick := n;
            trace := tr ++ [EvUpsertItem session_id] |})
      | _ => (false, {| container := Some store; tick := n; trace := tr |})
      end
    | None => (false, {| container := Some store; tick := n; trace := tr |})
    end.
Proof.
  unfold update_message_feedback, bind, get_container, read_item,
    upsert_item, write_item, emit, ret. simpl.
  destruct (store !! session_id) as [doc|]; simpl; [|reflexivity].
  destruct (scan_messages _ _ _); simpl; [|reflexivity..].
  by rewrite lookup_insert_eq.
Qed.

(** X8. The last rating wins: rating a message and then rating it again
    leaves the store exactly as the second rating alone would, and gives
    the same result. *)
Theorem X8_last_rating_wins (session_id message_id : pystr)
    (first second : value) (w : world) :
  let w1 := snd (update_message_feedback session_id message_id first w) in
  fst (update_message_feedback session_id message_id second w1)
  = fst (update_message_feedback session_id message_id second w)
  /\ container (snd (update_message_feedback session_id message_id second w1))
     = container (snd (update_message_feedback session_id message_id second w)).
Proof.
  destruct w as [[store|] n tr]; cbv zeta.
  2: { unfold update_message_feedback, bind, get_container, ret. done. }
  rewrite (update_message_feedback_run _ _ first),
    (update_message_feedback_run _ _ second store).
  destruct (store !! session_id) as [doc|] eqn:Hdoc.
  2: { cbn [snd]. by rewrite update_message_feedback_run, Hdoc. }
  destruct (scan_messages message_id first (default [] (doc_messages doc)))
    as [updated| |] eqn:Hfirst; cbn [snd].
  - rewrite update_message_feedback_run, lookup_insert_eq.
    cbn [doc_messages doc_message_count doc_feedback_statistics default].
    change (id updated) with updated.
    rewrite (scan_messages_twice _ _ second _ _ Hfirst).
    rewrite scan_messages_target in Hfirst |- *.
    destruct (target_index message_id (default [] (doc_messages doc)))
      as [i|]; [|discriminate].
    destruct (default [] (doc_messages doc) !! i) as [msg|]; [|discriminate].
    destruct (is_assistant msg); [|discriminate].
    cbn [fst snd container]. by rewrite insert_insert_eq.
  - by rewrite update_message_feedback_run, Hdoc.
  - by rewrite update_message_feedback_run, Hdoc.
Qed.

(** [update_message_feedback], by the targeted message. *)
Lemma update_message_feedback_target (session_id message_id : pystr)
    (feedback : value) (w : world) :
  match feedback_target w session_id message_id with
  | Some (i, msg) =>
    if is_assistant msg then
      exists store doc,
        container w = Some store
        /\ store !! session_id = Some doc
        /\ default [] (doc_messages doc) !! i = Some msg
        /\ update_message_feedback session_id message_id feedback w
           = (ids_through i (default [] (doc_messages doc)),
              {| container :=
                   Some (<[session_id :=
                             {| doc_messages :=
                                  Some (<[i := <["feedback" := feedback]> msg]>
                                          (default [] (doc_messages doc)));
                                doc_message_count := doc_message_count doc;
                                doc_feedback_statistics :=
                                  doc_feedback_statistics doc |}]> store);
                 tick := tick w;
                 trace := trace w ++ [EvUpsertItem session_id] |})
    else update_message_feedback session_id message_id feedback w = (false, w)
  | None => update_message_feedback session_id message_id feedback w
            = (false, w)
  end.
Proof.
  destruct w as [[store|] n tr]; unfold feedback_target, session_messages;
    cbn [container mbind option_bind].
  2: { unfold update_message_feedback, bind, get_container, ret. done. }
  rewrite update_message_feedback_run.
  destruct (store !! session_id) as [doc|] eqn:Hdoc;
    cbn [mbind option_bind]; [|done].
  rewrite scan_messages_target.
  destruct (target_index message_id (default [] (doc_messages doc)))
    as [i|] eqn:Hi; cbn [mbind option_bind]; [|done].
  destruct (target_index_lookup _ _ _ Hi) as (msg & Hmsg & _).
  rewrite Hmsg. cbn [mbind option_bind].
  destruct (is_assistant msg); [|done].
  exists store, doc. cbn [tick trace].
  rewrite (verification_loop_set_feedback _ _ _ _ _ Hmsg).
  rewrite (verification_loop_target _ _ _ Hi). done.
Qed.

(** [save_feedback] after a rating for which [update_message_feedback]
    returned [False]: no recount. *)
Lemma save_feedback_rejected (session_id message_id rating : pystr)
    (w : world) :
  fst (update_message_feedback session_id message_id (VStr rating) w) = false ->
  save_feedback session_id message_id rating w
  = ([], snd (update_message_feedback session_id message_id (VStr rating) w)).
Proof.
  intros Hno. unfold save_feedback. by rewrite run_bind, Hno.
Qed.

(** On a store whose messages all carry an [id], [False] means that
    nothing was written. *)
Lemma update_message_feedback_unchanged (session_id message_id : pystr)
    (feedback : value) (w : world) :
  every_doc ids_present w ->
  fst (update_message_feedback session_id message_id feedback w) = false ->
  snd (update_message_feedback session_id message_id feedback w) = w.
Proof.
  intros Hids Hno.
  destruct (update_message_feedback_store session_id message_id feedback w)
    as [Hsame | (store & doc & i & msg & Hc & Hdoc & _ & _ & _ & Hok & _)];
    [by rewrite Hsame|].
  rewrite ids_through_present in Hok
    by (apply (Hids session_id doc); unfold stored_docs; by rewrite Hc).
  congruence.
Qed.

(** [save_feedback] after a rating for which [update_message_feedback]
    returned [True]: the statistics are updated from the messages as they
    now stand. *)
Lemma save_feedback_accepted (session_id message_id rating : pystr)
    (w : world) :
  fst (update_message_feedback session_id message_id (VStr rating) w) = true ->
  fst (save_feedback session_id message_id rating w) = message_id
  /\ exists messages st,
       session_messages (snd (save_feedback session_id message_id rating w))
         session_id = Some messages
       /\ fst (get_feedback_statistics session_id
                 (snd (save_feedback session_id message_id rating w)))
          = Some st
       /\ stats_counts st = update_count messages.
Proof.
  intros Hyes. unfold save_feedback. rewrite run_bind.
  destruct (update_message_feedback_store session_id message_id
              (VStr rating) w)
    as [Hsame | (store & doc & i & msg & Hc & Hdoc & _ & _ & _ & _ & Hstore)];
    [rewrite Hsame in Hyes; discriminate|].
  rewrite Hyes, run_bind. simpl.
  set (w1 := snd (update_message_feedback session_id message_id
                    (VStr rating) w)) in *.
  edestruct (update_feedback_statistics_store session_id w1) as
    (st & _ & Hst & Hstore'); [exact Hstore | apply lookup_insert_eq |].
  split; [done|].
  eexists _, st. unfold session_messages, get_feedback_statistics, bind,
    read_item, ret. simpl. rewrite Hstore'. simpl.
  rewrite lookup_insert_eq. simpl. split; [reflexivity|].
  split; [reflexivity|exact Hst].
Qed.

(** X9. [save_feedback] is decided by the targeted message.  With no
    target, or a target that is not an assistant message, it returns the
    empty string and leaves the world as it was.  With an assistant
    target and an [id] on every message up to it, it returns the message
    id, and the statistics cached for the session are a recount of the
    messages as they now stand.  With an assistant target and a message
    without [id] at or before it, the rating is stored, but the empty
    string is returned and the cached statistics are left as they
    were. *)
Theorem X9_save_feedback (session_id message_id rating : pystr) (w : world) :
  let '(feedback_id, w') := save_feedback session_id message_id rating w in
  match feedback_target w session_id message_id with
  | Some (i, msg) =>
    if is_assistant msg then
      if ids_through i (default [] (session_messages w session_id)) then
        feedback_id = message_id
        /\ exists messages st,
             session_messages w' session_id = Some messages
             /\ fst (get_feedback_statistics session_id w') = Some st
             /\ stats_counts st = update_count messages
      else
        feedback_id = []
        /\ session_messages w' session_id
           = (fun messages =>
                <[i := <["feedback" := VStr rating]> msg]> messages)
             <$> session_messages w session_id
        /\ fst (get_feedback_statistics session_id w')
           = fst (get_feedback_statistics session_id w)
    else feedback_id = [] /\ w' = w
  | None => feedback_id = [] /\ w' = w
  end.
Proof.
  pose proof (update_message_feedback_target session_id message_id
                (VStr rating) w) as Hrun.
  destruct (feedback_target w session_id message_id) as [[i msg]|].
  2: { rewrite save_feedback_rejected by (by rewrite Hrun).
       by rewrite Hrun. }
  destruct (is_assistant msg).
  2: { rewrite save_feedback_rejected by (by rewrite Hrun).
       by rewrite Hrun. }
  destruct Hrun as (store & doc & Hc & Hdoc & Hmsg & Hrun).
  assert (Hmessages : session_messages w session_id
                      = Some (default [] (doc_messages doc))).
  { unfold session_messages. rewrite Hc. simpl. by rewrite Hdoc. }
  rewrite Hmessages.
  change (default [] (Some (default [] (doc_messages doc))))
    with (default [] (doc_messages doc)).
  destruct (ids_through i (default [] (doc_messages doc))) eqn:Hids.
  - destruct (save_feedback_accepted session_id message_id rating w)
      as (Hid & Hfresh); [by rewrite Hrun|].
    destruct (save_feedback session_id message_id rating w)
      as [feedback_id w'].
    cbn [fst snd] in *. by split.
  - rewrite save_feedback_rejected by (by rewrite Hrun).
    rewrite Hrun. cbn [snd]. split; [reflexivity|].
    unfold session_messages, get_feedback_statistics, bind, read_item, ret.
    cbn [container fst snd mbind option_bind fmap option_fmap option_map].
    rewrite Hc, lookup_insert_eq. cbn [mbind option_bind]. rewrite Hdoc.
    done.
Qed.

(** X10. In the statistics [update_feedback_statistics] returns, the
    label is [no_feedback] exactly when the session has no assistant
    message, in which case both ratios are 0; otherwise it is one of
    [positive], [negative], [neutral]. *)
Theorem X10_overall_feedback_label (session_id : pystr) (w : world) :
  match fst (update_feedback_statistics session_id w) with
  | Some st =>
    (stats_overall_feedback st = u "no_feedback"
     <-> stats_total_assistant_messages st = 0)
    /\ (stats_total_assistant_messages st = 0 ->
        stats_positive_ratio st = float_of_int 0
        /\ stats_negative_ratio st = float_of_int 0)
    /\ (0 < stats_total_assistant_messages st ->
        stats_overall_feedback st ∈ [u "positive"; u "negative"; u "neutral"])
    /\ 0 <= stats_total_assistant_messages st
  | None => True
  end.
Proof.
  unfold update_feedback_statistics, bind, get_container, read_item, utcnow,
    next_tick, upsert_item, write_item, emit, ret.
  destruct w as [[store|] n tr]; simpl; [|done].
  destruct (store !! session_id) as [doc|]; simpl; [|done].
  unfold update_count. rewrite update_count_from. simpl.
  set (t := count_if is_assistant (default [] (doc_messages doc))).
  assert (Ht : 0 <= t).
  { subst t. induction (default [] (doc_messages doc)) as [|m l IH];
      simpl; [lia|]. destruct (is_assistant m); lia. }
  rewrite !Z.add_0_l.
  destruct (0 <? t) eqn:Hpos.
  - apply Z.ltb_lt in Hpos. split; [split|split; [|split]]; try lia.
    + intros E. exfalso.
      destruct (fgt _ _ && fgt _ _); [|destruct (fgt _ _ && fgt _ _)];
        vm_compute in E; discriminate.
    + intros _.
      destruct (fgt _ _ && fgt _ _); [|destruct (fgt _ _ && fgt _ _)];
        set_solver.
  - apply Z.ltb_ge in Hpos. split; [split|split; [|split]]; try lia; done.
Qed.

(** ** Calls to the services *)

Lemma at_most_ret {A} sel (n : nat) (a : A) : at_most sel n (ret a).
Proof. intros w. simpl. lia. Qed.

Lemma at_most_weaken {A} sel (n n' : nat) (m : M A) :
  (n <= n')%nat -> at_most sel n m -> at_most sel n' m.
Proof. intros Hn Hm w. specialize (Hm w). lia. Qed.

Lemma at_most_bind {A B} sel (n1 n2 : nat) (m : M A) (k : A -> M B) :
  at_most sel n1 m -> (forall a, at_most sel n2 (k a)) ->
  at_most sel (n1 + n2) (bind m k).
Proof.
  intros Hm Hk w. rewrite run_bind. specialize (Hm w).
  specialize (Hk (fst (m w)) (snd (m w))). lia.
Qed.

Lemma at_most_emit sel (e : event) : at_most sel 1 (emit e).
Proof.
  intros w. unfold events_of, emit. simpl.
  rewrite List.filter_app, length_app. simpl. destruct (sel e); simpl; lia.
Qed.

Lemma silent_at_most {A} sel (n : nat) (m : M A) :
  silent sel m -> at_most sel n m.
Proof. intros H w. rewrite H. lia. Qed.

(** The retry loop of [generate_embeddings] sends at most one request
    per remaining iteration. *)
Lemma generate_embeddings_loop_requests (texts : list pystr)
    (max_retries : Z) (remaining attempt : nat) :
  at_most is_embedding_request remaining
    (generate_embeddings_loop texts max_retries remaining attempt).
Proof.
  revert attempt. induction remaining as [|r IH]; intros attempt; simpl.
  - apply at_most_ret.
  - change (S r) with (1 + r)%nat.
    apply at_most_bind; [apply at_most_emit|]. intros _.
    destruct (embeddings_create texts attempt); [|apply at_most_ret].
    destruct (is_rate_limit_error _); [|apply at_most_ret].
    destruct (_ <? _); [|apply at_most_ret].
    change r with (0 + r)%nat.
    apply at_most_bind; [by apply silent_at_most, silent_emit|].
    intros _. apply IH.
Qed.

(** It sleeps only before an attempt that is not the last. *)
Lemma generate_embeddings_loop_sleeps (texts : list pystr)
    (max_retries : Z) (remaining attempt : nat) :
  at_most is_sleep (Z.to_nat (max_retries - 1 - Z.of_nat attempt))
    (generate_embeddings_loop texts max_retries remaining attempt).
Proof.
  revert attempt. induction remaining as [|r IH]; intros attempt; simpl.
  - apply at_most_ret.
  - replace (Z.to_nat (max_retries - 1 - Z.of_nat attempt))
      with (0 + Z.to_nat (max_retries - 1 - Z.of_nat attempt))%nat by lia.
    apply at_most_bind; [by apply silent_at_most, silent_emit|]. intros _.
    destruct (embeddings_create texts attempt); [|apply at_most_ret].
    destruct (is_rate_limit_error _); [|apply at_most_ret].
    destruct (_ <? _) eqn:Hlast; [|apply at_most_ret].
    replace (Z.to_nat (max_retries - 1 - Z.of_nat attempt))
      with (1 + Z.to_nat (max_retries - 1 - Z.of_nat (S attempt)))%nat by lia.
    apply at_most_bind; [apply at_most_emit|]. intros _. apply IH.
Qed.

Lemma generate_embeddings_loop_first_request (texts : list pystr)
    (max_retries : Z) (remaining attempt : nat) :
  adds is_embedding_request
    (generate_embeddings_loop texts max_retries (S remaining) attempt).
Proof.
  cbn [generate_embeddings_loop].
  apply adds_bind_l; [by apply adds_emit|]. intros _.
  destruct (embeddings_create _ _); [|apply grows_ret].
  destruct (is_rate_limit_error _); [|apply grows_ret].
  destruct (_ <? _); [|apply grows_ret].
  apply grows_bind; [apply grows_emit|]. intros _.
  apply grows_generate_embeddings_loop.
Qed.

(** X11. One call of [hybrid_search] sends at least one and at most
    three embedding requests, sleeps at most twice between them, and
    queries the index at most once; [generate_embeddings] on an empty list
    returns the empty list without any request. *)
Theorem X11_hybrid_search_calls (query : pystr) (top_k : Z)
    (min_score : option float) :
  adds is_embedding_request (hybrid_search query top_k min_score)
  /\ at_most is_embedding_request 3 (hybrid_search query top_k min_score)
  /\ at_most is_sleep 2 (hybrid_search query top_k min_score)
  /\ at_most is_index_query 1 (hybrid_search query top_k min_score)
  /\ (forall max_retries w,
         generate_embeddings [] max_retries w = (Some (inr []), w)).
Proof.
  unfold hybrid_search, generate_embedding, generate_embeddings.
  change (Z.to_nat 3) with 3%nat.
  repeat split.
  - apply adds_bind_l.
    + apply adds_bind_l; [apply generate_embeddings_loop_first_request|].
      intros [[e|[|v data]]|]; apply grows_ret.
    + intros [e|v]; [apply grows_ret|].
      apply grows_bind; [apply grows_emit|]. intros _.
      destruct (index_search _ _ _); apply grows_ret.
  - change 3%nat with (3 + 0 + 0)%nat. apply at_most_bind.
    + apply at_most_bind; [apply generate_embeddings_loop_requests|].
      intros [[e|[|v data]]|]; apply at_most_ret.
    + intros [e|v]; [apply at_most_ret|].
      change 0%nat with (0 + 0)%nat.
      apply at_most_bind; [by apply silent_at_most, silent_emit|]. intros _.
      destruct (index_search _ _ _); apply at_most_ret.
  - change 2%nat with (2 + 0 + 0)%nat. apply at_most_bind.
    + apply at_most_bind.
      * apply (generate_embeddings_loop_sleeps [query] 3 3 0).
      * intros [[e|[|v data]]|]; apply at_most_ret.
    + intros [e|v]; [apply at_most_ret|].
      change 0%nat with (0 + 0)%nat.
      apply at_most_bind; [by apply silent_at_most, silent_emit|]. intros _.
      destruct (index_search _ _ _); apply at_most_ret.
  - change 1%nat with (0 + 0 + 1)%nat. apply at_most_bind.
    + apply at_most_bind.
      * apply silent_at_most, silent_generate_embeddings_loop; done.
      * intros [[e|[|v data]]|]; apply at_most_ret.
    + intros [e|v]; [apply at_most_ret|].
      change 1%nat with (1 + 0)%nat.
      apply at_most_bind; [apply at_most_emit|]. intros _.
      destruct (index_search _ _ _); apply at_most_ret.
Qed.

(** X12. A failure of the index query is soft: [hybrid_search] then
    returns the empty list, and only a failure of the embedding step
    escapes.  Every returned entry carries all of title, url, summary,
    content and score, comes from a result of the index in the index's
    order, and, when [min_score] is given and not zero, has a score that
    is not below it. *)
Theorem X12_hybrid_search_results (query : pystr) (top_k : Z)
    (min_score : option float) (w : world) :
  match fst (hybrid_search query top_k min_score w),
        fst (generate_embedding query w) with
  | inr docs, inr query_vector =>
    match index_search query query_vector top_k with
    | inr results =>
      Forall doc_complete docs
      /\ map d_id docs `sublist_of` map d_id results
      /\ (forall m, min_score = Some m -> float_truthy m = true ->
            Forall (fun doc => exists s, d_score doc = Some s
                                         /\ flt s m = false) docs)
    | inl _ => docs = []
    end
  | inl e, inl e' => e = e'
  | _, _ => False
  end.
Proof.
  unfold hybrid_search. rewrite run_bind.
  destruct (fst (generate_embedding query w)) as [e|v]; [done|].
  rewrite run_bind. simpl.
  destruct (index_search query v top_k) as [e|results]; [done|]. simpl.
  induction results as [|r results (IH1 & IH2 & IH3)]; simpl.
  - repeat split; [constructor | constructor | intros; constructor].
  - unfold hybrid_search_doc at 1 3 5.
    destruct min_score as [m|].
    + destruct (float_truthy m && flt (default (float_of_int 0) (d_score r)) m)
        eqn:Hskip; simpl.
      * repeat split; [done | by apply sublist_cons | done].
      * repeat split.
        -- constructor; [|done]. repeat split; simpl; eauto.
        -- by apply sublist_skip.
        -- intros m' [= <-] Htruthy. constructor; [|by apply IH3].
           simpl. eexists. split; [reflexivity|].
           rewrite Htruthy in Hskip. exact Hskip.
    + simpl. repeat split.
      * constructor; [|done]. repeat split; simpl; eauto.
      * by apply sublist_skip.
      * intros; discriminate.
Qed.

(** ** The context grows with the budget *)

Lemma format_context_loop_monotone (smaller larger : Z)
    (docs : list search_doc) :
  smaller <= larger ->
  forall (i : nat) (token_count : Z),
    format_context_loop smaller i token_count docs
    `prefix_of` format_context_loop larger i token_count docs.
Proof.
  intros Hle. induction docs as [|doc rest IH]; intros i token_count.
  - done.
  - cbn [format_context_loop].
    destruct (smaller <? token_count + chunk_words doc) eqn:Hs.
    + apply prefix_nil.
    + assert (Hl : (larger <? token_count + chunk_words doc) = false) by lia.
      rewrite Hl. apply prefix_cons, IH.
Qed.

Lemma join_prefix (sep : pystr) (parts more : list pystr) :
  parts `prefix_of` more -> join sep parts `prefix_of` join sep more.
Proof.
  intros [rest ->]. induction parts as [|p parts IH].
  - apply prefix_nil.
  - destruct parts as [|q parts].
    + destruct rest as [|r rest]; simpl.
      * done.
      * by apply prefix_app_r.
    + change (join sep (p :: q :: parts)) with (p ++ sep ++ join sep (q :: parts)).
      change (join sep ((p :: q :: parts) ++ rest))
        with (p ++ sep ++ join sep ((q :: parts) ++ rest)).
      by do 2 apply prefix_app.
Qed.

(** X13. Raising the budget only extends the context: the text that
    [format_context_for_llm] builds under a budget is a prefix of the
    text it builds under any larger budget. *)
Theorem X13_context_grows_with_budget (search_results : list search_doc)
    (smaller larger : Z) :
  smaller <= larger ->
  format_context_for_llm search_results smaller
  `prefix_of` format_context_for_llm search_results larger.
Proof.
  intros Hle. unfold format_context_for_llm.
  destruct search_results as [|doc rest]; [done|].
  by apply join_prefix, format_context_loop_monotone.
Qed.

(** ** Source attributions *)

Lemma extract_sources_spec (results : list search_doc) :
  forall seen_urls : list pystr,
    let sources := extract_sources seen_urls results in
    (length sources <= length results)%nat
    /\ NoDup (map src_url sources)
    /\ Forall (fun s => src_url s <> [] /\ (src_url s ∉ seen_urls)
                        /\ src_content s = None) sources
    /\ Forall (fun s => exists result,
                   result ∈ results
                   /\ src_url s = default [] (d_url result)
                   /\ src_title s = default [] (d_title result)
                   /\ src_score s = d_score result) sources.
Proof.
  induction results as [|result rest IH]; intros seen_urls; simpl.
  - repeat split; constructor.
  - destruct (truthy (default [] (d_url result))
              && negb (bool_decide (default [] (d_url result) ∈ seen_urls)))
      eqn:Hkeep.
    + apply andb_true_iff in Hkeep as [Hurl Hnew].
      apply negb_true_iff, bool_decide_eq_false in Hnew.
      destruct (IH (default [] (d_url result) :: seen_urls))
        as (Hlen & Hdup & Hall & Hfrom).
      simpl. repeat split.
      * lia.
      * constructor; [|done]. rewrite list_elem_of_fmap.
        intros (s & Hs & Hin). rewrite Forall_forall in Hall.
        destruct (Hall s Hin) as (_ & Hseen & _). apply Hseen.
        rewrite Hs. by left.
      * constructor.
        -- simpl. repeat split; [|done].
           intros E. by rewrite E in Hurl.
        -- eapply Forall_impl; [exact Hall|]. simpl.
           intros s (? & Hseen & ?). repeat split; [done| |done].
           intros Hin. apply Hseen. by right.
      * constructor.
        -- exists result. simpl. repeat split. by left.
        -- eapply Forall_impl; [exact Hfrom|]. simpl.
           intros s (r & Hr & ?). exists r. split; [by right|done].
    + destruct (IH seen_urls) as (Hlen & Hdup & Hall & Hfrom).
      repeat split; [lia|done|done|].
      eapply Forall_impl; [exact Hfrom|]. simpl.
      intros s (r & Hr & ?). exists r. split; [by right|done].
Qed.

(** The sources a run returns are extracted from the first four
    results it works with, and a greeting works with none. *)
Lemma generate_chat_response_sources (message : pystr)
    (session_id : option pystr) :
  returns (fun r : pystr * list Source * pystr * pystr =>
             exists results : list search_doc,
               r.1.1.2 = extract_sources [] (take 4 results)
               /\ (is_basic_conversation message = true -> results = []))
    (generate_chat_response message session_id).
Proof.
  unfold generate_chat_response.
  apply returns_bind. intros sid.
  apply returns_bind. intros [history_text history_dicts].
  apply returns_bind. intros found.
  destruct found as [e|docs]; cbv zeta beta iota;
    (destruct (negb (is_arabic_text message));
     [apply returns_bind; intros ?; apply returns_ret; by exists []|]);
    rewrite decline_condition_false;
    (apply returns_bind; intros _; apply returns_bind; intros answer;
     apply returns_bind; intros _; apply returns_bind; intros ?;
     apply returns_ret; eexists; split; [reflexivity|];
     intros Hgreeting; by rewrite Hgreeting).
Qed.

(** X14. [generate_chat_response] returns at most four sources; their
    urls are not empty and pairwise different, and none carries a content
    excerpt.  For a greeting the list is empty. *)
Theorem X14_sources_returned (message : pystr) (session_id : option pystr)
    (w : world) :
  let '((_, sources, _, _), _) :=
    generate_chat_response message session_id w in
  (length sources <= 4)%nat
  /\ NoDup (map src_url sources)
  /\ Forall (fun s => src_url s <> [] /\ src_content s = None) sources
  /\ (is_basic_conversation message = true -> sources = []).
Proof.
  pose proof (generate_chat_response_sources message session_id w) as H.
  destruct (generate_chat_response message session_id w)
    as [[[[answer sources] sid] message_id] w'].
  simpl in H. destruct H as (results & -> & Hgreeting).
  destruct (extract_sources_spec (take 4 results) [])
    as (Hlen & Hdup & Hall & _).
  repeat split.
  - rewrite length_take in Hlen. lia.
  - done.
  - eapply Forall_impl; [exact Hall|]. simpl. tauto.
  - intros Hg. by rewrite (Hgreeting Hg).
Qed.

(** ** Query normalisation *)

Lemma replace_single (c : N) (new s : pystr) :
  replace [c] new s
  = flat_map (fun x => if (c =? x)%N then new else [x]) s.
Proof.
  unfold replace. induction s as [|x s IH]; [reflexivity|].
  cbn [replace_go startswith flat_map length].
  destruct (c =? x)%N; simpl; by rewrite IH.
Qed.

Lemma replace_single_removes (c : N) (new s : pystr) :
  c ∉ new -> c ∉ replace [c] new s.
Proof.
  intros Hnew. rewrite replace_single.
  induction s as [|x s IH]; simpl; [by apply not_elem_of_nil|].
  rewrite elem_of_app. intros [Hin | Hin]; [|done].
  destruct (c =? x)%N eqn:E; [done|].
  apply list_elem_of_singleton in Hin. subst. by rewrite N.eqb_refl in E.
Qed.

Lemma replace_single_keeps_out (c d : N) (new s : pystr) :
  d ∉ new -> d ∉ s -> d ∉ replace [c] new s.
Proof.
  intros Hnew. rewrite replace_single.
  induction s as [|x s IH]; simpl; [done|].
  rewrite not_elem_of_cons. intros [Hx Hs].
  rewrite elem_of_app. intros [Hin | Hin]; [|by apply IH].
  destruct (c =? x)%N; [done|].
  apply list_elem_of_singleton in Hin. done.
Qed.

(** Characters already absent stay absent, and each step removes its
    own, provided no replacement text brings one of them back. *)
Lemma apply_steps_remove (steps : list (N * pystr)) :
  forall (gone : list N) (s : pystr),
    Forall (fun step => Forall (fun c => c ∉ snd step)
                          (gone ++ map fst steps)) steps ->
    Forall (fun c => c ∉ s) gone ->
    Forall (fun c => c ∉ fold_left apply_step steps s)
      (gone ++ map fst steps).
Proof.
  induction steps as [|[c new] steps IH]; intros gone s Hsteps Hgone.
  - simpl. by rewrite app_nil_r.
  - cbn [fold_left map fst] in *.
    assert (Hsplit : gone ++ c :: map fst steps
                     = (gone ++ [c]) ++ map fst steps)
      by (by rewrite <- app_assoc).
    rewrite Hsplit in *.
    inversion Hsteps as [|? ? Hstep Hrest]; subst.
    cbn [snd] in Hstep.
    apply IH.
    + exact Hrest.
    + apply Forall_app. split.
      * rewrite Forall_forall in Hgone, Hstep |- *. intros d Hd.
        apply replace_single_keeps_out; [|by apply Hgone].
        apply Hstep. rewrite !elem_of_app. auto.
      * constructor; [|constructor]. apply replace_single_removes.
        rewrite Forall_forall in Hstep. apply Hstep.
        rewrite !elem_of_app. left. right. by left.
Qed.

Lemma fold_diacritics (chars : list N) (s : pystr) :
  fold_left (fun normalized diacritic => replace diacritic [] normalized)
    (map (fun c => [c]) chars) s
  = fold_left apply_step (map (fun c => (c, [])) chars) s.
Proof.
  revert s. induction chars as [|c chars IH]; intros s; [reflexivity|].
  simpl. apply IH.
Qed.

Lemma fold_replacements (steps : list (N * pystr)) (s : pystr) :
  fold_left (fun normalized (entry : pystr * pystr) =>
               replace (fst entry) (snd entry) normalized)
    (map (fun step : N * pystr => ([fst step], snd step)) steps) s
  = fold_left apply_step steps s.
Proof.
  revert s. induction steps as [|step steps IH]; intros s; [reflexivity|].
  simpl. apply IH.
Qed.

Lemma normalize_query_steps (query : pystr) :
  normalize_query query
  = fold_left apply_step normalize_steps (join (u " ") (split query)).
Proof.
  unfold normalize_query.
  assert (Hd : diacritics = map (fun c => [c]) (take 8 folded_chars))
    by (vm_compute; reflexivity).
  assert (Hr : dict_of_literal replacements_literal
               = map (fun step : N * pystr => ([fst step], snd step))
                   (drop 8 normalize_steps))
    by (vm_compute; reflexivity).
  rewrite Hd, Hr, fold_diacritics, fold_replacements, <- fold_left_app.
  reflexivity.
Qed.

(** X15. The result of [normalize_query] contains none of the eight
    diacritics it strips and none of the letter variants it folds (alef
    with hamza above, below or madda, ta marbuta, ya). *)
Theorem X15_normalize_query_folds (query : pystr) :
  Forall (fun c => c ∉ normalize_query query) folded_chars.
Proof.
  rewrite normalize_query_steps.
  change folded_chars with ([] ++ map fst normalize_steps).
  apply apply_steps_remove; [|constructor].
  simpl. repeat constructor; simpl;
    try (apply not_elem_of_nil);
    intros H; apply list_elem_of_singleton in H; discriminate.
Qed.

Lemma fold_append_prefix {E} (f : pystr -> E -> pystr) (entries : list E)
    (s : pystr) :
  (forall t e, t `prefix_of` f t e) ->
  s `prefix_of` fold_left f entries s.
Proof.
  intros Hf. revert s. induction entries as [|e entries IH]; intros s;
    [done|].
  simpl. etrans; [apply (Hf s e)|apply IH].
Qed.

(** X16. [enhance_query_flexibility] only appends: its result starts
    with the query, white space collapsed to single spaces. *)
Theorem X16_flexibility_keeps_query (query : pystr) :
  join (u " ") (split query) `prefix_of` enhance_query_flexibility query.
Proof.
  unfold enhance_query_flexibility. apply fold_append_prefix.
  intros t [base_word synonyms].
  destruct (contains base_word t); [by apply prefix_app_r|done].
Qed.

(** X17. A query in which no dialect word occurs comes back from
    [add_dialect_support] unchanged. *)
Theorem X17_no_dialect_word_unchanged (query : pystr) :
  no_dialect_word query = true ->
  add_dialect_support query = query.
Proof.
  unfold no_dialect_word, add_dialect_support.
  generalize (dict_of_literal dialect_mappings_literal).
  induction l as [|[dialect_word standard_word] l IH]; [reflexivity|].
  cbn [forallb fold_left fst]. intros H.
  apply andb_true_iff in H as [Hword Hrest].
  apply negb_true_iff in Hword. rewrite Hword. by apply IH.
Qed.

(** ** One turn of the conversation *)

(** [save_message] on an available store, read through
    [session_messages]. *)
Lemma save_message_session (session_id role text : pystr) (w : world) :
  is_Some (container w) ->
  is_Some (container (snd (save_message session_id role text w)))
  /\ session_messages (snd (save_message session_id role text w)) session_id
     = Some (default [] (session_messages w session_id)
             ++ [new_message_dict (fst (save_message session_id role text w))
                   role text])
  /\ (forall other, other <> session_id ->
        stored_docs (snd (save_message session_id role text w)) !! other
        = stored_docs w !! other).
Proof.
  intros [store Hc].
  destruct (save_message_store session_id role text w store Hc)
    as (stats & Hid & Hstore & _).
  rewrite Hid. unfold session_messages, stored_docs. rewrite Hstore, Hc.
  simpl. rewrite lookup_insert_eq. simpl. split; [eauto|]. split.
  - do 2 f_equal. destruct (store !! session_id) as [d|]; simpl; [|done].
    by destruct (doc_messages d).
  - intros other Hother. by rewrite lookup_insert_ne.
Qed.

Lemma reads_only_session {A} (m : M A) (w : world) :
  reads_only m ->
  (is_Some (container w) -> is_Some (container (snd (m w))))
  /\ (forall s, session_messages (snd (m w)) s = session_messages w s)
  /\ (forall s, stored_docs (snd (m w)) !! s = stored_docs w !! s).
Proof.
  intros Hm. unfold session_messages, stored_docs. rewrite (Hm w).
  repeat split; auto.
Qed.

(** X19. With the store available, one call of
    [generate_chat_response] appends the turn to the session it returns
    and touches no other session: for a message in Arabic the user
    message followed by the answer, for any other message the redirect
    answer alone (the user message is not stored).  The message id
    returned is the id of the stored answer; the session is the one
    given, or a fresh one when the given id is missing or blank. *)
Theorem X19_turn_is_recorded (message : pystr) (session_id : option pystr)
    (w : world) :
  is_Some (container w) ->
  let '((answer, sources, session, message_id), w') :=
    generate_chat_response message session_id w in
  session = match session_id with
            | Some given => if pystr_eqb (strip given) []
                            then uuid4 (tick w) else given
            | None => uuid4 (tick w)
            end
  /\ (exists user_message_id,
        session_messages w' session
        = Some (default [] (session_messages w session)
                ++ (if is_arabic_text message
                    then [new_message_dict user_message_id (u "user") message]
                    else [])
                ++ [new_message_dict message_id (u "assistant") answer]))
  /\ (forall other, other <> session ->
        stored_docs w' !! other = stored_docs w !! other).
Proof.
  intros Hc. unfold generate_chat_response. cbv zeta.
  set (is_new_session :=
         match session_id with
         | Some s => pystr_eqb s [] || pystr_eqb (strip s) []
         | None => true
         end).
  set (session := match session_id with
                  | Some given => if pystr_eqb (strip given) []
                                  then uuid4 (tick w) else given
                  | None => uuid4 (tick w)
                  end).
  (* the session id *)
  rewrite run_bind. cbv beta.
  set (choose := if is_new_session then new_uuid
                 else ret (default [] session_id)).
  assert (Hsession : fst (choose w) = session).
  { subst choose is_new_session session.
    destruct session_id as [[|c given]|]; try reflexivity.
    cbn [pystr_eqb orb default].
    by destruct (pystr_eqb (strip (c :: given)) []). }
  assert (H0 : container (snd (choose w)) = container w).
  { subst choose. destruct is_new_session;
      [apply reads_only_new_uuid | apply reads_only_ret]. }
  destruct (choose w) as [sid w0]. cbn [fst snd] in *. subst sid.
  clearbody session. clear choose.
  clearbody is_new_session.
  (* the history *)
  rewrite run_bind. cbv beta.
  match goal with
  | |- context [snd (?m w0)] =>
    assert (H1 : container (snd (m w0)) = container w)
      by (rewrite <- H0; destruct is_new_session; cbn [negb];
          [apply reads_only_ret|];
          apply reads_only_bind;
          [apply reads_only_get_session_messages|]; intros ?;
          apply reads_only_bind;
          [apply reads_only_build_conversation_history|]; intros ?;
          apply reads_only_ret);
    destruct (m w0) as [[history_text history_dicts] w1]
  end.
  cbn [fst snd] in *. clear dependent w0.
  (* the search *)
  rewrite run_bind. cbv beta.
  match goal with
  | |- context [snd (?m w1)] =>
    assert (H2 : container (snd (m w1)) = container w)
      by (rewrite <- H1; apply reads_only_hybrid_search);
    destruct (m w1) as [found w2]
  end.
  cbn [fst snd] in *. clear dependent w1.
  assert (Hsm2 : forall s, session_messages w2 s = session_messages w s)
    by (intros s; unfold session_messages; by rewrite H2).
  assert (Hsd2 : forall s, stored_docs w2 !! s = stored_docs w !! s)
    by (intros s; unfold stored_docs; by rewrite H2).
  assert (Hc2 : is_Some (container w2)) by (by rewrite H2).
  clear H2 Hc.
  assert (Hturn : forall (text : pystr) (sources : list Source)
                     (before : list (gmap string value)) (w3 : world),
             is_Some (container w3) ->
             default [] (session_messages w3 session)
             = default [] (session_messages w session) ++ before ->
             (forall other, other <> session ->
                stored_docs w3 !! other = stored_docs w !! other) ->
             let '((answer, _, session', message_id), w') :=
               (message_id <~ save_message session (u "assistant") text ;;
                ret (text, sources, session, message_id)) w3 in
             session' = session
             /\ session_messages w' session
                = Some (default [] (session_messages w session)
                        ++ before
                        ++ [new_message_dict message_id (u "assistant")
                              answer])
             /\ (forall other, other <> session ->
                   stored_docs w' !! other = stored_docs w !! other)).
  { intros text sources before w3 Hc3 Hsm3 Hsd3. rewrite run_bind.
    destruct (save_message_session session (u "assistant") text w3 Hc3)
      as (_ & Hmessages & Hothers).
    destruct (save_message session (u "assistant") text w3) as [mid w4].
    unfold ret. cbn [fst snd] in *. split; [reflexivity|]. split.
    - rewrite Hmessages, Hsm3. simpl. by rewrite <- app_assoc.
    - intros other Hother. rewrite Hothers by done. by apply Hsd3. }
  destruct (is_arabic_text message) eqn:Harabic; cbn [negb].
  - (* in Arabic: the user message, the generation, the log, the answer *)
    destruct (match found with
              | inl e => ([], Some e)
              | inr docs => (docs, None)
              end) as [search_results search_error].
    rewrite decline_condition_false.
    rewrite run_bind. cbv beta.
    destruct (save_message_session session (u "user") message w2 Hc2)
      as (Hc3 & Hsm3 & Hsd3).
    destruct (save_message session (u "user") message w2) as [uid w3].
    cbn [fst snd] in *.
    rewrite run_bind. cbv beta.
    match goal with
    | |- context [snd (?m w3)] =>
      assert (H4 : container (snd (m w3)) = container w3)
        by apply reads_only_generate_answer;
      destruct (m w3) as [answer w4]
    end.
    cbn [fst snd] in *. rewrite run_bind. cbv beta.
    match goal with
    | |- context [snd (?m w4)] =>
      assert (H5 : container (snd (m w4)) = container w4)
        by (match goal with
            | |- context [if ?c then emit _ else _] => destruct c
            end; reflexivity);
      destruct (m w4) as [[] w5]
    end.
    cbn [fst snd] in *.
    match goal with
    | |- context [ret (_, ?sources, _, _)] =>
      pose proof (Hturn answer sources
                    [new_message_dict uid (u "user") message] w5) as Hend
    end.
    assert (Hc5 : is_Some (container w5)) by (by rewrite H5, H4).
    assert (Hsm5 : default [] (session_messages w5 session)
                   = default [] (session_messages w session)
                     ++ [new_message_dict uid (u "user") message]).
    { unfold session_messages in *. rewrite H5, H4, Hsm3. simpl.
      by rewrite Hsm2. }
    assert (Hsd5 : forall other, other <> session ->
               stored_docs w5 !! other = stored_docs w !! other).
    { intros other Hother. unfold stored_docs in *. rewrite H5, H4.
      rewrite Hsd3 by done. apply Hsd2. }
    specialize (Hend Hc5 Hsm5 Hsd5).
    match goal with
    | |- (let '(_, _) := ?run in _) =>
      destruct run as [[[[answer' sources'] session'] message_id] w']
    end.
    destruct Hend as (-> & Hmessages & Hothers).
    split; [reflexivity|]. split; [by exists uid | done].
  - (* not in Arabic: the redirect answer alone *)
    destruct (match found with
              | inl e => ([], Some e)
              | inr docs => (docs, None)
              end) as [search_results search_error].
    pose proof (Hturn english_response [] [] w2 Hc2) as Hend.
    rewrite app_nil_r in Hend. specialize (Hend (f_equal _ (Hsm2 _))).
    specialize (Hend (fun other _ => Hsd2 other)).
    match goal with
    | |- (let '(_, _) := ?run in _) =>
      destruct run as [[[[answer' sources'] session'] message_id] w']
    end.
    destruct Hend as (-> & Hmessages & Hothers).
    split; [reflexivity|]. split; [by exists [] | done].
Qed.

Ltac by_silence :=
  match goal with
  | |- events_of ?sel (snd (?m ?w)) = events_of ?sel ?w =>
    generalize w; change (silent sel m); quiet
  end.

(** The reasons an entry of the unanswered-questions log can carry. *)
Lemma log_reason_codes (search_error : option pystr) (has_results : bool)
    (avg_score : float) :
  log_reason search_error has_results avg_score
  ∈ [u "search_error"; u "no_results"; u "low_score";
     u "insufficient_information"].
Proof.
  unfold log_reason.
  destruct (match search_error with Some e => truthy e | None => false end);
    [by left|].
  destruct (negb has_results); [right; by left|].
  destruct (flt avg_score f_0_3); [do 2 right; by left|].
  do 3 right. by left.
Qed.

(** X20. A call of [generate_chat_response] writes at most one entry
    to the unanswered-questions log, and when it does: the entry carries
    the message, the session returned and one of the four reason codes;
    no source is returned and the entry says so; the answer contains one
    of the [unanswered_indicators], so that it is neither of the two
    apologies of a failed generation; the message is in Arabic, is no
    greeting and has more than three characters once stripped. *)
Theorem X20_log_entry (message : pystr) (session_id : option pystr)
    (w : world) :
  let '((answer, sources, session, _), w') :=
    generate_chat_response message session_id w in
  events_of is_log w' = events_of is_log w
  \/ (exists reason metadata,
        events_of is_log w'
        = events_of is_log w
          ++ [EvLogUnanswered message session reason metadata]
        /\ reason ∈ [u "search_error"; u "no_results"; u "low_score";
                     u "insufficient_information"]
        /\ sources = []
        /\ lm_has_sources metadata = false
        /\ lm_llm_says_cant_answer metadata = true
        /\ lm_is_related metadata = true
        /\ existsb (fun indicator => contains indicator answer)
             unanswered_indicators = true
        /\ answer <> rate_limit_answer
        /\ answer <> llm_error_answer
        /\ is_arabic_text message = true
        /\ is_basic_conversation message = false
        /\ (3 < length (strip message))%nat).
Proof.
  unfold generate_chat_response. cbv zeta.
  set (is_new_session :=
         match session_id with
         | Some s => pystr_eqb s [] || pystr_eqb (strip s) []
         | None => true
         end).
  clearbody is_new_session.
  rewrite run_bind. cbv beta.
  match goal with
  | |- context [snd (?m w)] =>
    assert (H0 : events_of is_log (snd (m w)) = events_of is_log w)
      by (by_silence);
    destruct (m w) as [session w0]
  end.
  cbn [fst snd] in *. rewrite run_bind. cbv beta.
  match goal with
  | |- context [snd (?m w0)] =>
    assert (H1 : events_of is_log (snd (m w0)) = events_of is_log w)
      by (rewrite <- H0; by_silence);
    destruct (m w0) as [[history_text history_dicts] w1]
  end.
  cbn [fst snd] in *. clear dependent w0. rewrite run_bind. cbv beta.
  match goal with
  | |- context [snd (?m w1)] =>
    assert (H2 : events_of is_log (snd (m w1)) = events_of is_log w)
      by (rewrite <- H1; by_silence);
    destruct (m w1) as [found w2]
  end.
  cbn [fst snd] in *. clear dependent w1.
  destruct (match found with
            | inl e => ([], Some e)
            | inr docs => (docs, None)
            end) as [search_results search_error].
  destruct (is_arabic_text message) eqn:Harabic; cbn [negb].
  - rewrite decline_condition_false. rewrite run_bind. cbv beta.
    match goal with
    | |- context [snd (?m w2)] =>
      assert (H3 : events_of is_log (snd (m w2)) = events_of is_log w)
        by (rewrite <- H2; by_silence);
      destruct (m w2) as [uid w3]
    end.
    cbn [fst snd] in *. clear dependent w2. rewrite run_bind. cbv beta.
    match goal with
    | |- context [snd (?m w3)] =>
      assert (H4 : events_of is_log (snd (m w3)) = events_of is_log w)
        by (rewrite <- H3; by_silence);
      destruct (m w3) as [answer w4]
    end.
    cbn [fst snd] in *. clear dependent w3. rewrite run_bind. cbv beta.
    match goal with
    | |- context [(if ?c then emit ?entry else ret tt) w4] =>
      destruct c eqn:Hlog
    end.
    + (* an entry is written *)
      match goal with
      | H : (if ?c then _ else false) = true |- _ =>
        destruct c eqn:Hcond; [|discriminate]
      end.
      apply andb_true_iff in Hlog as [Hcant Hnone].
      apply andb_true_iff in Hcond as [Hcond Hvalid].
      apply andb_true_iff in Hcond as [Hrelated Hgreeting].
      apply andb_true_iff in Hvalid as [Hvalid _].
      apply andb_true_iff in Hvalid as [_ Hlength].
      apply negb_true_iff in Hgreeting, Hnone.
      apply orb_false_iff in Hnone as [Hsources _].
      apply Nat.ltb_lt in Hlength.
      rewrite run_bind. cbv beta.
      match goal with
      | |- context [snd (save_message ?s ?r ?t ?w5)] =>
        assert (H5 : events_of is_log (snd (save_message s r t w5))
                     = events_of is_log w5) by by_silence;
        destruct (save_message s r t w5) as [message_id w6]
      end.
      unfold ret. cbn [fst snd] in *. right. eexists _, _.
      split.
      { rewrite H5. unfold events_of, emit. cbn [snd trace].
        rewrite List.filter_app. cbn [List.filter is_log].
        fold (events_of is_log w4). rewrite H4. reflexivity. }
      split; [apply log_reason_codes|].
      cbn [lm_has_sources lm_llm_says_cant_answer lm_is_related].
      repeat split; try done;
        try (intros ->; vm_compute in Hcant; discriminate).
      match goal with
      | |- ?sources = [] =>
        destruct sources; [reflexivity | discriminate]
      end.
    + (* no entry *)
      rewrite run_bind. cbv beta.
      match goal with
      | |- context [snd (save_message ?s ?r ?t ?w5)] =>
        assert (H5 : events_of is_log (snd (save_message s r t w5))
                     = events_of is_log w5) by by_silence;
        destruct (save_message s r t w5) as [message_id w6]
      end.
      unfold ret. cbn [fst snd] in *. left. by rewrite H5.
  - rewrite run_bind. cbv beta.
    match goal with
    | |- context [snd (?m w2)] =>
      assert (H3 : events_of is_log (snd (m w2)) = events_of is_log w)
        by (rewrite <- H2; by_silence);
      destruct (m w2) as [message_id w3]
    end.
    unfold ret. cbn [fst snd] in *. by left.
Qed.

(** ** The cost of one turn *)

(** [at_most] for a sequence, the bound split as [a + b]. *)
Ltac bound a b :=
  apply (at_most_weaken _ (a + b)%nat); [lia | apply at_most_bind].

Lemma hybrid_search_requests (query : pystr) (top_k : Z)
    (min_score : option float) :
  at_most is_embedding_request 3 (hybrid_search query top_k min_score).
Proof.
  unfold hybrid_search, generate_embedding, generate_embeddings.
  change (Z.to_nat 3) with 3%nat. bound 3%nat 0%nat.
  - bound 3%nat 0%nat; [apply generate_embeddings_loop_requests|].
    intros [[e|[|v data]]|]; apply at_most_ret.
  - intros [e|v]; [apply at_most_ret|].
    bound 0%nat 0%nat; [by apply silent_at_most, silent_emit|]. intros _.
    destruct (index_search _ _ _); apply at_most_ret.
Qed.

Lemma hybrid_search_sleeps (query : pystr) (top_k : Z)
    (min_score : option float) :
  at_most is_sleep 2 (hybrid_search query top_k min_score).
Proof.
  unfold hybrid_search, generate_embedding, generate_embeddings.
  change (Z.to_nat 3) with 3%nat. bound 2%nat 0%nat.
  - bound 2%nat 0%nat.
    + apply (generate_embeddings_loop_sleeps [query] 3 3 0).
    + intros [[e|[|v data]]|]; apply at_most_ret.
  - intros [e|v]; [apply at_most_ret|].
    bound 0%nat 0%nat; [by apply silent_at_most, silent_emit|]. intros _.
    destruct (index_search _ _ _); apply at_most_ret.
Qed.

Lemma hybrid_search_queries (query : pystr) (top_k : Z)
    (min_score : option float) :
  at_most is_index_query 1 (hybrid_search query top_k min_score).
Proof.
  unfold hybrid_search, generate_embedding, generate_embeddings.
  bound 0%nat 1%nat.
  - bound 0%nat 0%nat.
    + apply silent_at_most, silent_generate_embeddings_loop; done.
    + intros [[e|[|v data]]|]; apply at_most_ret.
  - intros [e|v]; [apply at_most_ret|].
    bound 1%nat 0%nat; [apply at_most_emit|]. intros _.
    destruct (index_search _ _ _); apply at_most_ret.
Qed.

(** The retry loop of Step 6 asks for one completion per attempt and
    sleeps once before each retry. *)
Lemma generate_answer_requests (messages_for_llm : list chat_message)
    (retries_left attempt : nat) :
  at_most is_completion (S retries_left)
    (generate_answer messages_for_llm retries_left attempt).
Proof.
  revert attempt. induction retries_left as [|r IH]; intros attempt;
    cbn [generate_answer].
  - bound 1%nat 0%nat; [apply at_most_emit|]. intros _.
    destruct (chat_completions_create _ _); [|apply at_most_ret].
    destruct (is_rate_limit_error _); apply at_most_ret.
  - bound 1%nat (S r); [apply at_most_emit|]. intros _.
    destruct (chat_completions_create _ _); [|apply at_most_ret].
    destruct (is_rate_limit_error _); [|apply at_most_ret].
    bound 0%nat (S r); [by apply silent_at_most, silent_emit|].
    intros _. apply IH.
Qed.

Lemma generate_answer_sleeps (messages_for_llm : list chat_message)
    (retries_left attempt : nat) :
  at_most is_sleep retries_left
    (generate_answer messages_for_llm retries_left attempt).
Proof.
  revert attempt. induction retries_left as [|r IH]; intros attempt;
    cbn [generate_answer].
  - bound 0%nat 0%nat; [by apply silent_at_most, silent_emit|]. intros _.
    destruct (chat_completions_create _ _); [|apply at_most_ret].
    destruct (is_rate_limit_error _); apply at_most_ret.
  - bound 0%nat (S r); [by apply silent_at_most, silent_emit|]. intros _.
    destruct (chat_completions_create _ _); [|apply at_most_ret].
    destruct (is_rate_limit_error _); [|apply at_most_ret].
    bound 1%nat r; [apply at_most_emit|]. intros _. apply IH.
Qed.

Lemma at_most_reading {A} sel (n : nat) (m : M A) :
  (forall w, trace (snd (m w)) = trace w) -> at_most sel n m.
Proof. intros H w. unfold events_of. rewrite H. lia. Qed.

Lemma update_feedback_statistics_writes (session_id : pystr) :
  at_most is_write 1 (update_feedback_statistics session_id).
Proof.
  intros w. destruct w as [[store|] n tr];
    unfold update_feedback_statistics, bind, get_container, read_item, ret;
    simpl; [|lia].
  destruct (store !! session_id) as [doc|]; simpl; [|lia].
  destruct (update_count _) as [[[p q] z] t].
  unfold events_of. simpl. rewrite List.filter_app, length_app. simpl. lia.
Qed.

(** [save_message] writes once, and a second time (the statistics) for
    an assistant message. *)
Lemma save_message_writes (session_id role text : pystr) :
  at_most is_write (if is_role role "assistant" then 2 else 1)
    (save_message session_id role text).
Proof.
  unfold save_message. set (n := if is_role role "assistant" then _ else _).
  bound 0%nat n; [by apply at_most_reading|].
  intros [store|]; [|apply at_most_ret].
  bound 0%nat n; [by apply at_most_reading|]. intros message_id.
  bound 0%nat n; [by apply at_most_reading|]. intros current_time.
  bound 0%nat n; [by apply at_most_reading|].
  assert (Hitem : forall item, at_most is_write 1 (emit item))
    by (intros; apply at_most_emit).
  intros [existing_session|]; subst n.
  - destruct (is_role role "assistant").
    + bound 1%nat 1%nat.
      { unfold upsert_item. bound 0%nat 1%nat;
          [by apply at_most_reading|]. intros _. apply Hitem. }
      intros _. bound 1%nat 0%nat; [|intros _; apply at_most_ret].
      bound 1%nat 0%nat; [apply update_feedback_statistics_writes|].
      intros _. apply at_most_ret.
    + bound 1%nat 0%nat.
      { unfold upsert_item. bound 0%nat 1%nat;
          [by apply at_most_reading|]. intros _. apply Hitem. }
      intros _. bound 0%nat 0%nat; intros; apply at_most_ret.
  - apply (at_most_weaken _ 1); [destruct (is_role role "assistant"); lia|].
    bound 1%nat 0%nat.
    { unfold create_item. bound 0%nat 1%nat;
        [by apply at_most_reading|]. intros _. apply Hitem. }
    intros _. apply at_most_ret.
Qed.

(** The events of one kind a run of [generate_chat_response] adds are
    those of its search, its two [save_message] calls, its generation
    and its log entry. *)
Lemma generate_chat_response_at_most (sel : event -> bool)
    (search user_turn generation logging answer_turn : nat)
    (message : pystr) (session_id : option pystr) :
  (forall query top_k min_score,
      at_most sel search (hybrid_search query top_k min_score)) ->
  (forall s text, at_most sel user_turn (save_message s (u "user") text)) ->
  (forall messages_for_llm,
      at_most sel generation (generate_answer messages_for_llm 2 0)) ->
  (forall question s reason metadata,
      at_most sel logging
        (emit (EvLogUnanswered question s reason metadata))) ->
  (forall s text,
      at_most sel answer_turn (save_message s (u "assistant") text)) ->
  at_most sel (search + (user_turn + (generation + (logging + answer_turn))))
    (generate_chat_response message session_id).
Proof.
  intros Hsearch Huser Hgeneration Hlogging Hanswer.
  set (total := (search + (user_turn
                           + (generation + (logging + answer_turn))))%nat).
  unfold generate_chat_response.
  bound 0%nat total.
  { apply silent_at_most.
    destruct (match session_id with Some _ => _ | None => _ end);
      [apply silent_new_uuid | apply silent_ret]. }
  intros sid. bound 0%nat total.
  { apply silent_at_most. destruct (negb _); [|apply silent_ret].
    apply silent_bind; [apply silent_get_session_messages|]. intros ?.
    apply silent_bind; [apply silent_build_conversation_history|].
    intros ?. apply silent_ret. }
  intros [history_text history_dicts].
  subst total.
  apply at_most_bind; [apply Hsearch|]. intros found.
  destruct found as [e|docs]; cbv zeta beta iota;
    (destruct (negb (is_arabic_text message));
     [bound answer_turn 0%nat; [apply Hanswer|];
      intros ?; apply at_most_ret|]);
    rewrite decline_condition_false;
    (apply at_most_bind; [apply Huser|]; intros _;
     apply at_most_bind; [apply Hgeneration|]; intros answer;
     apply at_most_bind;
     [match goal with
      | |- at_most _ _ (if ?c then _ else _) =>
        destruct c; [apply Hlogging | apply at_most_ret]
      end|];
     intros _;
     bound answer_turn 0%nat; [apply Hanswer|];
     intros ?; apply at_most_ret).
Qed.

(** X21. One call of [generate_chat_response] costs at most three
    embedding requests, one index query, three completion requests, four
    sleeps (two in each retry loop), three writes to the store and one
    entry of the unanswered-questions log. *)
Theorem X21_cost_of_a_turn (message : pystr) (session_id : option pystr) :
  at_most is_embedding_request 3 (generate_chat_response message session_id)
  /\ at_most is_index_query 1 (generate_chat_response message session_id)
  /\ at_most is_completion 3 (generate_chat_response message session_id)
  /\ at_most is_sleep 4 (generate_chat_response message session_id)
  /\ at_most is_write 3 (generate_chat_response message session_id)
  /\ at_most is_log 1 (generate_chat_response message session_id).
Proof.
  repeat split.
  - apply (generate_chat_response_at_most _ 3 0 0 0 0).
    + apply hybrid_search_requests.
    + intros. by apply silent_at_most, silent_save_message.
    + intros. by apply silent_at_most, silent_generate_answer.
    + intros. by apply silent_at_most, silent_emit.
    + intros. by apply silent_at_most, silent_save_message.
  - apply (generate_chat_response_at_most _ 1 0 0 0 0).
    + apply hybrid_search_queries.
    + intros. by apply silent_at_most, silent_save_message.
    + intros. by apply silent_at_most, silent_generate_answer.
    + intros. by apply silent_at_most, silent_emit.
    + intros. by apply silent_at_most, silent_save_message.
  - apply (generate_chat_response_at_most _ 0 0 3 0 0).
    + intros. by apply silent_at_most, silent_hybrid_search.
    + intros. by apply silent_at_most, silent_save_message.
    + intros. apply generate_answer_requests.
    + intros. by apply silent_at_most, silent_emit.
    + intros. by apply silent_at_most, silent_save_message.
  - apply (generate_chat_response_at_most _ 2 0 2 0 0).
    + apply hybrid_search_sleeps.
    + intros. by apply silent_at_most, silent_save_message.
    + intros. apply generate_answer_sleeps.
    + intros. by apply silent_at_most, silent_emit.
    + intros. by apply silent_at_most, silent_save_message.
  - apply (generate_chat_response_at_most _ 0 1 0 0 2).
    + intros. by apply silent_at_most, silent_hybrid_search.
    + intros. apply (save_message_writes s (u "user") text).
    + intros. by apply silent_at_most, silent_generate_answer.
    + intros. by apply silent_at_most, silent_emit.
    + intros. apply (save_message_writes s (u "assistant") text).
  - apply (generate_chat_response_at_most _ 0 0 0 1 0).
    + intros. by apply silent_at_most, silent_hybrid_search.
    + intros. by apply silent_at_most, silent_save_message.
    + intros. by apply silent_at_most, silent_generate_answer.
    + intros. apply at_most_emit.
    + intros. by apply silent_at_most, silent_save_message.
Qed.

(** ** The generation loop *)

(** The run of [generate_answer] that starts at attempt [attempt] with
    [retries_left] retries in hand. *)
Lemma generate_answer_run (messages_for_llm : list chat_message)
    (retries_left : nat) :
  forall (attempt : nat) (w : world),
  exists retries : nat,
    (retries <= retries_left)%nat
    /\ trace (snd (generate_answer messages_for_llm retries_left attempt w))
       = trace w
         ++ flat_map (fun i => [EvChatCompletion messages_for_llm; EvSleep i])
              (seq attempt retries)
         ++ [EvChatCompletion messages_for_llm]
    /\ (forall i, (attempt <= i < attempt + retries)%nat ->
          exists e, chat_completions_create messages_for_llm i = inl e
                    /\ is_rate_limit_error e = true)
    /\ match chat_completions_create messages_for_llm (attempt + retries) with
       | inr content =>
         fst (generate_answer messages_for_llm retries_left attempt w)
         = strip_citations content
       | inl e =>
         if is_rate_limit_error e
         then retries = retries_left
              /\ fst (generate_answer messages_for_llm retries_left attempt w)
                 = rate_limit_answer
         else fst (generate_answer messages_for_llm retries_left attempt w)
              = llm_error_answer
       end.
Proof.
  induction retries_left as [|r IH]; intros attempt w;
    cbn [generate_answer]; rewrite run_bind.
  - exists 0%nat. rewrite Nat.add_0_r. split; [lia|]. split.
    { destruct (chat_completions_create _ _) as [e|content]; [|reflexivity].
      by destruct (is_rate_limit_error e). }
    split; [intros i Hi; lia|].
    destruct (chat_completions_create _ _) as [e|content]; [|reflexivity].
    by destruct (is_rate_limit_error e).
  - destruct (chat_completions_create messages_for_llm attempt)
      as [e|content] eqn:Hcreate.
    + destruct (is_rate_limit_error e) eqn:Hrate.
      * rewrite run_bind.
        destruct (IH (S attempt)
                    (snd (emit (EvSleep attempt)
                            (snd (emit (EvChatCompletion messages_for_llm)
                                    w)))))
          as (k & Hk & Htrace & Hlimited & Houtcome).
        exists (S k). split; [lia|]. split.
        { rewrite Htrace. simpl. by rewrite <- !app_assoc. }
        split.
        { intros i Hi. destruct (decide (i = attempt)) as [->|Hne];
            [eauto|]. apply Hlimited. lia. }
        replace (attempt + S k)%nat with (S attempt + k)%nat by lia.
        destruct (chat_completions_create _ (S attempt + k)) as [e'|content];
          [|exact Houtcome].
        destruct (is_rate_limit_error e'); [|exact Houtcome].
        destruct Houtcome as [-> Hanswer]. by split.
      * exists 0%nat. rewrite Nat.add_0_r, Hcreate, Hrate.
        split; [lia|]. split; [reflexivity|]. split; [intros; lia|done].
    + exists 0%nat. rewrite Nat.add_0_r, Hcreate.
      split; [lia|]. split; [reflexivity|]. split; [intros; lia|done].
Qed.

(** X18. The generation step of [generate_chat_response] (Step 6)
    asks for a completion, and again after a sleep for as long as the
    model answers with a rate-limit error, at most twice more.  It
    returns the cleaned text of the first completion obtained, the
    rate-limit apology when the third attempt is rate-limited too, and
    the error apology as soon as an attempt fails for another reason;
    every request carries the same messages and the store is not
    touched. *)
Theorem X18_generation_attempts (messages_for_llm : list chat_message)
    (w : world) :
  let '(answer, w') := generate_answer messages_for_llm 2 0 w in
  container w' = container w
  /\ exists retries : nat,
       (retries <= 2)%nat
       /\ trace w'
          = trace w
            ++ flat_map
                 (fun i => [EvChatCompletion messages_for_llm; EvSleep i])
                 (seq 0 retries)
            ++ [EvChatCompletion messages_for_llm]
       /\ (forall i, (i < retries)%nat ->
             exists e, chat_completions_create messages_for_llm i = inl e
                       /\ is_rate_limit_error e = true)
       /\ match chat_completions_create messages_for_llm retries with
          | inr content => answer = strip_citations content
          | inl e =>
            if is_rate_limit_error e
            then retries = 2%nat /\ answer = rate_limit_answer
            else answer = llm_error_answer
          end.
Proof.
  pose proof (reads_only_generate_answer messages_for_llm 2 0 w) as Hstore.
  destruct (generate_answer_run messages_for_llm 2 0 w)
    as (k & Hk & Htrace & Hlimited & Houtcome).
  destruct (generate_answer messages_for_llm 2 0 w) as [answer w'].
  cbn [fst snd] in *. split; [exact Hstore|].
  exists k. split; [exact Hk|]. split; [exact Htrace|].
  split; [intros i Hi; apply Hlimited; lia | exact Houtcome].
Qed.

(** ** The conversation history *)

Lemma mapM_drop {A B} (f : A -> option B) (n : nat) (l : list A)
    (k : list B) :
  mapM f l = Some k -> mapM f (drop n l) = Some (drop n k).
Proof.
  rewrite !mapM_Some. intros H. by apply Forall2_drop.
Qed.

(** X22. [build_conversation_history] lists the messages newest
    first: when the stored messages of the session are all acceptable,
    the first line after the header is the message stored last.  (The
    reversal is applied to a list that [get_session_messages] returns in
    stored order.) *)
Theorem X22_history_newest_first (session_id : pystr) (max_turns : Z)
    (w : world) (messages : list message) (older : list Message)
    (last : Message) :
  0 < max_turns ->
  session_messages w session_id = Some messages ->
  mapM to_Message messages = Some (older ++ [last]) ->
  exists rest,
    fst (build_conversation_history session_id max_turns w)
    = u "Conversation History:" ++ nl ++ history_line last ++ rest.
Proof.
  intros Hturns Hm Hall. unfold build_conversation_history.
  rewrite run_bind, (get_session_messages_window _ _ _ _ Hm).
  cbn [fst snd]. unfold slice_last.
  assert (Hpos : (0 <? max_turns * 2) = true) by lia. rewrite Hpos.
  rewrite (mapM_drop _ _ _ _ Hall). cbn [default]. unfold id.
  assert (Hlen : length messages = S (length older)).
  { apply length_mapM in Hall. rewrite length_app in Hall. simpl in Hall.
    lia. }
  rewrite drop_app_le by lia.
  set (window := drop _ older).
  destruct (window ++ [last]) as [|first others] eqn:Hwindow;
    [by destruct window|].
  rewrite <- Hwindow. rewrite rev_app_distr. cbn [rev app map].
  fold (history_line last).
  unfold ret. cbn [fst join].
  destruct (map _ (rev window)) as [|line lines].
  - exists nl. by rewrite <- !app_assoc.
  - eexists. rewrite <- !app_assoc. reflexivity.
Qed.

(** ** The routes *)

(** X23. The feedback route answers with the message id exactly when
    [save_feedback] returned a non-empty id: the rating is then stored
    and the cached statistics are a recount of the session.  Every other
    outcome is status 500, reached with whatever
    [update_message_feedback] left behind and no recount.  On a store
    whose messages all carry an [id], status 500 for a non-empty message
    id means that nothing was changed; without that, the rating may have
    been stored before the verification loop failed. *)
Theorem X23_submit_feedback (session_id message_id rating : pystr)
    (w : world) :
  let '(outcome, w') := submit_feedback session_id message_id rating w in
  match outcome with
  | Reply feedback_id =>
    feedback_id = message_id
    /\ message_id <> []
    /\ fst (update_message_feedback session_id message_id (VStr rating) w)
       = true
    /\ exists messages st,
         session_messages w' session_id = Some messages
         /\ fst (get_feedback_statistics session_id w') = Some st
         /\ stats_counts st = update_count messages
  | HttpError status_code =>
    status_code = 500
    /\ (message_id <> [] ->
        fst (update_message_feedback session_id message_id (VStr rating) w)
        = false
        /\ w' = snd (update_message_feedback session_id message_id
                       (VStr rating) w))
    /\ (message_id <> [] -> every_doc ids_present w -> w' = w)
  end.
Proof.
  unfold submit_feedback. rewrite run_bind.
  unfold get_container at 1 2. cbn [fst snd].
  destruct (container w) as [store|] eqn:Hc.
  2: { unfold ret. split; [reflexivity|].
       assert (Hrun : update_message_feedback session_id message_id
                        (VStr rating) w = (false, w))
         by (unfold update_message_feedback, bind, get_container;
             by rewrite Hc).
       rewrite Hrun. done. }
  rewrite run_bind.
  destruct (fst (update_message_feedback session_id message_id
                   (VStr rating) w)) eqn:Hok.
  - destruct (save_feedback_accepted _ _ _ _ Hok) as (Hid & Hstats).
    destruct (save_feedback session_id message_id rating w)
      as [feedback_id w'].
    cbn [fst snd] in *. subst feedback_id.
    destruct (truthy message_id) eqn:Htruthy; unfold ret.
    + split; [reflexivity|]. split; [|by split].
      intros ->. discriminate.
    + split; [reflexivity|].
      split; intros Hid; destruct message_id; done.
  - rewrite (save_feedback_rejected _ _ _ _ Hok). cbn [fst snd truthy].
    unfold ret. split; [reflexivity|]. split; [done|].
    intros _ Hids. by apply update_message_feedback_unchanged.
Qed.

(** X24. The history route changes nothing and never returns a
    message: its reply is the empty list when [get_session_messages]
    returns none (store unavailable, session unknown, or a stored message
    rejected), and status 500 as soon as there is a message to show,
    because the loop reads [msg.sources].  In particular a session whose
    stored messages are all acceptable and not empty gets status 500. *)
Theorem X24_history_route (session_id : pystr) (w : world) :
  let '(outcome, w') := get_conversation_history session_id w in
  w' = w
  /\ (outcome = Reply [] \/ outcome = HttpError 500)
  /\ (outcome = Reply []
      <-> fst (get_session_messages session_id 50 w) = [])
  /\ (forall msg messages,
        every_doc messages_valid w ->
        session_messages w session_id = Some (msg :: messages) ->
        outcome = HttpError 500).
Proof.
  unfold get_conversation_history. rewrite run_bind.
  assert (Hsame : snd (get_session_messages session_id 50 w) = w).
  { pose proof (get_session_messages_window session_id 50 w) as Hwindow.
    destruct (session_messages w session_id) as [messages|] eqn:Hm;
      [by rewrite (Hwindow messages eq_refl)|].
    unfold session_messages in Hm.
    unfold get_session_messages, bind, get_container, read_item, ret.
    destruct w as [[c|] n tr]; simpl in *; [|done].
    by destruct (c !! session_id). }
  rewrite Hsame.
  destruct (fst (get_session_messages session_id 50 w))
    as [|first others] eqn:Hread; cbn [mapM Message_sources mbind option_bind].
  - unfold ret. split; [done|]. split; [by left|]. split; [done|].
    intros msg messages Hvalid Hm. exfalso.
    rewrite (get_session_messages_window _ _ _ _ Hm) in Hread.
    cbn [fst] in Hread.
    assert (Hall : Forall (fun m => is_Some (to_Message m))
                     (slice_last 50 (msg :: messages))).
    { unfold slice_last. cbn [Z.ltb Z.compare]. apply Forall_drop.
      unfold session_messages in Hm.
      destruct (container w) as [c|] eqn:Hc; simpl in Hm; [|done].
      destruct (c !! session_id) as [doc|] eqn:Hdoc; simpl in Hm; [|done].
      injection Hm as Hm. rewrite <- Hm. apply (Hvalid session_id doc).
      unfold stored_docs. by rewrite Hc. }
    apply mapM_is_Some in Hall. destruct Hall as [converted Hconverted].
    rewrite Hconverted in Hread. cbn [default] in Hread. unfold id in Hread.
    subst converted. apply length_mapM in Hconverted.
    unfold slice_last in Hconverted. cbn [Z.ltb Z.compare] in Hconverted.
    rewrite length_drop in Hconverted. simpl in Hconverted. lia.
  - unfold ret. split; [done|]. split; [by right|]. split; [done|].
    by intros.
Qed.

Lemma update_feedback_statistics_reply (session_id : pystr) (w : world)
    (messages : list message) :
  session_messages w session_id = Some messages ->
  exists st,
    fst (update_feedback_statistics session_id w) = Some st
    /\ stats_counts st = update_count messages.
Proof.
  unfold session_messages. intros Hm.
  destruct (container w) as [store|] eqn:Hc; simpl in Hm; [|done].
  destruct (store !! session_id) as [doc|] eqn:Hdoc; simpl in Hm; [|done].
  injection Hm as <-.
  destruct (update_feedback_statistics_store session_id w store doc Hc Hdoc)
    as (st & Hst & Hcounts & _).
  eauto.
Qed.

Lemma statistics_routes_unavailable (session_id : pystr) (w : world) :
  container w = None ->
  Forall (fun route : pystr -> M (reply (pystr * option statistics)) =>
            route session_id w = (HttpError 500, w))
    [get_feedback_statistics_route; force_update_feedback_statistics;
     recalculate_feedback_statistics].
Proof.
  intros Hc.
  repeat constructor;
    unfold get_feedback_statistics_route, force_update_feedback_statistics,
      recalculate_feedback_statistics, bind, get_container;
    by rewrite Hc.
Qed.

Lemma statistics_routes_available (session_id : pystr) (w : world) :
  is_Some (container w) ->
  fst (get_feedback_statistics_route session_id w)
  = Reply (session_id,
           match fst (get_feedback_statistics session_id w) with
           | Some st => Some st
           | None => fst (update_feedback_statistics session_id w)
           end)
  /\ fst (force_update_feedback_statistics session_id w)
     = Reply (session_id, fst (update_feedback_statistics session_id w))
  /\ fst (recalculate_feedback_statistics session_id w)
     = Reply (session_id, fst (update_feedback_statistics session_id w)).
Proof.
  intros [store Hc]. repeat split.
  - unfold get_feedback_statistics_route, bind, get_container.
    rewrite Hc. unfold get_feedback_statistics, bind, read_item, ret.
    rewrite Hc. cbn [fst snd mbind option_bind].
    destruct (store !! session_id ≫= doc_feedback_statistics); [done|].
    by destruct (update_feedback_statistics session_id w).
  - unfold force_update_feedback_statistics, force_update_statistics, bind,
      get_container.
    rewrite Hc. by destruct (update_feedback_statistics session_id w).
  - unfold recalculate_feedback_statistics, bind, get_container.
    rewrite Hc, recalculate_is_update.
    by destruct (update_feedback_statistics session_id w).
Qed.

(** X25. On a store whose cached statistics are recounts of the stored
    messages, the three statistics routes agree: for a session that
    exists each replies with statistics whose four counts are the recount
    of its messages, whether they are read from the cache, updated or
    recalculated; for an unknown session each replies with empty
    statistics; with the store unavailable each gives status 500. *)
Theorem X25_statistics_routes_agree (session_id : pystr) (w : world) :
  every_doc stats_ok w ->
  Forall (fun route : pystr -> M (reply (pystr * option statistics)) =>
            match container w, session_messages w session_id with
            | None, _ => route session_id w = (HttpError 500, w)
            | Some _, None => fst (route session_id w)
                              = Reply (session_id, None)
            | Some _, Some messages =>
              exists st,
                fst (route session_id w) = Reply (session_id, Some st)
                /\ stats_counts st = update_count messages
            end)
    [get_feedback_statistics_route; force_update_feedback_statistics;
     recalculate_feedback_statistics].
Proof.
  intros Hstats.
  destruct (container w) as [store|] eqn:Hc;
    [|by apply statistics_routes_unavailable].
  destruct (statistics_routes_available session_id w)
    as (Hcached & Hforce & Hrecalculate); [by rewrite Hc; eauto|].
  destruct (session_messages w session_id) as [messages|] eqn:Hm.
  - destruct (update_feedback_statistics_reply _ _ _ Hm)
      as (st & Hst & Hcounts).
    repeat constructor.
    + rewrite Hcached.
      destruct (fst (get_feedback_statistics session_id w))
        as [cached|] eqn:Hread; [|rewrite Hst; eauto].
      exists cached. split; [reflexivity|].
      unfold get_feedback_statistics, bind, read_item, ret in Hread.
      unfold session_messages in Hm. rewrite Hc in *. simpl in *.
      destruct (store !! session_id) as [doc|] eqn:Hdoc; simpl in *; [|done].
      injection Hm as <-.
      specialize (Hstats session_id doc). unfold stored_docs in Hstats.
      rewrite Hc in Hstats. specialize (Hstats Hdoc).
      unfold stats_ok in Hstats. by rewrite Hread in Hstats.
    + rewrite Hforce, Hst. eauto.
    + rewrite Hrecalculate, Hst. eauto.
  - assert (Habsent : container w ≫= (fun c => c !! session_id) = None).
    { unfold session_messages in Hm. rewrite Hc in *. simpl in *.
      by destruct (store !! session_id). }
    assert (Hread : fst (get_feedback_statistics session_id w) = None).
    { unfold get_feedback_statistics, bind, read_item, ret. simpl.
      by rewrite Habsent. }
    rewrite (update_feedback_statistics_absent _ _ Habsent)
      in Hcached, Hforce, Hrecalculate.
    rewrite Hread in Hcached.
    repeat constructor; assumption.
Qed.

(** ** The embedding loop *)

Lemma generate_embeddings_loop_step (texts : list pystr) (max_retries : Z)
    (remaining attempt : nat) :
  generate_embeddings_loop texts max_retries (S remaining) attempt
  = (emit (EvEmbeddingsCreate texts) ;;;
     match embeddings_create texts attempt with
     | inr data => ret (Some (inr data))
     | inl e =>
       if is_rate_limit_error e then
         if Z.of_nat attempt <? max_retries - 1 then
           emit (EvSleep attempt) ;;;
           generate_embeddings_loop texts max_retries remaining (S attempt)
         else
           ret (Some (inl (u "Rate limit exceeded. Please try again later. Original error: " ++ e)))
       else ret (Some (inl e))
     end).
Proof. reflexivity. Qed.

(** The run of the retry loop of [generate_embeddings] from attempt
    [attempt], when the iterations left are those of [range(max_retries)]
    from [attempt] on. *)
Lemma generate_embeddings_loop_run (texts : list pystr) (max_retries : Z)
    (remaining : nat) :
  forall (attempt : nat) (w : world),
  Z.of_nat attempt + Z.of_nat (S remaining) = max_retries ->
  exists retries : nat,
    Z.of_nat (attempt + retries) < max_retries
    /\ trace (snd (generate_embeddings_loop texts max_retries (S remaining)
                     attempt w))
       = trace w
         ++ flat_map (fun i => [EvEmbeddingsCreate texts; EvSleep i])
              (seq attempt retries)
         ++ [EvEmbeddingsCreate texts]
    /\ (forall i, (attempt <= i < attempt + retries)%nat ->
          exists e, embeddings_create texts i = inl e
                    /\ is_rate_limit_error e = true)
    /\ fst (generate_embeddings_loop texts max_retries (S remaining)
              attempt w)
       = Some match embeddings_create texts (attempt + retries) with
              | inr data => inr data
              | inl e =>
                if is_rate_limit_error e
                then inl (u "Rate limit exceeded. Please try again later. Original error: " ++ e)
                else inl e
              end
    /\ (forall e, embeddings_create texts (attempt + retries) = inl e ->
          is_rate_limit_error e = true ->
          Z.of_nat (attempt + retries) = max_retries - 1).
Proof.
  induction remaining as [|r IH]; intros attempt w Hrange;
    rewrite generate_embeddings_loop_step, run_bind.
  - exists 0%nat. rewrite Nat.add_0_r.
    assert (Hlast : (Z.of_nat attempt <? max_retries - 1) = false) by lia.
    rewrite Hlast.
    split; [lia|]. split.
    { destruct (embeddings_create _ _) as [e|data]; [|reflexivity].
      by destruct (is_rate_limit_error e). }
    split; [intros i Hi; lia|]. split.
    { destruct (embeddings_create _ _) as [e|data]; [|reflexivity].
      by destruct (is_rate_limit_error e). }
    intros; lia.
  - assert (Hmore : (Z.of_nat attempt <? max_retries - 1) = true) by lia.
    rewrite Hmore.
    destruct (embeddings_create texts attempt) as [e|data] eqn:Hcreate.
    + destruct (is_rate_limit_error e) eqn:Hrate.
      * rewrite run_bind.
        destruct (IH (S attempt)
                    (snd (emit (EvSleep attempt)
                            (snd (emit (EvEmbeddingsCreate texts) w)))))
          as (k & Hk & Htrace & Hlimited & Hresult & Hlast); [lia|].
        exists (S k).
        replace (attempt + S k)%nat with (S attempt + k)%nat by lia.
        split; [lia|]. split.
        { rewrite Htrace. simpl. by rewrite <- !app_assoc. }
        split.
        { intros i Hi. destruct (decide (i = attempt)) as [->|Hne];
            [eauto|]. apply Hlimited. lia. }
        split; [exact Hresult | exact Hlast].
      * exists 0%nat. rewrite Nat.add_0_r, Hcreate, Hrate.
        split; [lia|]. split; [reflexivity|]. split; [intros; lia|].
        split; [reflexivity|]. intros e' [= <-]. congruence.
    + exists 0%nat. rewrite Nat.add_0_r, Hcreate.
      split; [lia|]. split; [reflexivity|]. split; [intros; lia|].
      split; [reflexivity|]. intros; discriminate.
Qed.

(** X26. [generate_embeddings] on a non-empty list, whatever
    [max_retries] is.  With [max_retries >= 1] it sends the same request
    again, after a sleep, for as long as the service answers with a
    rate-limit error and attempts are left; the first other outcome
    decides: the vectors, or the error raised again unchanged, or, when
    the last attempt is rate-limited too, the error wrapped in the
    rate-limit message.  With [max_retries <= 0] it sends nothing and
    falls off the loop, returning [None]. *)
Theorem X26_generate_embeddings (text : pystr) (rest : list pystr)
    (max_retries : Z) (w : world) :
  let texts := text :: rest in
  let '(outcome, w') := generate_embeddings texts max_retries w in
  container w' = container w
  /\ if 0 <? max_retries
     then exists retries : nat,
         Z.of_nat retries < max_retries
         /\ trace w'
            = trace w
              ++ flat_map (fun i => [EvEmbeddingsCreate texts; EvSleep i])
                   (seq 0 retries)
              ++ [EvEmbeddingsCreate texts]
         /\ (forall i, (i < retries)%nat ->
               exists e, embeddings_create texts i = inl e
                         /\ is_rate_limit_error e = true)
         /\ outcome
            = Some match embeddings_create texts retries with
                   | inr data => inr data
                   | inl e =>
                     if is_rate_limit_error e
                     then inl (u "Rate limit exceeded. Please try again later. Original error: " ++ e)
                     else inl e
                   end
         /\ (forall e, embeddings_create texts retries = inl e ->
               is_rate_limit_error e = true ->
               Z.of_nat retries = max_retries - 1)
     else outcome = None /\ w' = w.
Proof.
  cbv zeta. unfold generate_embeddings.
  pose proof (reads_only_generate_embeddings_loop (text :: rest) max_retries
                (Z.to_nat max_retries) 0 w) as Hstore.
  destruct (0 <? max_retries) eqn:Hpos.
  - destruct (Z.to_nat max_retries) as [|remaining] eqn:Hn; [lia|].
    destruct (generate_embeddings_loop_run (text :: rest) max_retries
                remaining 0 w)
      as (k & Hk & Htrace & Hlimited & Hresult & Hlast); [lia|].
    destruct (generate_embeddings_loop _ _ _ _ w) as [outcome w'].
    cbn [fst snd] in *. split; [exact Hstore|].
    exists k. split; [exact Hk|]. split; [exact Htrace|].
    split; [intros i Hi; apply Hlimited; lia|].
    split; [exact Hresult | exact Hlast].
  - assert (Hn : Z.to_nat max_retries = 0%nat) by lia.
    rewrite Hn. by split.
Qed.

(** ** Chunking *)

Lemma slice_lookup {A} (a b : Z) (l : list A) (j : nat) (x : A) :
  0 <= a <= Z.of_nat j -> Z.of_nat j < b ->
  l !! j = Some x ->
  slice a b l !! (j - Z.to_nat a)%nat = Some x.
Proof.
  intros Ha Hb Hx. pose proof (lookup_lt_Some _ _ _ Hx) as Hj.
  unfold slice, slice_bound.
  assert (Ha0 : (a <? 0) = false) by lia.
  assert (Hb0 : (b <? 0) = false) by lia.
  rewrite Ha0, Hb0.
  rewrite lookup_take_lt by lia. rewrite lookup_drop.
  replace (Z.to_nat (Z.min a (Z.of_nat (length l))) + (j - Z.to_nat a))%nat
    with j by lia.
  exact Hx.
Qed.

Lemma chunk_loop_windows (words : list pystr) (max_tokens step : Z) :
  0 < step ->
  forall (fuel : nat) (i : Z),
    (Z.to_nat ((Z.of_nat (length words) - i + step - 1) / step) <= fuel)%nat ->
    chunk_loop fuel words max_tokens step i
    = Some (map (fun k : nat =>
                   join (u " ")
                     (slice (i + Z.of_nat k * step)
                        (i + Z.of_nat k * step + max_tokens) words))
              (seq 0 (Z.to_nat ((Z.of_nat (length words) - i + step - 1)
                                / step)))).
Proof.
  intros Hstep. set (n := Z.of_nat (length words)).
  assert (Hdone : forall i, n <= i -> (n - i + step - 1) / step <= 0).
  { intros i Hi.
    assert ((n - i + step - 1) / step < 1); [|lia].
    apply Z.div_lt_upper_bound; lia. }
  assert (Hmore : forall i, i < n ->
             (n - i + step - 1) / step
             = (n - (i + step) + step - 1) / step + 1
             /\ 0 <= (n - (i + step) + step - 1) / step).
  { intros i Hi.
    replace (n - i + step - 1) with (n - (i + step) + step - 1 + 1 * step)
      by lia.
    rewrite Z.div_add by lia. split; [reflexivity|].
    apply Z.div_pos; lia. }
  induction fuel as [|fuel IH]; intros i Hfuel; cbn [chunk_loop]; fold n.
  - destruct (i <? n) eqn:Hi.
    + destruct (Hmore i) as [Heq Hpos]; lia.
    + replace (Z.to_nat ((n - i + step - 1) / step)) with 0%nat; [done|].
      pose proof (Hdone i). lia.
  - destruct (i <? n) eqn:Hi.
    + destruct (Hmore i) as [Heq Hpos]; [lia|].
      rewrite IH by lia. cbn [mbind option_bind]. rewrite Heq.
      replace (Z.to_nat ((n - (i + step) + step - 1) / step + 1))
        with (S (Z.to_nat ((n - (i + step) + step - 1) / step))) by lia.
      cbn [seq map]. f_equal. f_equal.
      * by rewrite Z.add_0_r.
      * rewrite <- seq_shift, map_map. apply map_ext. intros k.
        by replace (i + Z.of_nat (S k) * step)
             with (i + step + Z.of_nat k * step) by lia.
    + replace (Z.to_nat ((n - i + step - 1) / step)) with 0%nat; [done|].
      pose proof (Hdone i). lia.
Qed.

(** X27. With [overlap_tokens < max_tokens] the loop of [chunk_text]
    ends within as many iterations as the text has words, and the chunks
    are the windows [words[k*step : k*step + max_tokens]] for
    [k = 0, 1, ...] up to the end of the words, each joined by single
    spaces, where [step = max_tokens - overlap_tokens].  When moreover
    [overlap_tokens >= 0], no word is lost: word [j] of the text is in
    window [j / step]. *)
Theorem X27_chunk_text_windows (text : pystr) (max_tokens overlap_tokens : Z)
    (fuel : nat) :
  overlap_tokens < max_tokens ->
  (length (split text) <= fuel)%nat ->
  let words := split text in
  let step := max_tokens - overlap_tokens in
  chunk_text fuel text max_tokens overlap_tokens
  = Some (map (join (u " ")) (chunk_windows words max_tokens step))
  /\ (0 <= overlap_tokens ->
      forall (j : nat) (word : pystr),
        words !! j = Some word ->
        exists window,
          chunk_windows words max_tokens step
            !! Z.to_nat (Z.of_nat j / step) = Some window
          /\ window !! (j - Z.to_nat (Z.of_nat j / step * step))%nat
             = Some word).
Proof.
  intros Hoverlap Hfuel. cbv zeta.
  set (words := split text) in *. set (step := max_tokens - overlap_tokens).
  assert (Hstep : 0 < step) by (subst step; lia).
  set (n := Z.of_nat (length words)).
  assert (Hcount : (n + step - 1) / step <= n).
  { assert ((n + step - 1) / step < n + 1); [|lia].
    apply Z.div_lt_upper_bound; nia. }
  split.
  - unfold chunk_text, chunk_windows. fold words. fold n.
    destruct words as [|word rest] eqn:Hwords.
    + subst n. cbn [length]. by rewrite Z.div_small by lia.
    + rewrite <- Hwords. fold step.
      rewrite (chunk_loop_windows words max_tokens step Hstep).
      * rewrite Z.sub_0_r, map_map, Hwords. reflexivity.
      * rewrite Z.sub_0_r, Hwords. subst n. lia.
  - intros Hnonneg j word Hword.
    pose proof (lookup_lt_Some _ _ _ Hword) as Hj.
    set (k := Z.of_nat j / step).
    assert (Hk : 0 <= k) by (apply Z.div_pos; lia).
    assert (Hlow : k * step <= Z.of_nat j).
    { rewrite Z.mul_comm. apply Z.mul_div_le. lia. }
    assert (Hhigh : Z.of_nat j < k * step + step).
    { pose proof (Z.mod_pos_bound (Z.of_nat j) step Hstep).
      pose proof (Z.div_mod (Z.of_nat j) step). subst k. lia. }
    assert (Hbelow : k < (n + step - 1) / step).
    { assert (k + 1 <= (n + step - 1) / step); [|lia].
      apply Z.div_le_lower_bound; [lia|]. subst n. nia. }
    eexists. split.
    + unfold chunk_windows. fold n. rewrite list_lookup_fmap.
      rewrite lookup_seq_lt by lia. cbn [fmap option_fmap option_map].
      reflexivity.
    + cbn [Nat.add]. rewrite Z2Nat.id by lia.
      apply slice_lookup; [lia | subst step; lia | exact Hword].
Qed.

(** X28. With [overlap_tokens >= max_tokens] the index of the loop of
    [chunk_text] never passes the end of the words: on a text with at
    least one word no number of iterations is enough. *)
Theorem X28_chunk_text_never_ends (text : pystr)
    (max_tokens overlap_tokens : Z) (fuel : nat) :
  max_tokens <= overlap_tokens ->
  split text <> [] ->
  chunk_text fuel text max_tokens overlap_tokens = None.
Proof.
  intros Hstep Hwords. unfold chunk_text.
  destruct (split text) as [|word rest] eqn:Hsplit; [done|].
  assert (Hloop : forall i, i <= 0 ->
             chunk_loop fuel (word :: rest) max_tokens
               (max_tokens - overlap_tokens) i = None).
  { induction fuel as [|fuel IH]; intros i Hi; cbn [chunk_loop length];
      assert (Hin : (i <? Z.of_nat (S (length rest))) = true)
        by (apply Z.ltb_lt; lia);
      rewrite Hin; [reflexivity|].
    by rewrite IH by lia. }
  by apply Hloop.
Qed.

End Model.

Arguments Reply {A} body.
Arguments HttpError {A} status_code.

(** * Examples on concrete inputs *)

Section Examples.
#[local] Existing Instance sample_unicode.
#[local] Existing Instance rational_float.
#[local] Existing Instance sample_services.

Example split_runs_of_spaces :
  split (u "  ab  cd e ") = [u "ab"; u "cd"; u "e"].
Proof. reflexivity. Qed.

Example replace_leftmost : replace (u "aa") (u "b") (u "aaa") = u "ba".
Proof. reflexivity. Qed.

Example slice_last_cases :
  (slice_last 1 [1; 2; 3], slice_last 0 [1; 2; 3], slice_last 5 [1; 2; 3],
   slice_last (-2) [1; 2; 3])
  = ([3], [1; 2; 3], [1; 2; 3], [3]).
Proof. reflexivity. Qed.

Example str_of_nat_1234 : str_of_nat 1234 = u "1234".
Proof. vm_compute. reflexivity. Qed.

Example normalize_query_folds_letters :
  normalize_query (u "ما  هي مجلة الدوحة") = u "ما هى مجله الدوحه".
Proof. vm_compute. reflexivity. Qed.

Example dialect_word_is_kept :
  add_dialect_support (u "وين المقال") = u "أين المقال وين".
Proof. vm_compute. reflexivity. Qed.

Example greeting_is_basic : is_basic_conversation (u "مرحبا") = true.
Proof. vm_compute. reflexivity. Qed.

Example english_is_not_arabic : is_arabic_text (u "what is new?") = false.
Proof. vm_compute. reflexivity. Qed.

(** Three assistant messages, rated up, never rated and cleared, and one
    user message. *)
Example update_count_example :
  update_count
    [ <["role" := VStr (u "assistant")]> (<["feedback" := VStr (u "up")]> ∅);
      <["role" := VStr (u "assistant")]> ∅;
      <["role" := VStr (u "user")]> ∅;
      <["role" := VStr (u "assistant")]> (<["feedback" := VNone]> ∅) ]
  = (1, 0, 1, 3).
Proof. vm_compute. reflexivity. Qed.

(** Feedback aimed at a user message fails and leaves the world as it is. *)
Example feedback_on_user_message :
  let '(message_id, w) :=
    save_message (u "s-1") (u "user") (u "مرحبا") fresh_world in
  update_message_feedback (u "s-1") message_id (VStr (u "up")) w = (false, w).
Proof. vm_compute. reflexivity. Qed.

(** Feedback aimed at an assistant message is stored. *)
Example feedback_on_assistant_message :
  let '(message_id, w) :=
    save_message (u "s-1") (u "assistant") (u "أهلا") fresh_world in
  let '(ok, w') :=
    update_message_feedback (u "s-1") message_id (VStr (u "down")) w in
  ok = true
  /\ fst (get_session_messages (u "s-1") 1 w')
     = [ {| msg_id := message_id; msg_role := u "assistant";
            msg_text := u "أهلا"; msg_feedback := Some (u "down") |} ].
Proof. vm_compute. split; reflexivity. Qed.

(** C4, refuted as stated: the message [hello] has no Arabic character,
    yet the run issues the embedding request and the index query. *)
Lemma C4_retrieval_not_skipped :
  not_mostly_arabic (u "hello")
  /\ events_of is_retrieval
       (snd (generate_chat_response (u "hello") None fresh_world))
     = [EvEmbeddingsCreate [u "hello"]; EvIndexSearch (u "hello") 8].
Proof.
  split; [right|]; vm_compute; reflexivity.
Qed.

Lemma C4_non_arabic_redirect_witness :
  not_mostly_arabic (u "hello")
  /\ let '((answer, sources, _, _), w') :=
       generate_chat_response (u "hello") None fresh_world in
     answer = english_response
     /\ sources = []
     /\ events_of is_log w' = events_of is_log fresh_world
     /\ events_of is_completion w' = events_of is_completion fresh_world
     /\ (length (events_of is_retrieval fresh_world)
         < length (events_of is_retrieval w'))%nat.
Proof.
  split; [right; vm_compute; reflexivity|].
  apply (C4_non_arabic_redirect (u "hello") None fresh_world).
  right; vm_compute; reflexivity.
Defined.

(** C5, refuted as stated: the history has two entries and the query has
    one token, and the 500 characters kept are all of the earlier
    question, so the query is gone from the result. *)
Lemma C5_truncation_drops_query :
  (2 <= length long_history)%nat
  /\ referential (u "zz") = true
  /\ contains (u "zz") (enhance_query_with_context (u "zz") long_history)
     = false.
Proof.
  split; [simpl; lia|]. split; vm_compute; reflexivity.
Qed.

Lemma C5_enhance_query_with_context_witness :
  enhance_query_with_context (u "وما أشهر قصائده") short_history
  = u "من هو المتنبي" ++ u " " ++ u "وما أشهر قصائده"
  /\ contains (u "وما أشهر قصائده")
       (enhance_query_with_context (u "وما أشهر قصائده") short_history)
     = true.
Proof.
  pose proof (proj1 (proj2 (C5_enhance_query_with_context
                              (u "وما أشهر قصائده") short_history))) as H.
  specialize (H ltac:(simpl; lia) ltac:(vm_compute; reflexivity)).
  change (last_user_utterance (slice_last 4 short_history))
    with (Some (u "من هو المتنبي")) in H.
  destruct H as [_ H].
  exact (H ltac:(vm_compute; lia)).
Defined.

(** In [generate_chat_response] the history reaches
    [enhance_query_with_context] newest first ([reversed] of a list that
    [get_session_messages] returns oldest first), so the user entry found
    among its final four entries is the oldest of the window, not the
    latest. *)
Example history_reaches_enhancement_newest_first :
  let w :=
    snd (save_message (u "s") (u "assistant") (u "B2")
    (snd (save_message (u "s") (u "user") (u "second question")
    (snd (save_message (u "s") (u "assistant") (u "B1")
    (snd (save_message (u "s") (u "user") (u "first question")
            fresh_world))))))) in
  let history_dicts :=
    map (fun msg => {| h_role := Some (msg_role msg);
                       h_text := Some (msg_text msg) |})
      (rev (fst (get_session_messages (u "s") 10 w))) in
  enhance_query_with_context (u "and it") history_dicts
  = u "first question and it".
Proof. vm_compute. reflexivity. Qed.

(** C6 at the failing input: the embedding request raises an exception
    whose text is empty, the question is about the magazine and the model
    answers that nothing was found.  The entry written to the log carries
    the reason [no_results] although its metadata records the search
    error. *)
Theorem C6_empty_error_text_logged_as_no_results :
  events_of is_log
    (snd (@generate_chat_response sample_unicode rational_float
            failing_search_services (u "ما هي مجلة الدوحة") None fresh_world))
  = [ EvLogUnanswered (u "ما هي مجلة الدوحة") (u "uuid-0") (u "no_results")
        (@Build_log_metadata rational_float (inject_Z 0) 0
           (u "ما هي مجلة الدوحة") false (Some []) true true) ].
Proof. vm_compute. reflexivity. Qed.

Lemma C7_format_context_budget_witness :
  exists k : nat,
    format_context_for_llm [sample_article; sample_article] 6
    = join nl (tagged_parts 1 k [sample_article; sample_article])
    /\ total_words (take k [sample_article; sample_article]) <= 6
    /\ (forall doc rest,
           [sample_article; sample_article] = doc :: rest ->
           chunk_words doc <= 6 ->
           exists parts,
             tagged_parts 1 k [sample_article; sample_article]
             = context_part 1 doc :: parts).
Proof.
  apply (C7_format_context_budget [sample_article; sample_article] 6).
  lia.
Defined.

Lemma C9_greeting_never_logged_witness :
  events_of is_log
    (snd (generate_chat_response (u "مرحبا") None fresh_world))
  = events_of is_log fresh_world.
Proof.
  apply (C9_greeting_never_logged (u "مرحبا") None fresh_world).
  vm_compute; reflexivity.
Defined.

Lemma C10_save_then_get_last_witness :
  let '(message_id, w1) :=
    save_message (u "s-1") (u "user") (u "مرحبا") fresh_world in
  fst (get_session_messages (u "s-1") 1 w1)
  = [ {| msg_id := message_id; msg_role := u "user";
         msg_text := u "مرحبا"; msg_feedback := None |} ].
Proof.
  apply (C10_save_then_get_last (u "s-1") (u "user") (u "مرحبا") fresh_world).
  - exists ∅. reflexivity.
  - left. reflexivity.
Defined.

(** ** A message without [id] before the target *)

(** The rating of [m-2] is written to the document, and
    [update_message_feedback] returns [False]: the verification loop
    raises on the first message. *)
Example rating_stored_and_refused :
  let '(ok, w') :=
    update_message_feedback (u "s-1") (u "m-2") (VStr (u "up"))
      unkeyed_world in
  ok = false
  /\ (msg ← default [] (session_messages w' (u "s-1")) !! 1%nat;
      msg !! "feedback") = Some (VStr (u "up"))
  /\ trace w' = [EvUpsertItem (u "s-1")].
Proof. vm_compute. done. Qed.

(** [save_feedback] then returns the empty string without a recount: the
    cached counts, a recount before the call, still say that no answer
    is rated, while the messages now hold one positive rating. *)
Example rating_without_recount :
  let '(feedback_id, w') :=
    save_feedback (u "s-1") (u "m-2") (u "up") unkeyed_world in
  feedback_id = []
  /\ stats_counts <$> (stored_docs w' !! u "s-1" ≫= doc_feedback_statistics)
     = Some (0, 0, 0, 1)
  /\ update_count (default [] (session_messages w' (u "s-1"))) = (1, 0, 0, 1)
  /\ stats_counts
       <$> (stored_docs unkeyed_world !! u "s-1" ≫= doc_feedback_statistics)
     = Some (update_count
               (default [] (session_messages unkeyed_world (u "s-1")))).
Proof. vm_compute. done. Qed.

(** ** The further properties on concrete inputs *)

Lemma stored_world_session :
  session_messages stored_world (u "s-1") = Some stored_messages.
Proof. vm_compute. reflexivity. Qed.

Lemma stored_world_docs (P : session_doc -> Prop) :
  (forall doc, stored_docs stored_world !! u "s-1" = Some doc -> P doc) ->
  every_doc P stored_world.
Proof.
  intros H sid doc Hdoc.
  destruct (decide (sid = u "s-1")) as [->|Hne]; [by apply H|].
  unfold stored_docs, stored_world in Hdoc. simpl in Hdoc.
  rewrite lookup_insert_ne in Hdoc by done. by rewrite lookup_empty in Hdoc.
Qed.

Lemma stored_world_valid : every_doc messages_valid stored_world.
Proof.
  apply stored_world_docs. intros doc Hdoc. vm_compute in Hdoc.
  injection Hdoc as <-. unfold messages_valid. cbn [doc_messages default].
  repeat constructor; vm_compute; eauto.
Qed.

Lemma stored_world_stats : every_doc stats_ok stored_world.
Proof.
  apply stored_world_docs. intros doc Hdoc. vm_compute in Hdoc.
  injection Hdoc as <-. vm_compute. reflexivity.
Qed.

Lemma X1_store_unavailable_witness :
  save_message (u "s-1") (u "user") (u "up") offline_world
  = ([], offline_world)
  /\ get_session_messages (u "s-1") 10 offline_world = ([], offline_world)
  /\ update_message_feedback (u "s-1") (u "m-1") VNone offline_world
     = (false, offline_world)
  /\ save_feedback (u "s-1") (u "m-1") (u "up") offline_world
     = ([], offline_world)
  /\ update_feedback_statistics (u "s-1") offline_world
     = (None, offline_world)
  /\ recalculate_all_statistics (u "s-1") offline_world
     = (None, offline_world)
  /\ get_feedback_statistics (u "s-1") offline_world = (None, offline_world).
Proof.
  apply (X1_store_unavailable (u "s-1") (u "m-1") (u "user") (u "up") VNone
           10 offline_world).
  reflexivity.
Defined.

Lemma X2_save_message_appends_witness :
  let '(message_id, w') :=
    save_message (u "s-1") (u "user") (u "مرحبا") fresh_world in
  message_id = uuid4 (tick fresh_world)
  /\ session_messages w' (u "s-1")
     = Some (default [] (session_messages fresh_world (u "s-1"))
             ++ [new_message_dict message_id (u "user") (u "مرحبا")])
  /\ (stored_docs w' !! u "s-1") ≫= doc_message_count
     = Some (Z.of_nat
               (S (length (default []
                             (session_messages fresh_world (u "s-1"))))))
  /\ (forall other, other <> u "s-1" ->
        stored_docs w' !! other = stored_docs fresh_world !! other).
Proof.
  apply (X2_save_message_appends (u "s-1") (u "user") (u "مرحبا")
           fresh_world).
  exists ∅. reflexivity.
Defined.

Lemma X6_get_session_messages_window_witness :
  snd (get_session_messages (u "s-1") 1 stored_world) = stored_world
  /\ (length (fst (get_session_messages (u "s-1") 1 stored_world))
      <= Z.to_nat 1)%nat
  /\ (forall messages msg,
         session_messages stored_world (u "s-1") = Some messages ->
         msg ∈ slice_last 1 messages ->
         to_Message msg = None ->
         fst (get_session_messages (u "s-1") 1 stored_world) = []).
Proof.
  apply (X6_get_session_messages_window (u "s-1") 1 stored_world). lia.
Defined.

Lemma X7_valid_store_read_witness :
  mapM to_Message (slice_last 1 stored_messages)
  = Some (fst (get_session_messages (u "s-1") 1 stored_world))
  /\ length (fst (get_session_messages (u "s-1") 1 stored_world))
     = if 0 <? 1 then Nat.min (Z.to_nat 1) (length stored_messages)
       else (length stored_messages - Z.to_nat (- 1))%nat.
Proof.
  apply (X7_valid_store_read (u "s-1") 1 stored_world stored_messages).
  - exact stored_world_valid.
  - vm_compute. reflexivity.
Defined.

Lemma X13_context_grows_with_budget_witness :
  format_context_for_llm [sample_article] 3
  `prefix_of` format_context_for_llm [sample_article] 12.
Proof.
  apply (X13_context_grows_with_budget [sample_article] 3 12). lia.
Defined.

Lemma X17_no_dialect_word_unchanged_witness :
  add_dialect_support (u "مجلة الدوحة") = u "مجلة الدوحة".
Proof.
  apply (X17_no_dialect_word_unchanged (u "مجلة الدوحة")).
  vm_compute. reflexivity.
Defined.

Lemma X19_turn_is_recorded_witness :
  let '((answer, sources, session, message_id), w') :=
    generate_chat_response (u "ما هي مجلة الدوحة") None fresh_world in
  session = match @None pystr with
            | Some given => if pystr_eqb (strip given) []
                            then uuid4 (tick fresh_world) else given
            | None => uuid4 (tick fresh_world)
            end
  /\ (exists user_message_id,
        session_messages w' session
        = Some (default [] (session_messages fresh_world session)
                ++ (if is_arabic_text (u "ما هي مجلة الدوحة")
                    then [new_message_dict user_message_id (u "user")
                            (u "ما هي مجلة الدوحة")]
                    else [])
                ++ [new_message_dict message_id (u "assistant") answer]))
  /\ (forall other, other <> session ->
        stored_docs w' !! other = stored_docs fresh_world !! other).
Proof.
  apply (X19_turn_is_recorded (u "ما هي مجلة الدوحة") None fresh_world).
  exists ∅. reflexivity.
Defined.

Lemma X22_history_newest_first_witness :
  exists rest,
    fst (build_conversation_history (u "s-1") 5 stored_world)
    = u "Conversation History:" ++ nl
      ++ history_line {| msg_id := u "m-2"; msg_role := u "assistant";
                         msg_text := u "شاعر عربي";
                         msg_feedback := Some (u "up") |}
      ++ rest.
Proof.
  apply (X22_history_newest_first (u "s-1") 5 stored_world stored_messages
           [ {| msg_id := u "m-1"; msg_role := u "user";
                msg_text := u "من هو المتنبي"; msg_feedback := None |} ]).
  - lia.
  - vm_compute. reflexivity.
  - vm_compute. reflexivity.
Defined.

Lemma X25_statistics_routes_agree_witness :
  Forall (fun route : pystr -> M (reply (pystr * option statistics)) =>
            match container stored_world,
                  session_messages stored_world (u "s-1") with
            | None, _ => route (u "s-1") stored_world
                         = (HttpError 500, stored_world)
            | Some _, None => fst (route (u "s-1") stored_world)
                              = Reply (u "s-1", None)
            | Some _, Some messages =>
              exists st,
                fst (route (u "s-1") stored_world) = Reply (u "s-1", Some st)
                /\ stats_counts st = update_count messages
            end)
    [get_feedback_statistics_route; force_update_feedback_statistics;
     recalculate_feedback_statistics].
Proof.
  apply (X25_statistics_routes_agree (u "s-1") stored_world).
  exact stored_world_stats.
Defined.

Lemma X27_chunk_text_windows_witness :
  let words := split (u "a b c") in
  let step := 2 - 1 in
  chunk_text 3 (u "a b c") 2 1
  = Some (map (join (u " ")) (chunk_windows words 2 step))
  /\ (0 <= 1 ->
      forall (j : nat) (word : pystr),
        words !! j = Some word ->
        exists window,
          chunk_windows words 2 step
            !! Z.to_nat (Z.of_nat j / step) = Some window
          /\ window !! (j - Z.to_nat (Z.of_nat j / step * step))%nat
             = Some word).
Proof.
  apply (X27_chunk_text_windows (u "a b c") 2 1 3).
  - lia.
  - vm_compute. lia.
Defined.

Lemma X28_chunk_text_never_ends_witness :
  chunk_text 10 (u "a") 5 5 = None.
Proof.
  apply (X28_chunk_text_never_ends (u "a") 5 5 10).
  - lia.
  - vm_compute. discriminate.
Defined.

End Examples.
